(** * WaveSync chunk player: a shallow embedding of [libwavesync/chunk_player.py]

    The playback loop of [ChunkPlayer] is embedded as a state-and-exception
    monad over a [World] that holds the player object, the shared chunk
    queue, the local variables of the [chunk_player] coroutine, the log of
    observable effects and the read positions of the external oracles
    (clocks, random source, audio device, the producer task).

    Numbers: Python [int] is [Z]; Python [float] is modelled by exact
    rationals [Q] (rounding of binary64 is abstracted away, comparisons and
    the raising of [ZeroDivisionError] are kept). *)

From Stdlib Require Import QArith Qminmax ZArith List Bool Lia Lqa.
From Stdlib Require Import Init.Byte.
Import ListNotations.

Local Open Scope Z_scope.

(** ** Numeric helpers *)

(** [x < y] on floats. *)
Definition Qltb (x y : Q) : bool := negb (Qle_bool y x).

(** Python's [max(a, b)]: the first argument unless the second is greater. *)
Definition pymax (a b : Q) : Q := if Qltb a b then b else a.

(** [one_msec = 1/1000.0] *)
Definition one_msec : Q := (1 / 1000.0)%Q.

(** ** Data model *)

(** The configuration dictionary carried by a [CMD_CFG] command. *)
Record AudioCfg := mkAudioCfg {
  sample : Z;
  channels : Z;
  rate : Z;
  chunk_size : Z;
  latency_msec : Z
}.

(** Entries [(cmd, item)] of [chunk_queue.chunk_list]. *)
Inductive Command :=
| CMD_CFG (item : AudioCfg)
| CMD_DROPS (item : Z)
| CMD_AUDIO (mark : Q) (chunk : list byte).

Inductive SampleFormat := paInt16 | paInt24.

(** An open output stream, remembered by the arguments of [pyaudio.open]. *)
Record Stream := mkStream {
  st_channels : Z;
  st_rate : Z;
  st_format : SampleFormat;
  st_frames_per_buffer : Z;
  st_output_device_index : option Z
}.

(** The statistics the player reads from the receiver. *)
Record Receiver := mkReceiver {
  stat_network_latency : Q;
  stat_network_drops : Z
}.

(** Attributes of [ChunkPlayer] (the [chunk_queue] attribute is the shared
    [ChunkQueue] object and lives in [World]). *)
Record ChunkPlayer := mkChunkPlayer {
  receiver : option Receiver;
  tolerance : Q;
  sink_latency : Q;
  latency : Q;
  audio_cfg : option AudioCfg;
  buffer_size : Z;
  device_index : option Z;
  stream : option Stream;
  silence_cache : option (list byte);
  silence_to_insert : Z;
  stat_time_drops : Z;
  stat_output_delays : Z;
  stat_total_delay : Q;
  pyaudio : bool;
  frame_size : option Z;
  chunk_frames : option Q
}.

(** The chunk queue shared with the receiver task.
    [recovery_requests] counts the calls of [do_recovery]. *)
Record ChunkQueue := mkChunkQueue {
  chunk_list : list Command;
  chunk_available : bool;
  recovery_requests : nat
}.

(** Local variables of the [chunk_player] coroutine that live across
    iterations of its [while True] loop. *)
Record Frame := mkFrame {
  cnt : Z;
  recent_start : Q;
  recent : Z;
  max_delay : Q
}.

(** The values formatted into the [STAT:] line. *)
Record Snapshot := mkSnapshot {
  snap_q_len : Z;
  snap_bs : Q;
  snap_chunks_per_s : Q;
  snap_net_lat : Q;
  snap_avg_delay : Q;
  snap_time_drops : Z;
  snap_net_drops : Z;
  snap_out_delay : Z
}.

(** The lines the player prints, with the values they are formatted from. *)
Inductive Message :=
| MsgQueueEmpty
| MsgStreamFlowing (q_len : Z)
| MsgNewConfiguration
| MsgMaxDelay (msec : Q)
| MsgHugeLoss (packets : Z)
| MsgDropChunk (q_len : Z) (delay_ms tolerance_ms prob : Q)
| MsgHugeRecovery (delay limit : Q)
| MsgStuck
| MsgStat (s : Snapshot)
| MsgLatencyHuge
| MsgSpeedOfLight.

(** Observable effects, in the order they happen. *)
Inductive Effect :=
| Print (m : Message)
| EventClear
| EventWait
| Sleep (seconds : Q)
| PyAudioInit
| StreamOpen (s : Stream)
| StreamStop
| StreamClose
| PyAudioTerminate
| GetWriteAvailable (frames : Z)
| StreamWrite (chunk : list byte)
| DoRecovery.

(** How many readings each external oracle has handed out so far. *)
Record Cursor := mkCursor {
  n_time : nat;
  n_utcnow : nat;
  n_random : nat;
  n_poll : nat;
  n_open : nat;
  n_yield : nat
}.

Record World := mkWorld {
  self : ChunkPlayer;
  chunk_queue : ChunkQueue;
  locals : Frame;
  trace : list Effect;
  cursor : Cursor
}.

(** The environment of the coroutine: the k-th reading of each clock, of
    the random source and of the device, and what the receiver task does
    while the player is suspended for the k-th time. *)
Record Env := mkEnv {
  env_time : nat -> Q;
  env_utcnow : nat -> Q;
  env_random : nat -> Q;
  env_write_available : nat -> Z;
  env_open_ok : nat -> bool;
  env_producer : nat -> list Command;
  env_receiver : nat -> Receiver
}.

Inductive Exn :=
| ZeroDivisionError
| TypeError
| AssertionError
| IOError
| OutOfFuel.

Inductive Outcome (A : Type) :=
| Return (a : A) (w : World)
| Raise (e : Exn) (w : World).
Arguments Return {A} a w.
Arguments Raise {A} e w.

Definition M (A : Type) : Type := World -> Outcome A.

Definition ret {A} (a : A) : M A := fun w => Return a w.
Definition raise {A} (e : Exn) : M A := fun w => Raise e w.
Definition bind {A B} (m : M A) (k : A -> M B) : M B :=
  fun w => match m w with
           | Return a w' => k a w'
           | Raise e w' => Raise e w'
           end.
Definition gets {A} (f : World -> A) : M A := fun w => Return (f w) w.
Definition modify (f : World -> World) : M unit := fun w => Return tt (f w).

Declare Scope player_scope.
Delimit Scope player_scope with player.
Notation "x <- m ;; k" := (bind m (fun x => k))
  (at level 61, m at next level, right associativity) : player_scope.
Notation "m ;; k" := (bind m (fun _ => k))
  (at level 61, right associativity) : player_scope.

(** The world the outcome leaves behind, whether it returned or raised. *)
Definition final {A} (o : Outcome A) : World :=
  match o with Return _ w => w | Raise _ w => w end.

Definition returned {A} (o : Outcome A) : bool :=
  match o with Return _ _ => true | Raise _ _ => false end.

(** ** Field updates *)

Definition with_self (f : ChunkPlayer -> ChunkPlayer) (w : World) : World :=
  mkWorld (f (self w)) (chunk_queue w) (locals w) (trace w) (cursor w).
Definition with_queue (f : ChunkQueue -> ChunkQueue) (w : World) : World :=
  mkWorld (self w) (f (chunk_queue w)) (locals w) (trace w) (cursor w).
Definition with_locals (f : Frame -> Frame) (w : World) : World :=
  mkWorld (self w) (chunk_queue w) (f (locals w)) (trace w) (cursor w).
Definition with_cursor (f : Cursor -> Cursor) (w : World) : World :=
  mkWorld (self w) (chunk_queue w) (locals w) (trace w) (f (cursor w)).
Definition emit (e : Effect) (w : World) : World :=
  mkWorld (self w) (chunk_queue w) (locals w) (trace w ++ [e]) (cursor w).

Definition set_receiver (v : option Receiver) (p : ChunkPlayer) :=
  mkChunkPlayer v (tolerance p) (sink_latency p) (latency p) (audio_cfg p)
    (buffer_size p) (device_index p) (stream p) (silence_cache p)
    (silence_to_insert p) (stat_time_drops p) (stat_output_delays p)
    (stat_total_delay p) (pyaudio p) (frame_size p) (chunk_frames p).
Definition set_audio_cfg (v : option AudioCfg) (p : ChunkPlayer) :=
  mkChunkPlayer (receiver p) (tolerance p) (sink_latency p) (latency p) v
    (buffer_size p) (device_index p) (stream p) (silence_cache p)
    (silence_to_insert p) (stat_time_drops p) (stat_output_delays p)
    (stat_total_delay p) (pyaudio p) (frame_size p) (chunk_frames p).
Definition set_stream (v : option Stream) (p : ChunkPlayer) :=
  mkChunkPlayer (receiver p) (tolerance p) (sink_latency p) (latency p)
    (audio_cfg p) (buffer_size p) (device_index p) v (silence_cache p)
    (silence_to_insert p) (stat_time_drops p) (stat_output_delays p)
    (stat_total_delay p) (pyaudio p) (frame_size p) (chunk_frames p).
Definition set_silence_cache (v : option (list byte)) (p : ChunkPlayer) :=
  mkChunkPlayer (receiver p) (tolerance p) (sink_latency p) (latency p)
    (audio_cfg p) (buffer_size p) (device_index p) (stream p) v
    (silence_to_insert p) (stat_time_drops p) (stat_output_delays p)
    (stat_total_delay p) (pyaudio p) (frame_size p) (chunk_frames p).
Definition set_silence_to_insert (v : Z) (p : ChunkPlayer) :=
  mkChunkPlayer (receiver p) (tolerance p) (sink_latency p) (latency p)
    (audio_cfg p) (buffer_size p) (device_index p) (stream p)
    (silence_cache p) v (stat_time_drops p) (stat_output_delays p)
    (stat_total_delay p) (pyaudio p) (frame_size p) (chunk_frames p).
Definition set_stat_time_drops (v : Z) (p : ChunkPlayer) :=
  mkChunkPlayer (receiver p) (tolerance p) (sink_latency p) (latency p)
    (audio_cfg p) (buffer_size p) (device_index p) (stream p)
    (silence_cache p) (silence_to_insert p) v (stat_output_delays p)
    (stat_total_delay p) (pyaudio p) (frame_size p) (chunk_frames p).
Definition set_stat_output_delays (v : Z) (p : ChunkPlayer) :=
  mkChunkPlayer (receiver p) (tolerance p) (sink_latency p) (latency p)
    (audio_cfg p) (buffer_size p) (device_index p) (stream p)
    (silence_cache p) (silence_to_insert p) (stat_time_drops p) v
    (stat_total_delay p) (pyaudio p) (frame_size p) (chunk_frames p).
Definition set_stat_total_delay (v : Q) (p : ChunkPlayer) :=
  mkChunkPlayer (receiver p) (tolerance p) (sink_latency p) (latency p)
    (audio_cfg p) (buffer_size p) (device_index p) (stream p)
    (silence_cache p) (silence_to_insert p) (stat_time_drops p)
    (stat_output_delays p) v (pyaudio p) (frame_size p) (chunk_frames p).
Definition set_pyaudio (v : bool) (p : ChunkPlayer) :=
  mkChunkPlayer (receiver p) (tolerance p) (sink_latency p) (latency p)
    (audio_cfg p) (buffer_size p) (device_index p) (stream p)
    (silence_cache p) (silence_to_insert p) (stat_time_drops p)
    (stat_output_delays p) (stat_total_delay p) v (frame_size p)
    (chunk_frames p).
Definition set_frame_size (v : option Z) (p : ChunkPlayer) :=
  mkChunkPlayer (receiver p) (tolerance p) (sink_latency p) (latency p)
    (audio_cfg p) (buffer_size p) (device_index p) (stream p)
    (silence_cache p) (silence_to_insert p) (stat_time_drops p)
    (stat_output_delays p) (stat_total_delay p) (pyaudio p) v
    (chunk_frames p).
Definition set_chunk_frames (v : option Q) (p : ChunkPlayer) :=
  mkChunkPlayer (receiver p) (tolerance p) (sink_latency p) (latency p)
    (audio_cfg p) (buffer_size p) (device_index p) (stream p)
    (silence_cache p) (silence_to_insert p) (stat_time_drops p)
    (stat_output_delays p) (stat_total_delay p) (pyaudio p) (frame_size p)
    v.

Definition set_chunk_list (v : list Command) (q : ChunkQueue) :=
  mkChunkQueue v (chunk_available q) (recovery_requests q).
Definition set_chunk_available (v : bool) (q : ChunkQueue) :=
  mkChunkQueue (chunk_list q) v (recovery_requests q).
Definition set_recovery_requests (v : nat) (q : ChunkQueue) :=
  mkChunkQueue (chunk_list q) (chunk_available q) v.

Definition set_cnt (v : Z) (f : Frame) :=
  mkFrame v (recent_start f) (recent f) (max_delay f).
Definition set_recent_start (v : Q) (f : Frame) :=
  mkFrame (cnt f) v (recent f) (max_delay f).
Definition set_recent (v : Z) (f : Frame) :=
  mkFrame (cnt f) (recent_start f) v (max_delay f).
Definition set_max_delay (v : Q) (f : Frame) :=
  mkFrame (cnt f) (recent_start f) (recent f) v.

Definition tick_time (c : Cursor) :=
  mkCursor (S (n_time c)) (n_utcnow c) (n_random c) (n_poll c) (n_open c)
    (n_yield c).
Definition tick_utcnow (c : Cursor) :=
  mkCursor (n_time c) (S (n_utcnow c)) (n_random c) (n_poll c) (n_open c)
    (n_yield c).
Definition tick_random (c : Cursor) :=
  mkCursor (n_time c) (n_utcnow c) (S (n_random c)) (n_poll c) (n_open c)
    (n_yield c).
Definition tick_poll (c : Cursor) :=
  mkCursor (n_time c) (n_utcnow c) (n_random c) (S (n_poll c)) (n_open c)
    (n_yield c).
Definition tick_open (c : Cursor) :=
  mkCursor (n_time c) (n_utcnow c) (n_random c) (n_poll c) (S (n_open c))
    (n_yield c).
Definition tick_yield (c : Cursor) :=
  mkCursor (n_time c) (n_utcnow c) (n_random c) (n_poll c) (n_open c)
    (S (n_yield c)).

(** ** The player's operations *)

Section Model.

Variable env : Env.

Local Open Scope player_scope.

Definition print (m : Message) : M unit := modify (emit (Print m)).

(** [x / y] on floats (and [int / int], which is true division too). *)
Definition truediv (x y : Q) : M Q :=
  if Qeq_bool y 0 then raise ZeroDivisionError else ret (x / y)%Q.

(** What happens at a [yield from]: the receiver task runs; it may append
    commands to the queue and refresh its statistics. *)
Definition suspend (w : World) : World :=
  let k := n_yield (cursor w) in
  with_cursor tick_yield
    (with_self
       (fun p => set_receiver
                   (option_map (fun _ => env_receiver env k) (receiver p)) p)
       (with_queue
          (fun q => set_chunk_list (chunk_list q ++ env_producer env k) q)
          w)).

(** [yield from asyncio.sleep(seconds)] *)
Definition sleep (seconds : Q) : M unit :=
  modify (fun w => suspend (emit (Sleep seconds) w)).

(** [time()] *)
Definition time_now : M Q :=
  fun w => Return (env_time env (n_time (cursor w))) (with_cursor tick_time w).

(** [datetime.utcnow().timestamp()] *)
Definition utcnow_timestamp : M Q :=
  fun w => Return (env_utcnow env (n_utcnow (cursor w)))
                  (with_cursor tick_utcnow w).

(** [random.random()] *)
Definition random_random : M Q :=
  fun w => Return (env_random env (n_random (cursor w)))
                  (with_cursor tick_random w).

(** [self.stream.get_write_available()] *)
Definition get_write_available : M Z :=
  fun w => let frames := env_write_available env (n_poll (cursor w)) in
           Return frames (emit (GetWriteAvailable frames)
                               (with_cursor tick_poll w)).

(** [self.pyaudio.open(...)]: the device may refuse. *)
Definition pyaudio_open (s : Stream) : M Stream :=
  fun w => if env_open_ok env (n_open (cursor w))
           then Return s (emit (StreamOpen s) (with_cursor tick_open w))
           else Raise IOError (with_cursor tick_open w).

(** Modelled from the spec: [chunk_queue.do_recovery] belongs to the queue
    class, whose source is not at hand; the hook signals the receiver and
    leaves the pending commands alone. *)
Definition do_recovery (w : World) : World :=
  emit DoRecovery
    (with_queue (fun q => set_recovery_requests (S (recovery_requests q)) q) w).

(** The [for ... break] scan of [clear_state]: the item of the first
    [CMD_CFG] entry met from the front of the list. *)
Fixpoint scan_cfg (l : list Command) : option AudioCfg :=
  match l with
  | [] => None
  | CMD_CFG item :: _ => Some item
  | _ :: l' => scan_cfg l'
  end.

Definition clear_state (w : World) : World :=
  let w := with_self (set_silence_to_insert 0) w in
  let cfg := scan_cfg (chunk_list (chunk_queue w)) in
  let w := with_queue (set_chunk_list []) w in
  let w := with_queue
             (fun q => set_chunk_list
                         match cfg with
                         | Some c => chunk_list q ++ [CMD_CFG c]
                         | None => chunk_list q
                         end q) w in
  do_recovery w.

Definition get_silent_chunk : M (list byte) :=
  cache <- gets (fun w => silence_cache (self w)) ;;
  match cache with
  | Some c => ret c
  | None =>
      cfg <- gets (fun w => audio_cfg (self w)) ;;
      match cfg with
      | None => raise TypeError
      | Some cfg =>
          let silent_chunk := repeat x00 (Z.to_nat (chunk_size cfg)) in
          modify (with_self (set_silence_cache (Some silent_chunk))) ;;
          ret silent_chunk
      end
  end.

(** The size of a frame in bytes, and the sample format, of a
    configuration (lines 84-89). *)
Definition frame_size_of (cfg : AudioCfg) : Z :=
  if sample cfg =? 24 then 3 * channels cfg else 2 * channels cfg.

Definition format_of (cfg : AudioCfg) : SampleFormat :=
  if sample cfg =? 24 then paInt24 else paInt16.

Definition _open_stream : M unit :=
  s <- gets (fun w => stream (self w)) ;;
  match s with
  | Some _ => raise AssertionError
  | None =>
      modify (fun w => emit PyAudioInit (with_self (set_pyaudio true) w)) ;;
      modify clear_state ;;
      cfg <- gets (fun w => audio_cfg (self w)) ;;
      match cfg with
      | None => raise TypeError
      | Some cfg =>
          let frame_size := frame_size_of cfg in
          let format := format_of cfg in
          frames_per_buffer <- gets (fun w => buffer_size (self w)) ;;
          device <- gets (fun w => device_index (self w)) ;;
          stream <- pyaudio_open
                      (mkStream (channels cfg) (rate cfg) format
                                frames_per_buffer device) ;;
          modify (with_self (set_frame_size (Some frame_size))) ;;
          cf <- truediv (inject_Z (chunk_size cfg)) (inject_Z frame_size) ;;
          modify (with_self (set_chunk_frames (Some cf))) ;;
          modify (with_self (set_stream (Some stream)))
      end
  end.

Definition _close_stream (w : World) : World :=
  with_self (set_stream None)
    (emit PyAudioTerminate (emit StreamClose (emit StreamStop w))).

(** [mid_tolerance = self.tolerance / 2]; [self.tolerance] is never
    assigned after [__init__]. *)
Definition mid_tolerance (w : World) : Q := (tolerance (self w) / 2)%Q.

(** Lines 127-140: the queue is empty. *)
Definition queue_empty : M unit :=
  cfg <- gets (fun w => audio_cfg (self w)) ;;
  (match cfg with Some _ => print MsgQueueEmpty | None => ret tt end) ;;
  modify (fun w => emit EventClear
                     (with_queue (set_chunk_available false) w)) ;;
  modify (fun w => with_queue (set_chunk_available true)
                     (suspend (emit EventWait w))) ;;
  t <- time_now ;;
  modify (with_locals (set_recent_start t)) ;;
  modify (with_locals (set_recent 0)) ;;
  cfg <- gets (fun w => audio_cfg (self w)) ;;
  match cfg with
  | Some cfg =>
      sleep (inject_Z (latency_msec cfg) / 1000 / 4)%Q ;;
      q <- gets (fun w => chunk_list (chunk_queue w)) ;;
      print (MsgStreamFlowing (Z.of_nat (length q)))
  | None => ret tt
  end.

(** Lines 144-154: a [CMD_CFG] command. *)
Definition on_cfg (item : AudioCfg) : M unit :=
  print MsgNewConfiguration ;;
  modify clear_state ;;
  modify (with_self (set_audio_cfg (Some item))) ;;
  s <- gets (fun w => stream (self w)) ;;
  (match s with Some _ => modify _close_stream | None => ret tt end) ;;
  _open_stream ;;
  sl <- gets (fun w => sink_latency (self w)) ;;
  cfg <- gets (fun w => audio_cfg (self w)) ;;
  match cfg with
  | None => raise TypeError
  | Some cfg =>
      let md := (0.2 + sl + inject_Z (latency_msec cfg) / 1000)%Q in
      modify (with_locals (set_max_delay md)) ;;
      print (MsgMaxDelay (md * 1000)%Q)
  end.

(** Lines 155-162: a [CMD_DROPS] command. *)
Definition on_drops (item : Z) : M unit :=
  if item >? 200 then
    print (MsgHugeLoss item) ;;
    modify clear_state
  else
    modify (with_self
              (fun p => set_silence_to_insert (silence_to_insert p + item) p)).

(** Lines 185-207: what to do with a chunk that is [delay] away from its
    play time.  Returns [false] where the source says [continue]. *)
Definition timing (delay : Q) : M bool :=
  mid <- gets mid_tolerance ;;
  md <- gets (fun w => max_delay (locals w)) ;;
  if Qltb delay (- mid) then
    let over := (- delay - mid)%Q in
    prob <- truediv over mid ;;
    r <- random_random ;;
    if Qltb r prob then
      q <- gets (fun w => chunk_list (chunk_queue w)) ;;
      tol <- gets (fun w => tolerance (self w)) ;;
      print (MsgDropChunk (Z.of_nat (length q)) (delay * 1000)%Q
                          (- tol * 1000)%Q prob) ;;
      modify (with_self
                (fun p => set_stat_time_drops (stat_time_drops p + 1) p)) ;;
      ret false
    else ret true
  else if Qltb md delay then
    print (MsgHugeRecovery delay md) ;;
    modify clear_state ;;
    ret false
  else if Qltb one_msec delay then
    let to_wait := pymax one_msec (delay - one_msec)%Q in
    sleep to_wait ;;
    ret true
  else ret true.

(** Lines 213-226: the inner [while True].  [fuel] bounds the number of
    polls; 101 are enough (see [write_loop_fuel]).  Returns the last
    [buffer_space]. *)
Fixpoint write_loop (fuel : nat) (times : Z) (chunk : list byte) (delay : Q)
  : M Z :=
  match fuel with
  | O => raise OutOfFuel
  | S fuel' =>
      buffer_space <- get_write_available ;;
      cf <- gets (fun w => chunk_frames (self w)) ;;
      match cf with
      | None => raise TypeError
      | Some cf =>
          if Qltb (inject_Z buffer_space) cf then
            modify (with_self
                      (fun p => set_stat_output_delays
                                  (stat_output_delays p + 1) p)) ;;
            sleep (pymax one_msec delay) ;;
            let times := times + 1 in
            if times >? 100 then
              print MsgStuck ;;
              sleep 1 ;;
              ret buffer_space
            else write_loop fuel' times chunk delay
          else
            modify (emit (StreamWrite chunk)) ;;
            ret buffer_space
      end
  end.

(** Lines 229-268: the main status line. *)
Definition status_line (chunk : list byte) (buffer_space : Z) : M unit :=
  r <- gets (fun w => recent (locals w)) ;;
  if r >? 200 then
    fs <- gets (fun w => frame_size (self w)) ;;
    match fs with
    | None => raise TypeError
    | Some fs =>
        frames_in_chunk <- truediv (inject_Z (Z.of_nat (length chunk)))
                                   (inject_Z fs) ;;
        t <- time_now ;;
        rs <- gets (fun w => recent_start (locals w)) ;;
        let took := (t - rs)%Q in
        chunks_per_s <- truediv (inject_Z r) took ;;
        rcv <- gets (fun w => receiver (self w)) ;;
        let network_latency :=
          match rcv with Some x => stat_network_latency x | None => 0%Q end in
        let network_drops :=
          match rcv with Some x => stat_network_drops x | None => 0 end in
        q <- gets (fun w => chunk_list (chunk_queue w)) ;;
        bs <- truediv (inject_Z buffer_space) frames_in_chunk ;;
        total <- gets (fun w => stat_total_delay (self w)) ;;
        c <- gets (fun w => cnt (locals w)) ;;
        avg <- truediv (1000.0 * total)%Q (inject_Z c) ;;
        td <- gets (fun w => stat_time_drops (self w)) ;;
        od <- gets (fun w => stat_output_delays (self w)) ;;
        print (MsgStat (mkSnapshot (Z.of_nat (length q)) bs chunks_per_s
                                   (1000.0 * network_latency)%Q avg td
                                   network_drops od)) ;;
        modify (with_locals (set_recent 0)) ;;
        t' <- time_now ;;
        modify (with_locals (set_recent_start t')) ;;
        match rcv with
        | Some x =>
            if Qltb 4 (stat_network_latency x) then print MsgLatencyHuge
            else if Qltb (stat_network_latency x) 0 then print MsgSpeedOfLight
            else ret tt
        | None => ret tt
        end
    end
  else ret tt.

(** Lines 213-268: write the chunk, then the status line. *)
Definition write_and_report (chunk : list byte) (delay : Q) : M unit :=
  buffer_space <- write_loop 101 0 chunk delay ;;
  status_line chunk buffer_space.

(** Lines 166-268: a [CMD_AUDIO] command. *)
Definition on_audio (mark : Q) (chunk : list byte) : M unit :=
  s <- gets (fun w => stream (self w)) ;;
  match s with
  | None => ret tt
  | Some _ =>
      sl <- gets (fun w => sink_latency (self w)) ;;
      let desired_time := (mark - sl)%Q in
      now <- utcnow_timestamp ;;
      let delay := (desired_time - now)%Q in
      modify (with_self
                (fun p => set_stat_total_delay
                            (stat_total_delay p + delay)%Q p)) ;;
      modify (with_locals (fun f => set_recent (recent f + 1) f)) ;;
      modify (with_locals (fun f => set_cnt (cnt f + 1) f)) ;;
      go <- timing delay ;;
      if go : bool then write_and_report chunk delay else ret tt
  end.

(** One pass through the body of [while True] in [chunk_player]. *)
Definition iteration : M unit :=
  q <- gets (fun w => chunk_list (chunk_queue w)) ;;
  match q with
  | [] => queue_empty
  | cmd :: rest =>
      modify (with_queue (set_chunk_list rest)) ;;
      match cmd with
      | CMD_CFG item => on_cfg item
      | CMD_DROPS item => on_drops item
      | CMD_AUDIO mark chunk => on_audio mark chunk
      end
  end.

(** [n] passes through the loop; an exception ends the coroutine. *)
Fixpoint chunk_player_loop (n : nat) : M unit :=
  match n with
  | O => ret tt
  | S n' => iteration ;; chunk_player_loop n'
  end.

(** The coroutine from its start: lines 115-124, then the loop. *)
Definition chunk_player (n : nat) : M unit :=
  t <- time_now ;;
  modify (with_locals (fun _ => mkFrame 0 t 0 5%Q)) ;;
  chunk_player_loop n.

End Model.

(** ** Sample inputs *)

(** The configuration of the spec's scenario A. *)
Definition cfg_cd : AudioCfg := mkAudioCfg 16 2 44100 4096 100.

(** A second, different configuration, queued later. *)
Definition cfg_hd : AudioCfg := mkAudioCfg 24 2 48000 6144 50.

Definition cfg_small : AudioCfg := mkAudioCfg 16 1 8000 8 100.

(** A freshly constructed player: tolerance 100 ms, sink latency 100 ms. *)
Definition player_init : ChunkPlayer :=
  mkChunkPlayer None 0.1%Q 0.1%Q 0%Q None 1024 None None None 0 0 0 0%Q false
                None None.

(** The world when [chunk_player] enters its loop with [q] pending. *)
Definition world_init (q : list Command) : World :=
  mkWorld player_init (mkChunkQueue q false 0) (mkFrame 0 0%Q 0 5%Q) []
          (mkCursor 0 0 0 0 0 0).

(** An environment whose oracles are constant: the wall clock reads
    [t], the UTC clock [now], every random draw is [r], the device
    always reports [space] free frames and opens, nothing arrives. *)
Definition env_const (t now r : Q) (space : Z) : Env :=
  mkEnv (fun _ => t) (fun _ => now) (fun _ => r) (fun _ => space)
        (fun _ => true) (fun _ => []) (fun _ => mkReceiver 0%Q 0).

(** A player that has processed [cfg] (device open), with [q] pending,
    [r] chunks counted in the current window and [c] in total. *)
Definition world_playing (cfg : AudioCfg) (q : list Command) (r c : Z)
  : World :=
  mkWorld
    (mkChunkPlayer None 0.1%Q 0.1%Q 0%Q (Some cfg) 1024 None
       (Some (mkStream (channels cfg) (rate cfg) (format_of cfg) 1024 None))
       None 0 0 0 0%Q true (Some (frame_size_of cfg))
       (Some (inject_Z (chunk_size cfg) / inject_Z (frame_size_of cfg))%Q))
    (mkChunkQueue q true 1)
    (mkFrame c 0%Q r
       (0.2 + 0.1 + inject_Z (latency_msec cfg) / 1000)%Q)
    [] (mkCursor 1 0 0 0 1 0).

(** The spec's wording of what recovery keeps: the most recent
    [ConfigChange] among the pending events. *)
Definition most_recent_cfg (l : list Command) : option AudioCfg :=
  scan_cfg (rev l).

(** The effects of [n] polls that all find the device short of space,
    starting at poll number [k] and suspension number [y]. *)
Fixpoint stuck_polls (env : Env) (delay : Q) (k n : nat) : list Effect :=
  match n with
  | O => []
  | S n' => GetWriteAvailable (env_write_available env k)
            :: Sleep (pymax one_msec delay)
            :: stuck_polls env delay (S k) n'
  end.

(** Is [e] a device write? *)
Definition is_write (e : Effect) : bool :=
  match e with StreamWrite _ => true | _ => false end.

(** Is [e] a status snapshot? *)
Definition is_stat (e : Effect) : bool :=
  match e with Print (MsgStat _) => true | _ => false end.

(** The three cumulative counters do not decrease from [w] to [w']. *)
Definition counters_le (w w' : World) : Prop :=
  stat_time_drops (self w) <= stat_time_drops (self w') /\
  stat_output_delays (self w) <= stat_output_delays (self w') /\
  cnt (locals w) <= cnt (locals w').

(** The delay of a chunk marked [mark] that is popped in world [w]. *)
Definition chunk_delay (env : Env) (mark : Q) (w : World) : Q :=
  (mark - sink_latency (self w) - env_utcnow env (n_utcnow (cursor w)))%Q.


(** A postcondition over every way a computation can end: [R] relates the
    world before to the world after, and [E] holds of what is raised. *)
Definition always {A} (R : World -> World -> Prop) (E : Exn -> Prop)
  (m : M A) : Prop :=
  forall w, match m w with
            | Return _ w' => R w w'
            | Raise e w' => R w w' /\ E e
            end.

(** The log only ever grows. *)
Definition trace_grows (w w' : World) : Prop :=
  exists l, trace w' = trace w ++ l.

(** Any exception at all. *)
Definition any_exn (e : Exn) : Prop := True.

(** A Python exception, not an artefact of the fuel. *)
Definition python_exn (e : Exn) : Prop := e <> OutOfFuel.

(** Nothing needs to hold between the worlds. *)
Definition any_world (w w' : World) : Prop := True.

(** A four-byte payload. *)
Definition chunk4 : list byte := [x01; x02; x03; x04].

(** The device always has 2048 frames free; the UTC clock reads 0, the
    wall clock 5, and every random draw is 1/2. *)
Definition env_ready : Env := env_const 5%Q 0%Q 0.5%Q 2048.

(** The same, with a device that never has room. *)
Definition env_stuck : Env := env_const 5%Q 0%Q 0.5%Q 0.

(** ** The constructor and further notions used by the properties *)

(** [ChunkPlayer.__init__]: the arguments are stored, everything else
    starts empty or at zero. *)
Definition __init__ (receiver : option Receiver)
  (tolerance sink_latency latency : Q) (buffer_size : Z)
  (device_index : option Z) : ChunkPlayer :=
  mkChunkPlayer receiver tolerance sink_latency latency None buffer_size
                device_index None None 0 0 0 0%Q false None None.

(** The world in which the coroutine of a new player is started, with
    [q] already queued; the locals are set by [chunk_player] itself. *)
Definition world_start (p : ChunkPlayer) (q : list Command) : World :=
  mkWorld p (mkChunkQueue q false 0) (mkFrame 0 0%Q 0 0%Q) []
          (mkCursor 0 0 0 0 0 0).

(** The payloads handed to [stream.write], in order. *)
Fixpoint writes (l : list Effect) : list (list byte) :=
  match l with
  | [] => []
  | StreamWrite chunk :: l' => chunk :: writes l'
  | _ :: l' => writes l'
  end.

(** The payloads of the audio commands of a queue, in order. *)
Fixpoint audio_payloads (l : list Command) : list (list byte) :=
  match l with
  | [] => []
  | CMD_AUDIO _ chunk :: l' => chunk :: audio_payloads l'
  | _ :: l' => audio_payloads l'
  end.

(** Does [e] touch the audio device? *)
Definition is_device (e : Effect) : bool :=
  match e with
  | PyAudioInit | StreamOpen _ | StreamStop | StreamClose
  | PyAudioTerminate | GetWriteAvailable _ | StreamWrite _ => true
  | _ => false
  end.

(** An open stream goes with the configuration it was opened for: the
    sizes derived from it are in place and [max_delay] is the one
    computed from it. *)
Definition device_consistent (w : World) : Prop :=
  match stream (self w) with
  | None => True
  | Some st =>
      exists cfg,
        audio_cfg (self w) = Some cfg /\
        st = mkStream (channels cfg) (rate cfg) (format_of cfg)
                      (buffer_size (self w)) (device_index (self w)) /\
        frame_size (self w) = Some (frame_size_of cfg) /\
        frame_size_of cfg <> 0 /\
        chunk_frames (self w) =
          Some (inject_Z (chunk_size cfg) / inject_Z (frame_size_of cfg))%Q /\
        max_delay (locals w) =
          (0.2 + sink_latency (self w)
           + inject_Z (latency_msec cfg) / 1000)%Q
  end.

(** The device, its configuration and what is derived from them are the
    same in [w] and [w']. *)
Definition keeps_device (w w' : World) : Prop :=
  stream (self w') = stream (self w) /\
  audio_cfg (self w') = audio_cfg (self w) /\
  frame_size (self w') = frame_size (self w) /\
  chunk_frames (self w') = chunk_frames (self w) /\
  buffer_size (self w') = buffer_size (self w) /\
  device_index (self w') = device_index (self w) /\
  sink_latency (self w') = sink_latency (self w) /\
  max_delay (locals w') = max_delay (locals w).

(** The exceptions the loop can end with. *)
Definition loop_exn (e : Exn) : Prop := e = ZeroDivisionError \/ e = IOError.

Definition zero_division (e : Exn) : Prop := e = ZeroDivisionError.

(** Every effect logged from [w] to [w'] satisfies [P]. *)
Definition effects_satisfy (P : Effect -> Prop) (w w' : World) : Prop :=
  exists l, trace w' = trace w ++ l /\ Forall P l.

(** The device is as it was and the chunk count and the summed delay have
    not moved. *)
Definition steady (w w' : World) : Prop :=
  keeps_device w w' /\
  cnt (locals w') = cnt (locals w) /\
  stat_total_delay (self w') = stat_total_delay (self w) /\
  tolerance (self w') = tolerance (self w).

(** The device has not been polled and no output delay was counted. *)
Definition unpolled (w w' : World) : Prop :=
  n_poll (cursor w') = n_poll (cursor w) /\
  stat_output_delays (self w') = stat_output_delays (self w).

Definition both (R1 R2 : World -> World -> Prop) (w w' : World) : Prop :=
  R1 w w' /\ R2 w w'.

(** Not a write. *)
Definition quiet (e : Effect) : Prop := is_write e = false.

(** Not a write, and if a sleep, one of at least a millisecond. *)
Definition paced_quiet (e : Effect) : Prop :=
  match e with
  | Sleep d => (one_msec <= d)%Q
  | StreamWrite _ => False
  | _ => True
  end.

(** A sleep of at least a millisecond, or a write of [chunk], or
    anything that is neither. *)
Definition paced (chunk : list byte) (e : Effect) : Prop :=
  match e with
  | Sleep d => (one_msec <= d)%Q
  | StreamWrite c => c = chunk
  | _ => True
  end.

(** No exception at all. *)
Definition never (e : Exn) : Prop := False.

(** The chunk count and the summed delay have not moved. *)
Definition uncounted (w w' : World) : Prop :=
  cnt (locals w') = cnt (locals w) /\
  stat_total_delay (self w') = stat_total_delay (self w).

(** What the timing decision and the status line leave alone. *)
Definition R_timing : World -> World -> Prop :=
  both steady (both unpolled (effects_satisfy paced_quiet)).

(** What the empty-queue path and a loss notice leave alone. *)
Definition R_idle : World -> World -> Prop :=
  both steady (both unpolled (effects_satisfy quiet)).

(** What a configuration change leaves alone. *)
Definition R_cfg : World -> World -> Prop :=
  both uncounted (both unpolled (effects_satisfy quiet)).

(** What the handling of a popped chunk leaves alone. *)
Definition R_write (chunk : list byte) : World -> World -> Prop :=
  both steady (effects_satisfy (paced chunk)).

(** Lines 170-180: the world once a popped chunk has been accounted
    for (the clock read, the delay summed, the chunk counted). *)
Definition account (env : Env) (mark : Q) (rest : list Command) (w : World)
  : World :=
  let w0 := with_queue (set_chunk_list rest) w in
  let delay := chunk_delay env mark w in
  with_locals (fun f => set_cnt (cnt f + 1) f)
    (with_locals (fun f => set_recent (recent f + 1) f)
       (with_self
          (fun p => set_stat_total_delay (stat_total_delay p + delay)%Q p)
          (with_cursor tick_utcnow w0))).

(** Lines 182-268: what follows the accounting. *)
Definition audio_tail (env : Env) (chunk : list byte) (delay : Q) : M unit :=
  (go <- timing env delay ;;
   if go : bool then write_and_report env chunk delay else ret tt)%player.

(** Does this pass pop an audio chunk while the device is open? *)
Definition plays (w : World) : bool :=
  match chunk_list (chunk_queue w), stream (self w) with
  | CMD_AUDIO _ _ :: _, Some _ => true
  | _, _ => false
  end.

(** The delay of the chunk at the head of the queue, if there is one. *)
Definition head_delay (env : Env) (w : World) : Q :=
  match chunk_list (chunk_queue w) with
  | CMD_AUDIO mark _ :: _ => chunk_delay env mark w
  | _ => 0%Q
  end.

(** The payload at the head of the queue, if there is one. *)
Definition head_payload (w : World) : list (list byte) :=
  match chunk_list (chunk_queue w) with
  | CMD_AUDIO _ chunk :: _ => [chunk]
  | _ => []
  end.

(** The world with [latency], [silence_cache] and [silence_to_insert]
    blanked. *)
Definition blank (w : World) : World :=
  with_self
    (fun p =>
       mkChunkPlayer (receiver p) (tolerance p) (sink_latency p) 0%Q
         (audio_cfg p) (buffer_size p) (device_index p) (stream p) None 0
         (stat_time_drops p) (stat_output_delays p) (stat_total_delay p)
         (pyaudio p) (frame_size p) (chunk_frames p))
    w.

Definition blank_outcome {A} (o : Outcome A) : Outcome A :=
  match o with
  | Return a w => Return a (blank w)
  | Raise e w => Raise e (blank w)
  end.

(** [m] neither reads the three attributes nor lets them influence
    anything else. *)
Definition blind {A} (m : M A) : Prop :=
  forall w, blank_outcome (m (blank w)) = blank_outcome (m w).

(** [l1] is [l2] with some elements left out. *)
Inductive subseq {A : Type} : list A -> list A -> Prop :=
| subseq_nil : subseq [] []
| subseq_skip (x : A) (l1 l2 : list A) : subseq l1 l2 -> subseq l1 (x :: l2)
| subseq_take (x : A) (l1 l2 : list A) :
    subseq l1 l2 -> subseq (x :: l1) (x :: l2).

(** What the producer appends during the suspensions [k], ..., [k+n-1]. *)
Definition delivered (env : Env) (k n : nat) : list Command :=
  concat (map (env_producer env) (seq k n)).

(** The audio payloads queued in [w'] are among those queued in [w] and
    those delivered since, in the same order. *)
Definition queue_in_order (env : Env) (w w' : World) : Prop :=
  (n_yield (cursor w) <= n_yield (cursor w'))%nat /\
  subseq (audio_payloads (chunk_list (chunk_queue w')))
         (audio_payloads
            (chunk_list (chunk_queue w)
             ++ delivered env (n_yield (cursor w))
                          (n_yield (cursor w') - n_yield (cursor w)))).

(** What was written from [w] to [w'], followed by what is queued in
    [w'], is among what was queued in [w] and delivered since, in the
    same order. *)
Definition played_in_order (env : Env) (w w' : World) : Prop :=
  exists l,
    trace w' = trace w ++ l /\
    (n_yield (cursor w) <= n_yield (cursor w'))%nat /\
    subseq (writes l ++ audio_payloads (chunk_list (chunk_queue w')))
           (audio_payloads
              (chunk_list (chunk_queue w)
               ++ delivered env (n_yield (cursor w))
                            (n_yield (cursor w') - n_yield (cursor w)))).

(** ** Further sample inputs *)

(** A device that refuses to open. *)
Definition env_refuse : Env :=
  mkEnv (fun _ => 5%Q) (fun _ => 0%Q) (fun _ => 0.5%Q) (fun _ => 2048)
        (fun _ => false) (fun _ => []) (fun _ => mkReceiver 0%Q 0).

(** A device that has no room at the first [k] polls and 2048 frames
    free afterwards. *)
Definition env_slow (k : nat) : Env :=
  mkEnv (fun _ => 5%Q) (fun _ => 0%Q) (fun _ => 0.5%Q)
        (fun i => if (i <? k)%nat then 0 else 2048)
        (fun _ => true) (fun _ => []) (fun _ => mkReceiver 0%Q 0).

(** A receiver that queues one chunk at every suspension, marked with
    the number of the suspension. *)
Definition env_feed : Env :=
  mkEnv (fun _ => 5%Q) (fun _ => 0%Q) (fun _ => 0.5%Q) (fun _ => 2048)
        (fun _ => true)
        (fun k => [CMD_AUDIO (inject_Z (Z.of_nat k)) chunk4])
        (fun _ => mkReceiver 0%Q 0).

(** A configuration without channels. *)
Definition cfg_mute : AudioCfg := mkAudioCfg 16 0 44100 4096 100.

(** [world_playing] for a player constructed with a tolerance of zero. *)
Definition world_strict (cfg : AudioCfg) (q : list Command) : World :=
  mkWorld
    (mkChunkPlayer None 0%Q 0.1%Q 0%Q (Some cfg) 1024 None
       (Some (mkStream (channels cfg) (rate cfg) (format_of cfg) 1024 None))
       None 0 0 0 0%Q true (Some (frame_size_of cfg))
       (Some (inject_Z (chunk_size cfg) / inject_Z (frame_size_of cfg))%Q))
    (mkChunkQueue q true 1)
    (mkFrame 0 0%Q 0
       (0.2 + 0.1 + inject_Z (latency_msec cfg) / 1000)%Q)
    [] (mkCursor 1 0 0 0 1 0).

(** [world_playing] for a player constructed with tolerance [tol], no
    chunk counted yet. *)
Definition world_tolerance (tol : Q) (cfg : AudioCfg) (q : list Command)
  : World :=
  mkWorld
    (mkChunkPlayer None tol 0.1%Q 0%Q (Some cfg) 1024 None
       (Some (mkStream (channels cfg) (rate cfg) (format_of cfg) 1024 None))
       None 0 0 0 0%Q true (Some (frame_size_of cfg))
       (Some (inject_Z (chunk_size cfg) / inject_Z (frame_size_of cfg))%Q))
    (mkChunkQueue q true 1)
    (mkFrame 0 0%Q 0
       (0.2 + 0.1 + inject_Z (latency_msec cfg) / 1000)%Q)
    [] (mkCursor 1 0 0 0 1 0).

(** A receiver that queues a single chunk, marked [mark], at the first
    suspension; the clocks and the device are those of [env_ready]. *)
Definition env_one_chunk (mark : Q) : Env :=
  mkEnv (fun _ => 5%Q) (fun _ => 0%Q) (fun _ => 0.5%Q) (fun _ => 2048)
        (fun _ => true)
        (fun k => match k with
                  | O => [CMD_AUDIO mark chunk4]
                  | S _ => []
                  end)
        (fun _ => mkReceiver 0%Q 0).

(** A new player with sink latency 0.1 and tolerance [tol], started with
    [cfg_cd] queued. *)
Definition world_new (tol : Q) : World :=
  world_start (__init__ None tol 0.1%Q 0%Q 1024 None) [CMD_CFG cfg_cd].

(** * Properties *)

(** ** Comparisons *)

Lemma Qltb_lt (x y : Q) : Qltb x y = true <-> (x < y)%Q.
Proof.
  unfold Qltb. rewrite negb_true_iff. split; intro H.
  - apply Qnot_le_lt. intro Hle. apply Qle_bool_iff in Hle. congruence.
  - destruct (Qle_bool y x) eqn:E; [|reflexivity].
    apply Qle_bool_iff in E. exfalso. apply (Qlt_not_le _ _ H E).
Qed.

Lemma Qltb_ge (x y : Q) : Qltb x y = false <-> (y <= x)%Q.
Proof.
  unfold Qltb. rewrite negb_false_iff. apply Qle_bool_iff.
Qed.

Lemma Qeq_bool_false (x y : Q) : ~ (x == y)%Q -> Qeq_bool x y = false.
Proof.
  intro H. destruct (Qeq_bool x y) eqn:E; [|reflexivity].
  apply Qeq_bool_iff in E. contradiction.
Qed.

Lemma pymax_max (a b : Q) : (pymax a b == Qminmax.Qmax a b)%Q.
Proof.
  unfold pymax. destruct (Qltb a b) eqn:E.
  - apply Qltb_lt in E. symmetry. apply Qminmax.Q.max_r. lra.
  - apply Qltb_ge in E. symmetry. apply Qminmax.Q.max_l. exact E.
Qed.

(** ** Recovery: [clear_state] *)

Lemma scan_cfg_none (l : list Command) :
  scan_cfg l = None <-> forall c, ~ In (CMD_CFG c) l.
Proof.
  induction l as [|[c|n|m ch] l IH]; simpl.
  - split; [intros _ c []|reflexivity].
  - split; [discriminate|]. intro H. exfalso. apply (H c). now left.
  - rewrite IH. split; intros H c.
    + intros [Hc|Hc]; [discriminate|]. exact (H c Hc).
    + intro Hc. apply (H c). now right.
  - rewrite IH. split; intros H c.
    + intros [Hc|Hc]; [discriminate|]. exact (H c Hc).
    + intro Hc. apply (H c). now right.
Qed.

Lemma scan_cfg_some (l : list Command) (c : AudioCfg) :
  scan_cfg l = Some c <->
  exists before after,
    l = before ++ CMD_CFG c :: after /\ forall c', ~ In (CMD_CFG c') before.
Proof.
  induction l as [|x l IH].
  - simpl. split; [discriminate|].
    intros (b & a & H & _). destruct b; discriminate.
  - split.
    + intro H. destruct x as [c0|n|m ch]; simpl in H.
      * injection H as ->. exists [], l. split; [reflexivity|]. intros c' [].
      * apply IH in H. destruct H as (b & a & -> & Hb).
        exists (CMD_DROPS n :: b), a. split; [reflexivity|].
        intros c' [Hc|Hc]; [discriminate|]. exact (Hb c' Hc).
      * apply IH in H. destruct H as (b & a & -> & Hb).
        exists (CMD_AUDIO m ch :: b), a. split; [reflexivity|].
        intros c' [Hc|Hc]; [discriminate|]. exact (Hb c' Hc).
    + intros (b & a & H & Hb). destruct b as [|y b]; simpl in H.
      * injection H as -> _. reflexivity.
      * injection H as -> H.
        assert (Hs : scan_cfg l = Some c).
        { apply IH. exists b, a. split; [exact H|].
          intros c' Hc. apply (Hb c'). now right. }
        destruct y as [c0|n|m ch]; simpl; try exact Hs.
        exfalso. apply (Hb c0). now left.
Qed.

Lemma clear_state_chunk_list (w : World) :
  chunk_list (chunk_queue (clear_state w)) =
  match scan_cfg (chunk_list (chunk_queue w)) with
  | Some c => [CMD_CFG c]
  | None => []
  end.
Proof.
  unfold clear_state. simpl.
  destruct (scan_cfg (chunk_list (chunk_queue w))); reflexivity.
Qed.

Lemma clear_state_silence (w : World) :
  silence_to_insert (self (clear_state w)) = 0.
Proof. reflexivity. Qed.

Lemma clear_state_recovery_requests (w : World) :
  recovery_requests (chunk_queue (clear_state w)) =
  S (recovery_requests (chunk_queue w)).
Proof. reflexivity. Qed.

Lemma clear_state_trace (w : World) :
  trace (clear_state w) = trace w ++ [DoRecovery].
Proof. reflexivity. Qed.

(** What [clear_state] leaves, for any queue: at most one command; if a
    [CMD_CFG] was pending, the one nearest the front of the queue is the
    sole entry left, otherwise the queue is empty; and
    [silence_to_insert] is 0. *)
Theorem clear_state_keeps_first_cfg (w : World) :
  let q := chunk_list (chunk_queue w) in
  let q' := chunk_list (chunk_queue (clear_state w)) in
  (length q' <= 1)%nat /\
  (forall c, In (CMD_CFG c) q ->
     exists c0 before after,
       q = before ++ CMD_CFG c0 :: after /\
       (forall c', ~ In (CMD_CFG c') before) /\
       q' = [CMD_CFG c0]) /\
  ((forall c, ~ In (CMD_CFG c) q) -> q' = []) /\
  silence_to_insert (self (clear_state w)) = 0.
Proof.
  cbv zeta. rewrite clear_state_chunk_list, clear_state_silence.
  destruct (scan_cfg (chunk_list (chunk_queue w))) as [c0|] eqn:E.
  - repeat split.
    + simpl. lia.
    + intros _ _. apply scan_cfg_some in E. destruct E as (b & a & E & Hb).
      exists c0, b, a. repeat split; assumption.
    + intro H. apply scan_cfg_none in H. congruence.
  - repeat split.
    + simpl. lia.
    + intros c Hc. exfalso.
      apply (proj1 (scan_cfg_none _) E c Hc).
Qed.

(** C1 at a failing input: with two configurations pending, [cfg_hd]
    being the most recent, recovery leaves the older [cfg_cd] and
    discards [cfg_hd], although the scan is meant to preserve
    configuration commands.  Met in the loop behind a loss notice of 201
    packets, the queue is left as [[CMD_CFG cfg_cd]] and the player then
    configures itself for [cfg_cd]. *)
Theorem clear_state_drops_newer_cfg :
  let q := [CMD_CFG cfg_cd; CMD_AUDIO 1%Q chunk4; CMD_CFG cfg_hd] in
  let w := world_init (CMD_DROPS 201 :: q) in
  most_recent_cfg q = Some cfg_hd /\
  chunk_list (chunk_queue (clear_state (world_init q))) = [CMD_CFG cfg_cd] /\
  ~ In (CMD_CFG cfg_hd)
       (chunk_list (chunk_queue (clear_state (world_init q)))) /\
  silence_to_insert (self (clear_state (world_init q))) = 0 /\
  chunk_list (chunk_queue (final (iteration env_ready w))) =
    [CMD_CFG cfg_cd] /\
  audio_cfg (self (final (chunk_player_loop env_ready 2 w))) = Some cfg_cd.
Proof.
  cbv zeta. split; [reflexivity|]. split; [reflexivity|].
  split; [intros [H|[]]; discriminate H|]. split; [reflexivity|].
  split; vm_compute; reflexivity.
Qed.

(** ** Reasoning about every outcome of a computation *)

Section Always.

Variable R : World -> World -> Prop.
Variable E : Exn -> Prop.
Hypothesis R_refl : forall w, R w w.
Hypothesis R_trans : forall a b c, R a b -> R b c -> R a c.

Lemma always_ret {A} (a : A) : always R E (ret a).
Proof. intro w. apply R_refl. Qed.

Lemma always_gets {A} (f : World -> A) : always R E (gets f).
Proof. intro w. apply R_refl. Qed.

Lemma always_raise {A} (e : Exn) : E e -> always R E (@raise A e).
Proof. intros He w. split; [apply R_refl|exact He]. Qed.

Lemma always_modify (f : World -> World) :
  (forall w, R w (f w)) -> always R E (modify f).
Proof. intros H w. apply H. Qed.

Lemma always_bind {A B} (m : M A) (k : A -> M B) :
  always R E m -> (forall a, always R E (k a)) -> always R E (bind m k).
Proof.
  intros Hm Hk w. unfold bind. specialize (Hm w).
  destruct (m w) as [a w1|e w1].
  - specialize (Hk a w1). destruct (k a w1) as [b w2|e w2].
    + eapply R_trans; eassumption.
    + destruct Hk. split; [eapply R_trans; eassumption|assumption].
  - exact Hm.
Qed.

Lemma always_final {A} (m : M A) (w : World) :
  always R E m -> R w (final (m w)).
Proof.
  intro H. specialize (H w). destruct (m w); simpl; tauto.
Qed.

End Always.

Lemma counters_le_refl (w : World) : counters_le w w.
Proof. unfold counters_le. lia. Qed.

Lemma counters_le_trans (a b c : World) :
  counters_le a b -> counters_le b c -> counters_le a c.
Proof. unfold counters_le. lia. Qed.

Lemma trace_grows_refl (w : World) : trace_grows w w.
Proof. exists []. symmetry. apply app_nil_r. Qed.

Lemma trace_grows_trans (a b c : World) :
  trace_grows a b -> trace_grows b c -> trace_grows a c.
Proof.
  intros [l1 H1] [l2 H2]. exists (l1 ++ l2).
  rewrite H2, H1. symmetry. apply app_assoc.
Qed.

Lemma clear_state_self (w : World) :
  self (clear_state w) = set_silence_to_insert 0 (self w).
Proof. reflexivity. Qed.

Lemma clear_state_locals (w : World) : locals (clear_state w) = locals w.
Proof. reflexivity. Qed.

Lemma clear_state_cursor (w : World) : cursor (clear_state w) = cursor w.
Proof. reflexivity. Qed.

(** One step through the syntax of a computation; [tac] settles the
    side conditions on single updates. *)
Ltac always_step refl trans tac :=
  lazymatch goal with
  | |- always _ _ (bind _ _) =>
      apply always_bind; [exact trans | | intro]
  | |- always _ _ (ret _) => apply always_ret; exact refl
  | |- always _ _ (gets _) => apply always_gets; exact refl
  | |- always _ _ (raise _) => apply always_raise; [exact refl | tac]
  | |- always _ _ (modify _) => apply always_modify; intro; tac
  | |- always _ _ (print _) => apply always_modify; intro; tac
  | |- always _ _ (sleep _ _) => apply always_modify; intro; tac
  | |- always _ _ (match ?x with _ => _ end) => destruct x
  end.

Ltac counters_tac :=
  try exact I;
  unfold counters_le, suspend, _close_stream, emit, with_self, with_queue,
    with_locals, with_cursor;
  rewrite ?clear_state_self, ?clear_state_locals;
  simpl;
  rewrite ?clear_state_self, ?clear_state_locals;
  simpl; try lia.

Ltac trace_tac :=
  try exact I;
  unfold trace_grows, suspend, _close_stream, emit, with_self, with_queue,
    with_locals, with_cursor;
  rewrite ?clear_state_trace; simpl;
  rewrite <- ?app_assoc;
  try (eexists; reflexivity);
  try (exists []; symmetry; apply app_nil_r).

(** ** The cumulative counters *)

Ltac counters_step :=
  always_step counters_le_refl counters_le_trans counters_tac.

Section Counters.

Variable env : Env.

Lemma counters_time_now : always counters_le any_exn (time_now env).
Proof. intro w. unfold time_now. counters_tac. Qed.

Lemma counters_utcnow : always counters_le any_exn (utcnow_timestamp env).
Proof. intro w. unfold utcnow_timestamp. counters_tac. Qed.

Lemma counters_random : always counters_le any_exn (random_random env).
Proof. intro w. unfold random_random. counters_tac. Qed.

Lemma counters_poll : always counters_le any_exn (get_write_available env).
Proof. intro w. unfold get_write_available. counters_tac. Qed.

Lemma counters_open (s : Stream) :
  always counters_le any_exn (pyaudio_open env s).
Proof.
  intro w. unfold pyaudio_open.
  destruct (env_open_ok env (n_open (cursor w)));
    [|split; [|exact I]]; counters_tac.
Qed.

Lemma counters_truediv (x y : Q) : always counters_le any_exn (truediv x y).
Proof.
  unfold truediv. destruct (Qeq_bool y 0).
  - apply always_raise; [exact counters_le_refl|exact I].
  - apply always_ret. exact counters_le_refl.
Qed.

Lemma counters_open_stream : always counters_le any_exn (_open_stream env).
Proof.
  unfold _open_stream.
  repeat first [ apply counters_open | apply counters_truediv
               | counters_step ].
Qed.

Lemma counters_write_loop fuel times chunk delay :
  always counters_le any_exn (write_loop env fuel times chunk delay).
Proof.
  revert times. induction fuel as [|fuel IH]; intro times; simpl.
  - counters_step.
  - repeat first [ apply counters_poll | apply IH | counters_step ].
Qed.

Lemma counters_status_line chunk bs :
  always counters_le any_exn (status_line env chunk bs).
Proof.
  unfold status_line.
  repeat first [ apply counters_time_now | apply counters_truediv
               | counters_step ].
Qed.

Lemma counters_timing delay : always counters_le any_exn (timing env delay).
Proof.
  unfold timing.
  repeat first [ apply counters_random | apply counters_truediv
               | counters_step ].
Qed.

Lemma counters_iteration : always counters_le any_exn (iteration env).
Proof.
  unfold iteration, queue_empty, on_cfg, on_drops, on_audio,
    write_and_report.
  repeat first [ apply counters_time_now | apply counters_utcnow
               | apply counters_open_stream | apply counters_timing
               | apply counters_write_loop | apply counters_status_line
               | counters_step ].
Qed.

Lemma counters_loop (n : nat) :
  always counters_le any_exn (chunk_player_loop env n).
Proof.
  induction n as [|n IH]; simpl.
  - counters_step.
  - apply always_bind; [exact counters_le_trans|exact counters_iteration|].
    intros _. exact IH.
Qed.

Lemma queue_empty_resets_window (w : World) :
  chunk_list (chunk_queue w) = [] ->
  recent (locals (final (iteration env w))) = 0 /\
  recent_start (locals (final (iteration env w))) =
    env_time env (n_time (cursor w)).
Proof.
  intro Hq. unfold iteration, bind, gets. rewrite Hq.
  unfold queue_empty, bind, gets, modify, print, sleep, time_now, ret.
  destruct (audio_cfg (self w)) eqn:Hc; simpl; rewrite Hc; simpl;
    split; reflexivity.
Qed.

(** C10: no pass through the loop, however it ends, and no run of any
    number of passes, lowers [stat_time_drops], [stat_output_delays] or
    [cnt]; the window ([recent], [recent_start]) is what gets reset, for
    instance whenever the queue is found empty. *)
Theorem cumulative_counters_monotone (n : nat) (w : World) :
  counters_le w (final (iteration env w)) /\
  counters_le w (final (chunk_player_loop env n w)) /\
  (chunk_list (chunk_queue w) = [] ->
   recent (locals (final (iteration env w))) = 0 /\
   recent_start (locals (final (iteration env w))) =
     env_time env (n_time (cursor w))).
Proof.
  split; [|split].
  - apply always_final with (E := any_exn). exact counters_iteration.
  - apply always_final with (E := any_exn). exact (counters_loop n).
  - apply queue_empty_resets_window.
Qed.

End Counters.

(** ** Running the model symbolically *)

(** Unfold the monad and every field access and update. *)
Ltac run_world :=
  cbv beta iota zeta delta
      [self chunk_queue locals trace cursor
       receiver tolerance sink_latency latency audio_cfg buffer_size
       device_index stream silence_cache silence_to_insert stat_time_drops
       stat_output_delays stat_total_delay pyaudio frame_size chunk_frames
       chunk_list chunk_available recovery_requests
       cnt recent_start recent max_delay
       n_time n_utcnow n_random n_poll n_open n_yield
       snap_q_len snap_bs snap_chunks_per_s snap_net_lat snap_avg_delay
       snap_time_drops snap_net_drops snap_out_delay
       with_self with_queue with_locals with_cursor emit
       set_receiver set_audio_cfg set_stream set_silence_cache
       set_silence_to_insert set_stat_time_drops set_stat_output_delays
       set_stat_total_delay set_pyaudio set_frame_size set_chunk_frames
       set_chunk_list set_chunk_available set_recovery_requests
       set_cnt set_recent_start set_recent set_max_delay
       tick_time tick_utcnow tick_random tick_poll tick_open tick_yield
       suspend _close_stream do_recovery clear_state mid_tolerance
       chunk_delay final returned
       bind ret raise gets modify print sleep truediv
       time_now utcnow_timestamp random_random get_write_available
       pyaudio_open] in *.

(** Split a world into its fields, so that every access computes. *)
Ltac open_world w :=
  destruct w as [[rcv tol sl lat acfg bsz dev strm scache sti drops odel
                    total pa fsz cfr]
                   [q avail recs] [c rstart rc md] tr [nt nu nr np no ny]];
  run_world.

Lemma inject_Z_nonzero (z : Z) : z <> 0 -> Qeq_bool (inject_Z z) 0 = false.
Proof.
  intro H. apply Qeq_bool_false. unfold Qeq. simpl. lia.
Qed.

Lemma frame_size_of_nonzero (cfg : AudioCfg) :
  channels cfg <> 0 -> frame_size_of cfg <> 0.
Proof. unfold frame_size_of. destruct (sample cfg =? 24); lia. Qed.

Lemma Qltb_true_intro (x y : Q) : (x < y)%Q -> Qltb x y = true.
Proof. apply Qltb_lt. Qed.

Lemma Qltb_false_intro (x y : Q) : (y <= x)%Q -> Qltb x y = false.
Proof. apply Qltb_ge. Qed.

Lemma Qeq_bool_nonzero (x : Q) : ~ (x == 0)%Q -> Qeq_bool x 0 = false.
Proof. apply Qeq_bool_false. Qed.

(** ** Configuration changes and loss notices *)

Section Events.

Variable env : Env.

Lemma iteration_cfg (w : World) (item : AudioCfg) (rest : list Command) :
  chunk_list (chunk_queue w) = CMD_CFG item :: rest ->
  env_open_ok env (n_open (cursor w)) = true ->
  channels item <> 0 ->
  exists w',
    iteration env w = Return tt w' /\
    audio_cfg (self w') = Some item /\
    stream (self w') =
      Some (mkStream (channels item) (rate item) (format_of item)
                     (buffer_size (self w)) (device_index (self w))) /\
    frame_size (self w') = Some (frame_size_of item) /\
    chunk_frames (self w') =
      Some (inject_Z (chunk_size item) / inject_Z (frame_size_of item))%Q /\
    max_delay (locals w') =
      (0.2 + sink_latency (self w) + inject_Z (latency_msec item) / 1000)%Q /\
    silence_cache (self w') = silence_cache (self w) /\
    silence_to_insert (self w') = 0 /\
    recovery_requests (chunk_queue w') =
      S (S (recovery_requests (chunk_queue w))).
Proof.
  intros Hq Hopen Hch. open_world w. subst.
  unfold iteration, on_cfg, _open_stream. run_world.
  destruct strm; run_world; rewrite Hopen; run_world;
    rewrite (inject_Z_nonzero _ (frame_size_of_nonzero _ Hch)); run_world;
    (eexists; split; [reflexivity|]); run_world;
    repeat (split; [reflexivity|]); reflexivity.
Qed.

(** C3: a [CMD_DROPS] command carrying more than 200 lost packets runs
    [clear_state] (one more recovery request, [silence_to_insert] back
    at 0, nothing added); one carrying 200 or fewer requests no recovery
    and adds its count to [silence_to_insert]. *)
Theorem loss_notice_threshold (w : World) (n : Z) (rest : list Command) :
  chunk_list (chunk_queue w) = CMD_DROPS n :: rest ->
  (n > 200 ->
     iteration env w =
       Return tt (clear_state (emit (Print (MsgHugeLoss n))
                    (with_queue (set_chunk_list rest) w))) /\
     recovery_requests (chunk_queue (final (iteration env w))) =
       S (recovery_requests (chunk_queue w)) /\
     silence_to_insert (self (final (iteration env w))) = 0) /\
  (n <= 200 ->
     iteration env w =
       Return tt
         (with_self
            (fun p => set_silence_to_insert (silence_to_insert p + n) p)
            (with_queue (set_chunk_list rest) w)) /\
     recovery_requests (chunk_queue (final (iteration env w))) =
       recovery_requests (chunk_queue w) /\
     silence_to_insert (self (final (iteration env w))) =
       silence_to_insert (self w) + n /\
     trace (final (iteration env w)) = trace w /\
     chunk_list (chunk_queue (final (iteration env w))) = rest).
Proof.
  intro Hq. open_world w. subst.
  unfold iteration, on_drops. run_world.
  destruct (n >? 200) eqn:E; run_world; split; intro Hn; try lia;
    repeat (split; [reflexivity|]); reflexivity.
Qed.

(** C7: processing a [CMD_CFG] command whose device opens leaves
    [frame_size] at [3 * channels] for 24-bit samples and [2 * channels]
    otherwise, and [chunk_frames] at [chunk_size / frame_size]; for the
    configuration of scenario A these are 4 and 1024. *)
Theorem frame_size_and_chunk_frames
  (w : World) (item : AudioCfg) (rest : list Command) :
  chunk_list (chunk_queue w) = CMD_CFG item :: rest ->
  env_open_ok env (n_open (cursor w)) = true ->
  channels item <> 0 ->
  exists w' fs cf,
    iteration env w = Return tt w' /\
    frame_size (self w') = Some fs /\
    chunk_frames (self w') = Some cf /\
    (sample item = 24 -> fs = 3 * channels item) /\
    (sample item <> 24 -> fs = 2 * channels item) /\
    cf = (inject_Z (chunk_size item) / inject_Z fs)%Q /\
    (item = cfg_cd -> fs = 4 /\ (cf == 1024)%Q).
Proof.
  intros Hq Hopen Hch.
  destruct (iteration_cfg w item rest Hq Hopen Hch)
    as (w' & Hrun & _ & _ & Hfs & Hcf & _).
  exists w', (frame_size_of item),
    (inject_Z (chunk_size item) / inject_Z (frame_size_of item))%Q.
  repeat (split; [assumption|]).
  unfold frame_size_of. split; [|split; [|split]].
  - intro H. rewrite H. reflexivity.
  - intro H. apply Z.eqb_neq in H. rewrite H. reflexivity.
  - reflexivity.
  - intros ->. split; reflexivity.
Qed.

End Events.

(** ** The log only grows *)

Ltac trace_step :=
  always_step trace_grows_refl trace_grows_trans trace_tac.

Section Trace.

Variable env : Env.

Lemma trace_time_now : always trace_grows any_exn (time_now env).
Proof. intro w. unfold time_now. trace_tac. Qed.

Lemma trace_utcnow : always trace_grows any_exn (utcnow_timestamp env).
Proof. intro w. unfold utcnow_timestamp. trace_tac. Qed.

Lemma trace_random : always trace_grows any_exn (random_random env).
Proof. intro w. unfold random_random. trace_tac. Qed.

Lemma trace_poll : always trace_grows any_exn (get_write_available env).
Proof. intro w. unfold get_write_available. trace_tac. Qed.

Lemma trace_truediv (x y : Q) : always trace_grows any_exn (truediv x y).
Proof.
  unfold truediv. destruct (Qeq_bool y 0).
  - apply always_raise; [exact trace_grows_refl|exact I].
  - apply always_ret. exact trace_grows_refl.
Qed.

Lemma trace_write_loop fuel times chunk delay :
  always trace_grows any_exn (write_loop env fuel times chunk delay).
Proof.
  revert times. induction fuel as [|fuel IH]; intro times; simpl.
  - trace_step.
  - repeat first [ apply trace_poll | apply IH | trace_step ].
Qed.

Lemma trace_status_line chunk bs :
  always trace_grows any_exn (status_line env chunk bs).
Proof.
  unfold status_line.
  repeat first [ apply trace_time_now | apply trace_truediv | trace_step ].
Qed.

(** If [m] logs [e] first, so does [m] followed by anything. *)
Lemma first_effect_bind {A B} (m : M A) (k : A -> M B) (w : World)
      (e : Effect) :
  (exists rest, trace (final (m w)) = trace w ++ e :: rest) ->
  (forall a, always trace_grows any_exn (k a)) ->
  exists rest, trace (final (bind m k w)) = trace w ++ e :: rest.
Proof.
  intros [rest Hm] Hk. unfold bind.
  destruct (m w) as [a w1|x w1]; simpl in *.
  - destruct (always_final trace_grows any_exn (k a) w1 (Hk a)) as [l Hl].
    exists (rest ++ l). rewrite Hl, Hm, <- app_assoc. reflexivity.
  - exists rest. exact Hm.
Qed.

Lemma write_loop_unfold fuel times chunk delay :
  write_loop env (S fuel) times chunk delay =
  bind (get_write_available env)
    (fun buffer_space =>
       bind (gets (fun w => chunk_frames (self w)))
         (fun cf =>
            match cf with
            | None => raise TypeError
            | Some cf =>
                if Qltb (inject_Z buffer_space) cf then
                  bind (modify
                          (with_self
                             (fun p => set_stat_output_delays
                                         (stat_output_delays p + 1) p)))
                    (fun _ =>
                       bind (sleep env (pymax one_msec delay))
                         (fun _ =>
                            if times + 1 >? 100 then
                              bind (print MsgStuck)
                                (fun _ => bind (sleep env 1)
                                            (fun _ => ret buffer_space))
                            else write_loop env fuel (times + 1) chunk delay))
                else
                  bind (modify (emit (StreamWrite chunk)))
                    (fun _ => ret buffer_space)
            end)).
Proof. reflexivity. Qed.

(** The first thing the writer does is poll the device. *)
Lemma write_and_report_polls_first (w : World) chunk delay :
  exists rest,
    trace (final (write_and_report env chunk delay w)) =
    trace w ++
      GetWriteAvailable (env_write_available env (n_poll (cursor w))) :: rest.
Proof.
  unfold write_and_report.
  apply first_effect_bind; [|intro; apply trace_status_line].
  rewrite write_loop_unfold.
  apply first_effect_bind.
  - exists []. reflexivity.
  - intro bs.
    repeat first [ apply trace_write_loop | trace_step ].
Qed.

End Trace.

(** ** The drop policy and the timing of a chunk *)

Lemma Qdiv_by_zero (x m : Q) : (m == 0 -> x / m == 0)%Q.
Proof.
  intro E. rewrite E. unfold Qdiv. change (/ 0)%Q with 0%Q. ring.
Qed.

(** A drop probability above 1 only arises from a positive tolerance. *)
Lemma prob_above_one (m over : Q) : (m < over -> 1 < over / m -> 0 < m)%Q.
Proof.
  intros H1 H2. destruct (Qlt_le_dec 0 m) as [Hm|Hm]; [exact Hm|exfalso].
  destruct (Qeq_dec m 0) as [E|E].
  - rewrite (Qdiv_by_zero over m E) in H2. lra.
  - assert (Hx : (m * (over / m) == over)%Q) by (apply Qmult_div_r; exact E).
    assert (Hneg : (m < 0)%Q) by lra.
    nra.
Qed.

Lemma half_pos (t : Q) : (0 < t -> 0 < t / 2)%Q.
Proof. intro H. unfold Qdiv. change (/ 2)%Q with (1 # 2)%Q. lra. Qed.

Lemma half_nonneg (t : Q) : (0 <= t -> 0 <= t / 2)%Q.
Proof. intro H. unfold Qdiv. change (/ 2)%Q with (1 # 2)%Q. lra. Qed.

Section Timing.

Variable env : Env.

(** C2: the drop policy of lines 185-194, with [mid] half the player's
    tolerance.  A chunk at most [mid] late is never dropped and no random
    number is drawn; when the lateness beyond [mid] exceeds [mid]
    (probability above 1) the chunk is dropped whatever is drawn; in
    between it is dropped exactly when the draw is below [over / mid];
    a drop adds 1 to [stat_time_drops]. *)
Theorem drop_policy (w : World) (delay : Q) :
  let mid := (tolerance (self w) / 2)%Q in
  let over := (- delay - mid)%Q in
  let prob := (over / mid)%Q in
  let draw := env_random env (n_random (cursor w)) in
  let dropped :=
    with_self (fun p => set_stat_time_drops (stat_time_drops p + 1) p)
      (emit (Print (MsgDropChunk
                      (Z.of_nat (length (chunk_list (chunk_queue w))))
                      (delay * 1000)%Q (- tolerance (self w) * 1000)%Q prob))
         (with_cursor tick_random w)) in
  ((- mid <= delay)%Q ->
     exists go w',
       timing env delay w = Return go w' /\
       stat_time_drops (self w') = stat_time_drops (self w) /\
       n_random (cursor w') = n_random (cursor w)) /\
  ((mid < over)%Q -> (1 < prob)%Q -> (draw < 1)%Q ->
     timing env delay w = Return false dropped) /\
  ((0 < over)%Q -> (over <= mid)%Q ->
     ((draw < prob)%Q -> timing env delay w = Return false dropped) /\
     ((prob <= draw)%Q ->
        timing env delay w = Return true (with_cursor tick_random w))) /\
  stat_time_drops (self dropped) = stat_time_drops (self w) + 1.
Proof.
  open_world w. unfold timing. run_world.
  set (m := (tol / 2)%Q) in *.
  split; [|split; [|split]].
  - intro H. rewrite (Qltb_false_intro _ _ H).
    destruct (Qltb md delay); [|destruct (Qltb one_msec delay)];
      eexists; eexists; (split; [reflexivity|]); split; reflexivity.
  - intros H1 H2 H3.
    assert (Hm : (0 < m)%Q) by (eapply prob_above_one; eassumption).
    rewrite Qltb_true_intro by lra.
    rewrite Qeq_bool_nonzero by lra.
    rewrite Qltb_true_intro by lra.
    reflexivity.
  - intros H1 H2.
    rewrite Qltb_true_intro by lra.
    rewrite Qeq_bool_nonzero by lra.
    split; intro H3.
    + rewrite (Qltb_true_intro _ _ H3). reflexivity.
    + rewrite (Qltb_false_intro _ _ H3). reflexivity.
  - reflexivity.
Qed.

(** A chunk that is neither dropped nor too late reaches the writer, in
    a world whose log has grown by the pre-write sleep, if any. *)
Lemma audio_reaches_writer
  (w : World) (mark : Q) (chunk : list byte) (rest : list Command)
  (s : Stream) :
  chunk_list (chunk_queue w) = CMD_AUDIO mark chunk :: rest ->
  stream (self w) = Some s ->
  (0 < tolerance (self w))%Q ->
  let delay := chunk_delay env mark w in
  let draw := env_random env (n_random (cursor w)) in
  ((delay < - mid_tolerance w)%Q ->
   ((- delay - mid_tolerance w) / mid_tolerance w <= draw)%Q) ->
  (delay <= max_delay (locals w))%Q ->
  exists w1,
    iteration env w = write_and_report env chunk delay w1 /\
    trace w1 =
      trace w ++ (if Qltb one_msec delay
                  then [Sleep (pymax one_msec (delay - one_msec))]
                  else []) /\
    n_poll (cursor w1) = n_poll (cursor w) /\
    n_time (cursor w1) = n_time (cursor w) /\
    chunk_frames (self w1) = chunk_frames (self w) /\
    frame_size (self w1) = frame_size (self w) /\
    stat_output_delays (self w1) = stat_output_delays (self w) /\
    stat_time_drops (self w1) = stat_time_drops (self w) /\
    stat_total_delay (self w1) = (stat_total_delay (self w) + delay)%Q /\
    recent (locals w1) = recent (locals w) + 1 /\
    cnt (locals w1) = cnt (locals w) + 1 /\
    recent_start (locals w1) = recent_start (locals w).
Proof.
  intros Hq Hs Htol. open_world w. subst.
  unfold iteration, on_audio, timing. run_world.
  set (m := (tol / 2)%Q) in *.
  set (delay := (mark - sl - env_utcnow env nu)%Q) in *.
  intros Hdrop Hlate.
  assert (Hm : (0 < m)%Q) by (apply half_pos; exact Htol).
  assert (H1ms : (0 < one_msec)%Q) by reflexivity.
  destruct (Qltb delay (- m)) eqn:E1.
  - apply Qltb_lt in E1.
    rewrite Qeq_bool_nonzero by lra.
    rewrite (Qltb_false_intro _ _ (Hdrop E1)).
    rewrite (Qltb_false_intro one_msec delay) by lra.
    eexists. split; [reflexivity|]. run_world.
    rewrite app_nil_r. repeat (split; [reflexivity|]). reflexivity.
  - rewrite (Qltb_false_intro _ _ Hlate).
    destruct (Qltb one_msec delay) eqn:E3.
    + eexists. split; [reflexivity|]. run_world.
      repeat (split; [reflexivity|]). reflexivity.
    + eexists. split; [reflexivity|]. run_world.
      rewrite app_nil_r. repeat (split; [reflexivity|]). reflexivity.
Qed.

(** A chunk further in the future than [max_delay] triggers recovery. *)
Lemma late_chunk_recovers
  (w : World) (mark : Q) (chunk : list byte) (rest : list Command)
  (s : Stream) :
  chunk_list (chunk_queue w) = CMD_AUDIO mark chunk :: rest ->
  stream (self w) = Some s ->
  let delay := chunk_delay env mark w in
  (- mid_tolerance w <= delay)%Q ->
  (max_delay (locals w) < delay)%Q ->
  exists w',
    iteration env w = Return tt w' /\
    recovery_requests (chunk_queue w') =
      S (recovery_requests (chunk_queue w)) /\
    trace w' =
      trace w ++ [Print (MsgHugeRecovery delay (max_delay (locals w)));
                  DoRecovery] /\
    silence_to_insert (self w') = 0 /\
    n_poll (cursor w') = n_poll (cursor w).
Proof.
  intros Hq Hs. open_world w. subst.
  unfold iteration, on_audio, timing. run_world.
  intros H1 H2.
  rewrite (Qltb_false_intro _ _ H1), (Qltb_true_intro _ _ H2).
  eexists. split; [reflexivity|]. run_world.
  rewrite <- app_assoc.
  repeat (split; [reflexivity|]). reflexivity.
Qed.

(** C6 (amended): processing a [CMD_CFG] command whose device opens
    sets [max_delay] to [0.2 + sink_latency + latency_msec / 1000]; with
    a sink latency of 0.1 and 100 ms that is 0.4, and a later chunk (met
    while [max_delay] is still that value, with the device open) whose
    delay is 0.5 triggers [clear_state] and is not written, provided the
    tolerance is not negative. *)
Theorem max_delay_after_cfg
  (w : World) (item : AudioCfg) (rest : list Command) :
  chunk_list (chunk_queue w) = CMD_CFG item :: rest ->
  env_open_ok env (n_open (cursor w)) = true ->
  channels item <> 0 ->
  exists w1,
    iteration env w = Return tt w1 /\
    max_delay (locals w1) =
      (0.2 + sink_latency (self w) + inject_Z (latency_msec item) / 1000)%Q /\
    ((sink_latency (self w) == 0.1)%Q -> latency_msec item = 100 ->
     (max_delay (locals w1) == 0.4)%Q /\
     forall (w2 : World) (mark : Q) (chunk : list byte)
            (rest2 : list Command) (s : Stream),
       max_delay (locals w2) = max_delay (locals w1) ->
       chunk_list (chunk_queue w2) = CMD_AUDIO mark chunk :: rest2 ->
       stream (self w2) = Some s ->
       (0 <= tolerance (self w2))%Q ->
       (chunk_delay env mark w2 == 0.5)%Q ->
       exists w3,
         iteration env w2 = Return tt w3 /\
         recovery_requests (chunk_queue w3) =
           S (recovery_requests (chunk_queue w2)) /\
         silence_to_insert (self w3) = 0 /\
         trace w3 =
           trace w2 ++ [Print (MsgHugeRecovery (chunk_delay env mark w2)
                                               (max_delay (locals w2)));
                        DoRecovery] /\
         n_poll (cursor w3) = n_poll (cursor w2)).
Proof.
  intros Hq Hopen Hch.
  destruct (iteration_cfg env w item rest Hq Hopen Hch)
    as (w1 & Hrun & _ & _ & _ & _ & Hmd & _).
  exists w1. split; [exact Hrun|]. split; [exact Hmd|].
  intros Hsl Hlat.
  assert (H04 : (max_delay (locals w1) == 0.4)%Q).
  { rewrite Hmd, Hsl, Hlat. reflexivity. }
  split; [exact H04|].
  intros w2 mark chunk rest2 s Hsame Hq2 Hs2 Htol Hdelay.
  rewrite <- Hsame in H04.
  destruct (late_chunk_recovers w2 mark chunk rest2 s Hq2 Hs2)
    as (w3 & Hrun3 & Hrec & Htr & Hsil & Hpoll).
  - pose proof (half_nonneg _ Htol) as Hhalf.
    unfold mid_tolerance. rewrite Hdelay. lra.
  - rewrite Hdelay, H04. reflexivity.
  - exists w3. repeat (split; [assumption|]). assumption.
Qed.

(** C9 (amended): with a positive tolerance, a chunk that is neither
    dropped nor too late and whose delay exceeds 1 ms is preceded by
    exactly one sleep, of [max(one_msec, delay - one_msec)], before the
    device is first polled for the write; with a delay of at most 1 ms
    the poll comes first. *)
Theorem prewrite_suspension
  (w : World) (mark : Q) (chunk : list byte) (rest : list Command)
  (s : Stream) :
  chunk_list (chunk_queue w) = CMD_AUDIO mark chunk :: rest ->
  stream (self w) = Some s ->
  (0 < tolerance (self w))%Q ->
  let delay := chunk_delay env mark w in
  let draw := env_random env (n_random (cursor w)) in
  let poll :=
    GetWriteAvailable (env_write_available env (n_poll (cursor w))) in
  let to_wait := pymax one_msec (delay - one_msec)%Q in
  ((delay < - mid_tolerance w)%Q ->
   ((- delay - mid_tolerance w) / mid_tolerance w <= draw)%Q) ->
  (delay <= max_delay (locals w))%Q ->
  ((one_msec < delay)%Q ->
   exists after,
     trace (final (iteration env w)) =
       trace w ++ Sleep to_wait :: poll :: after) /\
  ((delay <= one_msec)%Q ->
   exists after,
     trace (final (iteration env w)) = trace w ++ poll :: after) /\
  (to_wait == Qmax one_msec (delay - one_msec))%Q.
Proof.
  intros Hq Hs Htol delay draw poll to_wait Hdrop Hlate.
  destruct (audio_reaches_writer w mark chunk rest s Hq Hs Htol Hdrop Hlate)
    as (w1 & Hrun & Htr & Hpoll & _).
  fold delay in Hrun, Htr. rewrite Hrun.
  destruct (write_and_report_polls_first env w1 chunk delay) as [after Ha].
  rewrite Ha, Htr, Hpoll.
  split; [|split].
  - intro H. rewrite (Qltb_true_intro _ _ H). exists after.
    rewrite <- app_assoc. reflexivity.
  - intro H. rewrite (Qltb_false_intro _ _ H). exists after.
    rewrite app_nil_r. reflexivity.
  - apply pymax_max.
Qed.

End Timing.

(** ** The status line *)

Lemma Qdiv_nonzero (a b : Q) : (~ a == 0 -> ~ b == 0 -> ~ a / b == 0)%Q.
Proof.
  intros Ha Hb H. apply Ha.
  assert (E : (b * (a / b) == a)%Q) by (apply Qmult_div_r; exact Hb).
  rewrite H in E. rewrite <- E. ring.
Qed.

Lemma inject_Z_neq_0 (z : Z) : z <> 0 -> ~ (inject_Z z == 0)%Q.
Proof. intros H E. unfold Qeq in E. simpl in E. lia. Qed.

Section Status.

Variable env : Env.

(** The status line returns, having only printed, when it is not due or
    when none of its divisions is by zero. *)
Lemma status_line_returns (w : World) (chunk : list byte) (bs : Z) :
  (recent (locals w) <= 200 \/
   exists fs,
     frame_size (self w) = Some fs /\ fs <> 0 /\ chunk <> [] /\
     ~ (env_time env (n_time (cursor w)) == recent_start (locals w))%Q /\
     cnt (locals w) <> 0) ->
  exists w' report,
    status_line env chunk bs w = Return tt w' /\
    trace w' = trace w ++ report /\
    existsb is_write report = false /\
    stat_output_delays (self w') = stat_output_delays (self w) /\
    n_poll (cursor w') = n_poll (cursor w).
Proof.
  open_world w. unfold status_line. run_world.
  intros [H|(fs & Hfs & Hfs0 & Hchunk & Htook & Hcnt)].
  - assert (E : (rc >? 200) = false) by lia. rewrite E.
    exists (mkWorld
              (mkChunkPlayer rcv tol sl lat acfg bsz dev strm scache sti
                             drops odel total pa fsz cfr)
              (mkChunkQueue q avail recs) (mkFrame c rstart rc md) tr
              (mkCursor nt nu nr np no ny)), [].
    split; [reflexivity|]. run_world. rewrite app_nil_r.
    repeat (split; [reflexivity|]). reflexivity.
  - destruct (rc >? 200).
    + subst fsz.
      rewrite (inject_Z_nonzero _ Hfs0).
      rewrite (Qeq_bool_nonzero (env_time env nt - rstart)) by
        (intro E0; apply Htook; lra).
      rewrite (Qeq_bool_nonzero
                 (inject_Z (Z.of_nat (length chunk)) / inject_Z fs)).
      2:{ apply Qdiv_nonzero; apply inject_Z_neq_0; [|exact Hfs0].
          destruct chunk; [contradiction|simpl; lia]. }
      rewrite (inject_Z_nonzero _ Hcnt).
      destruct rcv as [x|];
        [destruct (Qltb 4 (stat_network_latency x));
         [|destruct (Qltb (stat_network_latency x) 0)]|];
        eexists; eexists; (split; [reflexivity|]); run_world;
        rewrite <- ?app_assoc;
        (split; [reflexivity|]); repeat (split; [reflexivity|]);
        reflexivity.
    + eexists; exists []; (split; [reflexivity|]); run_world.
      rewrite app_nil_r. repeat (split; [reflexivity|]). reflexivity.
Qed.

(** C5 (amended): the status line is printed when more than 200 chunks
    have been counted in the window, so on the 201st at the earliest,
    and not before, provided its divisions are defined: the payload is
    not empty, the frame size is not 0, the clock has moved since
    [recent_start] and [cnt] is not 0.  Then the average delay it shows
    is 1000 times [stat_total_delay / cnt]; without a receiver the
    network latency and drops shown are 0; and right after, [recent] is
    0 and [recent_start] is a fresh reading of the clock. *)
Theorem status_snapshot (w : World) (chunk : list byte) (bs fs : Z) :
  (recent (locals w) <= 200 -> status_line env chunk bs w = Return tt w) /\
  (recent (locals w) > 200 ->
   frame_size (self w) = Some fs -> fs <> 0 -> chunk <> [] ->
   ~ (env_time env (n_time (cursor w)) == recent_start (locals w))%Q ->
   cnt (locals w) <> 0 ->
   exists snap warnings w',
     status_line env chunk bs w = Return tt w' /\
     trace w' = trace w ++ Print (MsgStat snap) :: warnings /\
     existsb is_stat warnings = false /\
     snap_avg_delay snap =
       (1000.0 * stat_total_delay (self w) / inject_Z (cnt (locals w)))%Q /\
     (snap_avg_delay snap ==
        1000 * (stat_total_delay (self w) / inject_Z (cnt (locals w))))%Q /\
     (receiver (self w) = None ->
      (snap_net_lat snap == 0)%Q /\ snap_net_drops snap = 0 /\
      warnings = []) /\
     snap_time_drops snap = stat_time_drops (self w) /\
     snap_out_delay snap = stat_output_delays (self w) /\
     recent (locals w') = 0 /\
     recent_start (locals w') = env_time env (S (n_time (cursor w))) /\
     cnt (locals w') = cnt (locals w)).
Proof.
  open_world w. unfold status_line. run_world. split.
  - intro H. assert (E : (rc >? 200) = false) by lia. rewrite E. reflexivity.
  - intros H Hfs Hfs0 Hchunk Htook Hcnt. subst fsz.
    assert (E : (rc >? 200) = true) by lia. rewrite E.
    rewrite (inject_Z_nonzero _ Hfs0).
    rewrite (Qeq_bool_nonzero (env_time env nt - rstart)) by
      (intro E0; apply Htook; lra).
    rewrite (Qeq_bool_nonzero
               (inject_Z (Z.of_nat (length chunk)) / inject_Z fs)).
    2:{ apply Qdiv_nonzero; apply inject_Z_neq_0; [|exact Hfs0].
        destruct chunk; [contradiction|simpl; lia]. }
    rewrite (inject_Z_nonzero _ Hcnt).
    destruct rcv as [x|].
    + destruct (Qltb 4 (stat_network_latency x));
        [|destruct (Qltb (stat_network_latency x) 0)];
        eexists; eexists; eexists; (split; [reflexivity|]); run_world;
        rewrite <- ?app_assoc;
        (split; [reflexivity|]); (split; [reflexivity|]);
        (split; [reflexivity|]); (split; [unfold Qdiv; ring|]);
        (split; [discriminate|]);
        repeat (split; [reflexivity|]); reflexivity.
    + eexists; exists []; eexists; (split; [reflexivity|]); run_world.
      split; [reflexivity|]. split; [reflexivity|]. split; [reflexivity|].
      split; [unfold Qdiv; ring|].
      split; [intros _; repeat split; reflexivity|].
      repeat (split; [reflexivity|]). reflexivity.
Qed.

End Status.

(** C5, as the spec words it, fails: the chunk that brings the window to
    200 is written and no status line is printed; the next one, the
    201st, prints it. *)
Lemma status_every_200_counterexample :
  let w200 := final (iteration env_ready
                       (world_playing cfg_cd [CMD_AUDIO 0.1%Q chunk4]
                                      199 199)) in
  let w201 := final (iteration env_ready
                       (world_playing cfg_cd [CMD_AUDIO 0.1%Q chunk4]
                                      200 200)) in
  recent (locals w200) = 200 /\
  existsb is_write (trace w200) = true /\
  existsb is_stat (trace w200) = false /\
  existsb is_stat (trace w201) = true /\
  recent (locals w201) = 0.
Proof.
  vm_compute. repeat split; reflexivity.
Qed.

(** ** The output writer *)

Section Writer.

Variable env : Env.

Lemma existsb_is_write_stuck_polls (delay : Q) (k n : nat) (tl : list Effect) :
  existsb is_write (stuck_polls env delay k n ++ tl) = existsb is_write tl.
Proof.
  revert k. induction n as [|n IH]; intro k; simpl.
  - reflexivity.
  - apply IH.
Qed.

Lemma stuck_polls_no_write (delay : Q) (k n : nat) :
  existsb is_write (stuck_polls env delay k n) = false.
Proof.
  rewrite <- (app_nil_r (stuck_polls env delay k n)).
  apply existsb_is_write_stuck_polls.
Qed.

(** [n] polls in a row that find less than [chunk_frames] free frames,
    the last of which is the 101st of this chunk. *)
Lemma write_loop_stuck (n : nat) :
  forall (fuel : nat) (times : Z) (w : World) (cf : Q)
         (chunk : list byte) (delay : Q),
    chunk_frames (self w) = Some cf ->
    (forall i, (i < n)%nat ->
       (inject_Z (env_write_available env (n_poll (cursor w) + i)) < cf)%Q) ->
    (1 <= n)%nat -> (n <= fuel)%nat -> times + Z.of_nat n = 101 ->
    exists bs w',
      write_loop env fuel times chunk delay w = Return bs w' /\
      stat_output_delays (self w') = stat_output_delays (self w) + Z.of_nat n /\
      trace w' =
        trace w ++ stuck_polls env delay (n_poll (cursor w)) n
                ++ [Print MsgStuck; Sleep 1] /\
      n_poll (cursor w') = (n_poll (cursor w) + n)%nat /\
      locals w' = locals w /\
      frame_size (self w') = frame_size (self w) /\
      n_time (cursor w') = n_time (cursor w) /\
      stat_time_drops (self w') = stat_time_drops (self w) /\
      silence_to_insert (self w') = silence_to_insert (self w) /\
      recovery_requests (chunk_queue w') = recovery_requests (chunk_queue w).
Proof.
  induction n as [|n IH]; intros fuel times w cf chunk delay Hcf Hpoll Hn
                                 Hfuel Htimes; [lia|].
  destruct fuel as [|fuel]; [lia|].
  rewrite write_loop_unfold.
  pose proof (Hpoll 0%nat ltac:(lia)) as H0. rewrite Nat.add_0_r in H0.
  destruct n as [|n].
  - (* the 101st poll *)
    clear IH. open_world w. subst.
    rewrite (Qltb_true_intro _ _ H0).
    assert (E : (times + 1 >? 100) = true) by lia. rewrite E.
    eexists. eexists. split; [reflexivity|]. run_world.
    rewrite <- !app_assoc. simpl.
    repeat (split; [reflexivity || (f_equal; lia)|]). reflexivity.
  - assert (E : (times + 1 >? 100) = false) by lia.
    set (w1 := suspend env
                 (emit (Sleep (pymax one_msec delay))
                    (with_self
                       (fun p => set_stat_output_delays
                                   (stat_output_delays p + 1) p)
                       (emit (GetWriteAvailable
                                (env_write_available env (n_poll (cursor w))))
                          (with_cursor tick_poll w))))).
    destruct (IH fuel (times + 1) w1 cf chunk delay) as
      (bs & w' & Hrun & Hod & Htr & Hnp & Hloc & Hfs & Hnt & Htd & Hsi & Hrr).
    + subst w1. open_world w. exact Hcf.
    + intros i Hi. specialize (Hpoll (S i) ltac:(lia)).
      subst w1. open_world w.
      rewrite Nat.add_succ_r in Hpoll. exact Hpoll.
    + lia.
    + lia.
    + lia.
    + exists bs, w'. split.
      * rewrite <- Hrun. subst w1. open_world w. subst.
        rewrite (Qltb_true_intro _ _ H0). rewrite E. reflexivity.
      * rewrite Hod, Htr, Hnp, Hloc, Hfs, Hnt, Htd, Hsi, Hrr. subst w1.
        clear Hrun Hod Htr Hnp Hloc Hfs Hnt Htd Hsi Hrr IH.
        open_world w.
        rewrite <- !app_assoc. simpl.
        repeat (split; [first [reflexivity | lia | f_equal; lia]|]).
        reflexivity.
Qed.

(** C4 (amended): when 101 polls in a row find less free space than
    [chunk_frames], the write is given up after the 101st poll (the first
    attempt and 100 retries); [stat_output_delays] has grown by 101, one
    per failed poll; the one-second sleep follows the [STUCK] line; the
    chunk is not written; and the iteration returns normally, the status
    line being either not due or free of divisions by zero. *)
Theorem stuck_output_abandons_write
  (w : World) (mark : Q) (chunk : list byte) (rest : list Command)
  (s : Stream) (cf : Q) :
  chunk_list (chunk_queue w) = CMD_AUDIO mark chunk :: rest ->
  stream (self w) = Some s ->
  chunk_frames (self w) = Some cf ->
  (0 < tolerance (self w))%Q ->
  let delay := chunk_delay env mark w in
  let draw := env_random env (n_random (cursor w)) in
  ((delay < - mid_tolerance w)%Q ->
   ((- delay - mid_tolerance w) / mid_tolerance w <= draw)%Q) ->
  (delay <= max_delay (locals w))%Q ->
  (forall i, (i < 101)%nat ->
     (inject_Z (env_write_available env (n_poll (cursor w) + i)) < cf)%Q) ->
  (recent (locals w) < 200 \/
   exists fs,
     frame_size (self w) = Some fs /\ fs <> 0 /\ chunk <> [] /\
     ~ (env_time env (n_time (cursor w)) == recent_start (locals w))%Q /\
     cnt (locals w) + 1 <> 0) ->
  let effects :=
    (if Qltb one_msec delay
     then [Sleep (pymax one_msec (delay - one_msec))] else [])
    ++ stuck_polls env delay (n_poll (cursor w)) 101
    ++ [Print MsgStuck; Sleep 1] in
  exists w' report,
    iteration env w = Return tt w' /\
    stat_output_delays (self w') = stat_output_delays (self w) + 101 /\
    trace w' = trace w ++ effects ++ report /\
    existsb is_write (effects ++ report) = false /\
    n_poll (cursor w') = (n_poll (cursor w) + 101)%nat.
Proof.
  intros Hq Hs Hcf Htol delay draw Hdrop Hlate Hpoll Hstatus effects.
  destruct (audio_reaches_writer env w mark chunk rest s Hq Hs Htol Hdrop
              Hlate)
    as (w1 & Hrun & Htr & Hnp & Hnt & Hcf1 & Hfs1 & Hod & _ & _ & Hrec
        & Hcnt & Hrs).
  fold delay in Hrun, Htr.
  destruct (write_loop_stuck 101 101 0 w1 cf chunk delay) as
    (bs & w2 & Hloop & Hod2 & Htr2 & Hnp2 & Hloc2 & Hfs2 & Hnt2 & _).
  - rewrite Hcf1. exact Hcf.
  - rewrite Hnp. exact Hpoll.
  - lia.
  - lia.
  - reflexivity.
  - destruct (status_line_returns env w2 chunk bs) as
      (w' & report & Hst & Htr3 & Hnw & Hod3 & Hnp3).
    + rewrite Hloc2, Hrec, Hfs2, Hfs1, Hnt2, Hnt, Hcnt, Hrs.
      destruct Hstatus as [H|H]; [left; lia|right; exact H].
    + exists w', report. split; [|split; [|split; [|split]]].
      * rewrite Hrun. unfold write_and_report, bind. rewrite Hloop.
        exact Hst.
      * rewrite Hod3, Hod2, Hod. reflexivity.
      * rewrite Htr3, Htr2, Htr, Hnp. subst effects.
        rewrite <- !app_assoc. reflexivity.
      * subst effects.
        rewrite !existsb_app, stuck_polls_no_write, Hnw.
        destruct (Qltb one_msec delay); reflexivity.
      * rewrite Hnp3, Hnp2, Hnp. reflexivity.
Qed.

End Writer.

(** ** The silence cache *)

Section Silence.

Variable env : Env.

Lemma get_silent_chunk_cached (w : World) (c : list byte) :
  silence_cache (self w) = Some c -> get_silent_chunk w = Return c w.
Proof.
  intro H. unfold get_silent_chunk, bind, gets. rewrite H. reflexivity.
Qed.

Lemma get_silent_chunk_fresh (w : World) (cfg : AudioCfg) :
  silence_cache (self w) = None ->
  audio_cfg (self w) = Some cfg ->
  get_silent_chunk w =
    Return (repeat x00 (Z.to_nat (chunk_size cfg)))
           (with_self
              (set_silence_cache
                 (Some (repeat x00 (Z.to_nat (chunk_size cfg))))) w).
Proof.
  intros H1 H2. unfold get_silent_chunk, bind, gets. rewrite H1, H2.
  reflexivity.
Qed.

(** Nothing in the handling of [CMD_CFG] touches [silence_cache]. *)
Lemma cfg_keeps_silence_cache
  (w : World) (item : AudioCfg) (rest : list Command) :
  chunk_list (chunk_queue w) = CMD_CFG item :: rest ->
  silence_cache (self (final (iteration env w))) = silence_cache (self w).
Proof.
  intro Hq. open_world w. subst.
  unfold iteration, on_cfg, _open_stream. run_world.
  destruct strm; run_world;
    destruct (env_open_ok env no); run_world; try reflexivity;
    destruct (Qeq_bool (inject_Z (frame_size_of item)) 0); reflexivity.
Qed.

End Silence.

(** ** The fuel of the inner loop is never exhausted *)

Lemma any_world_refl (w : World) : any_world w w.
Proof. exact I. Qed.

Lemma any_world_trans (a b c : World) :
  any_world a b -> any_world b c -> any_world a c.
Proof. intros _ _. exact I. Qed.

Ltac python_tac := first [ exact I | unfold python_exn; discriminate ].

Ltac python_step := always_step any_world_refl any_world_trans python_tac.

Section Fuel.

Variable env : Env.

Lemma python_time_now : always any_world python_exn (time_now env).
Proof. intro w. exact I. Qed.

Lemma python_utcnow : always any_world python_exn (utcnow_timestamp env).
Proof. intro w. exact I. Qed.

Lemma python_random : always any_world python_exn (random_random env).
Proof. intro w. exact I. Qed.

Lemma python_poll : always any_world python_exn (get_write_available env).
Proof. intro w. exact I. Qed.

Lemma python_open (s : Stream) :
  always any_world python_exn (pyaudio_open env s).
Proof.
  intro w. unfold pyaudio_open.
  destruct (env_open_ok env (n_open (cursor w)));
    [exact I|split; [exact I|discriminate]].
Qed.

Lemma python_truediv (x y : Q) : always any_world python_exn (truediv x y).
Proof.
  unfold truediv. destruct (Qeq_bool y 0); python_step.
Qed.

(** The loop is entered with [times <= 100] and leaves as soon as
    [times] exceeds 100: [101 - times] polls always suffice. *)
Lemma write_loop_fuel (fuel : nat) :
  forall (times : Z) (chunk : list byte) (delay : Q),
    times <= 100 -> 101 - times <= Z.of_nat fuel ->
    always any_world python_exn (write_loop env fuel times chunk delay).
Proof.
  induction fuel as [|fuel IH]; intros times chunk delay H1 H2; [lia|].
  rewrite write_loop_unfold.
  apply always_bind; [exact any_world_trans|apply python_poll|].
  intro bs.
  apply always_bind; [exact any_world_trans|python_step|].
  intros [cf|]; [|python_step].
  destruct (Qltb (inject_Z bs) cf); [|repeat python_step].
  do 2 (apply always_bind; [exact any_world_trans|python_step|intros _]).
  destruct (times + 1 >? 100) eqn:E.
  - repeat python_step.
  - apply IH; lia.
Qed.

Lemma python_open_stream : always any_world python_exn (_open_stream env).
Proof.
  unfold _open_stream.
  repeat first [ apply python_open | apply python_truediv | python_step ].
Qed.

Lemma python_status_line chunk bs :
  always any_world python_exn (status_line env chunk bs).
Proof.
  unfold status_line.
  repeat first [ apply python_time_now | apply python_truediv
               | python_step ].
Qed.

Lemma python_timing delay : always any_world python_exn (timing env delay).
Proof.
  unfold timing.
  repeat first [ apply python_random | apply python_truediv | python_step ].
Qed.

Lemma python_iteration : always any_world python_exn (iteration env).
Proof.
  unfold iteration, queue_empty, on_cfg, on_drops, on_audio,
    write_and_report.
  repeat first [ apply python_time_now | apply python_utcnow
               | apply python_open_stream | apply python_timing
               | apply python_status_line
               | apply write_loop_fuel; lia
               | python_step ].
Qed.

(** Every pass through the loop ends, by returning or by raising one of
    Python's exceptions: the bound on the polls is never what stops it. *)
Lemma iteration_never_out_of_fuel (w : World) :
  forall w', iteration env w <> Raise OutOfFuel w'.
Proof.
  intros w' H. pose proof (python_iteration w) as P. rewrite H in P.
  destruct P as [_ P]. apply P. reflexivity.
Qed.

End Fuel.

(** C4, as the spec words it, fails: with a device that never has room,
    [stat_output_delays] ends at 101, not 100; the chunk is not
    written. *)
Lemma stuck_output_delays_counterexample :
  let w := world_playing cfg_cd [CMD_AUDIO 0.1%Q chunk4] 0 0 in
  let w' := final (iteration env_stuck w) in
  stat_output_delays (self w) = 0 /\
  n_poll (cursor w') = (n_poll (cursor w) + 101)%nat /\
  stat_output_delays (self w') = 101 /\
  stat_output_delays (self w') <> stat_output_delays (self w) + 100 /\
  existsb is_write (trace w') = false.
Proof.
  vm_compute. repeat split; try reflexivity. discriminate.
Qed.

(** * Further properties of the player *)

(** ** How a pass through the loop fails *)

Lemma Qeq_bool_zero (x : Q) : (x == 0)%Q -> Qeq_bool x 0 = true.
Proof. apply Qeq_bool_iff. Qed.

Section Failures.

Variable env : Env.

(** X1.  When the device refuses to open, the pass ends with [IOError]: the new
    configuration is already recorded, the stream that was open has been
    closed, and no stream is left; the derived sizes and [max_delay] are
    those of before. *)
Theorem open_failure_leaves_no_device
  (w : World) (item : AudioCfg) (rest : list Command) :
  chunk_list (chunk_queue w) = CMD_CFG item :: rest ->
  env_open_ok env (n_open (cursor w)) = false ->
  exists w',
    iteration env w = Raise IOError w' /\
    stream (self w') = None /\
    audio_cfg (self w') = Some item /\
    frame_size (self w') = frame_size (self w) /\
    chunk_frames (self w') = chunk_frames (self w) /\
    max_delay (locals w') = max_delay (locals w) /\
    trace w' =
      trace w ++ [Print MsgNewConfiguration; DoRecovery]
              ++ match stream (self w) with
                 | Some _ => [StreamStop; StreamClose; PyAudioTerminate]
                 | None => []
                 end
              ++ [PyAudioInit; DoRecovery].
Proof.
  intros Hq Hopen. open_world w. subst.
  unfold iteration, on_cfg, _open_stream. run_world.
  destruct strm; run_world; rewrite Hopen; run_world;
    (eexists; split; [reflexivity|]); run_world;
    rewrite <- ?app_assoc;
    repeat (split; [reflexivity|]); reflexivity.
Qed.

(** X2.  A configuration with no channels makes [_open_stream] divide by
    zero after the device has been opened: the pass ends with
    [ZeroDivisionError], [frame_size] is 0, and the stream just opened is
    neither stored nor closed. *)
Theorem zero_channels_divide_by_zero
  (w : World) (item : AudioCfg) (rest : list Command) :
  chunk_list (chunk_queue w) = CMD_CFG item :: rest ->
  env_open_ok env (n_open (cursor w)) = true ->
  channels item = 0 ->
  let st := mkStream (channels item) (rate item) (format_of item)
                     (buffer_size (self w)) (device_index (self w)) in
  exists w',
    iteration env w = Raise ZeroDivisionError w' /\
    trace w' =
      trace w ++ [Print MsgNewConfiguration; DoRecovery]
              ++ match stream (self w) with
                 | Some _ => [StreamStop; StreamClose; PyAudioTerminate]
                 | None => []
                 end
              ++ [PyAudioInit; DoRecovery; StreamOpen st] /\
    stream (self w') = None /\
    frame_size (self w') = Some 0 /\
    chunk_frames (self w') = chunk_frames (self w) /\
    max_delay (locals w') = max_delay (locals w).
Proof.
  intros Hq Hopen Hch. open_world w. subst.
  assert (Hfs : frame_size_of item = 0).
  { unfold frame_size_of. rewrite Hch.
    destruct (sample item =? 24); reflexivity. }
  unfold iteration, on_cfg, _open_stream. run_world.
  destruct strm; run_world; rewrite Hopen; run_world; rewrite Hfs;
    change (Qeq_bool (inject_Z 0) 0) with true; run_world;
    (eexists; split; [reflexivity|]); run_world;
    rewrite <- ?app_assoc;
    repeat (split; [reflexivity|]); reflexivity.
Qed.

(** X3.  With a tolerance of zero, the first chunk that is late at all ends
    the pass with [ZeroDivisionError] (the drop probability divides by
    half the tolerance): the chunk has been counted, no random number
    has been drawn and the device has not been touched. *)
Theorem zero_tolerance_divides_by_zero
  (w : World) (mark : Q) (chunk : list byte) (rest : list Command)
  (s : Stream) :
  chunk_list (chunk_queue w) = CMD_AUDIO mark chunk :: rest ->
  stream (self w) = Some s ->
  (tolerance (self w) == 0)%Q ->
  (chunk_delay env mark w < 0)%Q ->
  exists w',
    iteration env w = Raise ZeroDivisionError w' /\
    cnt (locals w') = cnt (locals w) + 1 /\
    recent (locals w') = recent (locals w) + 1 /\
    stat_total_delay (self w') =
      (stat_total_delay (self w) + chunk_delay env mark w)%Q /\
    stat_time_drops (self w') = stat_time_drops (self w) /\
    n_random (cursor w') = n_random (cursor w) /\
    n_poll (cursor w') = n_poll (cursor w) /\
    trace w' = trace w.
Proof.
  intros Hq Hs Htol. open_world w. subst.
  unfold iteration, on_audio, timing. run_world.
  intro Hlate.
  assert (Hmid : (tol / 2 == 0)%Q).
  { unfold Qdiv. rewrite Htol. ring. }
  rewrite Qltb_true_intro by (rewrite Hmid; lra).
  rewrite (Qeq_bool_zero _ Hmid).
  eexists. split; [reflexivity|]. run_world.
  repeat (split; [reflexivity|]). reflexivity.
Qed.

End Failures.

(** ** Recovery, once more *)

(** X4.  Recovering twice in a row leaves the queue and the player as
    recovering once does; only the hook is called again. *)
Theorem clear_state_idempotent (w : World) :
  chunk_list (chunk_queue (clear_state (clear_state w))) =
    chunk_list (chunk_queue (clear_state w)) /\
  self (clear_state (clear_state w)) = self (clear_state w) /\
  locals (clear_state (clear_state w)) = locals (clear_state w) /\
  recovery_requests (chunk_queue (clear_state (clear_state w))) =
    S (S (recovery_requests (chunk_queue w))) /\
  (chunk_list (chunk_queue w) = [] ->
   chunk_list (chunk_queue (clear_state w)) = []).
Proof.
  split; [|split; [|split; [|split]]].
  - rewrite (clear_state_chunk_list (clear_state w)).
    rewrite (clear_state_chunk_list w).
    destruct (scan_cfg (chunk_list (chunk_queue w))); reflexivity.
  - rewrite !clear_state_self.
    destruct (self w); reflexivity.
  - rewrite !clear_state_locals. reflexivity.
  - rewrite !clear_state_recovery_requests. reflexivity.
  - intro H. rewrite clear_state_chunk_list, H. reflexivity.
Qed.

Section Reconfiguration.

Variable env : Env.

(** X5.  A configuration change closes the stream that is open before it
    opens the new one, calls the recovery hook twice (once in the loop,
    once in [_open_stream]), and throws away everything queued behind it
    except the first pending configuration: no audio chunk survives. *)
Theorem cfg_reopens_device_and_flushes_queue
  (w : World) (item : AudioCfg) (rest : list Command) :
  chunk_list (chunk_queue w) = CMD_CFG item :: rest ->
  env_open_ok env (n_open (cursor w)) = true ->
  channels item <> 0 ->
  let st := mkStream (channels item) (rate item) (format_of item)
                     (buffer_size (self w)) (device_index (self w)) in
  let md := (0.2 + sink_latency (self w)
             + inject_Z (latency_msec item) / 1000)%Q in
  exists w',
    iteration env w = Return tt w' /\
    trace w' =
      trace w ++ [Print MsgNewConfiguration; DoRecovery]
              ++ match stream (self w) with
                 | Some _ => [StreamStop; StreamClose; PyAudioTerminate]
                 | None => []
                 end
              ++ [PyAudioInit; DoRecovery; StreamOpen st;
                  Print (MsgMaxDelay (md * 1000)%Q)] /\
    chunk_list (chunk_queue w') =
      match scan_cfg rest with Some c => [CMD_CFG c] | None => [] end /\
    audio_payloads (chunk_list (chunk_queue w')) = [] /\
    stream (self w') = Some st.
Proof.
  intros Hq Hopen Hch. open_world w. subst.
  unfold iteration, on_cfg, _open_stream. run_world.
  destruct strm; run_world; rewrite Hopen; run_world;
    rewrite (inject_Z_nonzero _ (frame_size_of_nonzero _ Hch)); run_world;
    (eexists; split; [reflexivity|]); run_world;
    rewrite <- ?app_assoc;
    (split; [reflexivity|]);
    destruct (scan_cfg rest); repeat (split; [reflexivity|]); reflexivity.
Qed.

End Reconfiguration.

(** ** The silent chunk *)

(** X6.  The first call after a configuration returns [chunk_size] zero bytes
    and caches them; a second call returns the same bytes and changes
    nothing.  With neither a cache nor a configuration the call raises
    [TypeError]. *)
Theorem silent_chunk_zero_filled_and_cached (w : World) :
  silence_cache (self w) = None ->
  (forall cfg,
     audio_cfg (self w) = Some cfg ->
     exists c w1,
       get_silent_chunk w = Return c w1 /\
       length c = Z.to_nat (chunk_size cfg) /\
       Forall (fun b => b = x00) c /\
       self w1 = set_silence_cache (Some c) (self w) /\
       chunk_queue w1 = chunk_queue w /\ trace w1 = trace w /\
       get_silent_chunk w1 = Return c w1) /\
  (audio_cfg (self w) = None -> get_silent_chunk w = Raise TypeError w).
Proof.
  intro Hcache. split.
  - intros cfg Hcfg.
    exists (repeat x00 (Z.to_nat (chunk_size cfg))).
    eexists. split; [apply get_silent_chunk_fresh; assumption|].
    split; [apply repeat_length|].
    split; [apply Forall_forall; intros b Hb; apply repeat_spec in Hb;
            exact Hb|].
    split; [reflexivity|]. split; [reflexivity|]. split; [reflexivity|].
    apply get_silent_chunk_cached. reflexivity.
  - intro Hcfg. unfold get_silent_chunk, bind, gets.
    rewrite Hcache, Hcfg. reflexivity.
Qed.

(** ** Relations between the world before and after *)

Lemma effects_satisfy_refl (P : Effect -> Prop) (w : World) :
  effects_satisfy P w w.
Proof. exists []. split; [symmetry; apply app_nil_r|constructor]. Qed.

Lemma effects_satisfy_trans (P : Effect -> Prop) (a b c : World) :
  effects_satisfy P a b -> effects_satisfy P b c -> effects_satisfy P a c.
Proof.
  intros (l1 & H1 & F1) (l2 & H2 & F2). exists (l1 ++ l2). split.
  - rewrite H2, H1. symmetry. apply app_assoc.
  - apply Forall_app. split; assumption.
Qed.

Lemma keeps_device_refl (w : World) : keeps_device w w.
Proof. unfold keeps_device. repeat split. Qed.

Lemma keeps_device_trans (a b c : World) :
  keeps_device a b -> keeps_device b c -> keeps_device a c.
Proof.
  unfold keeps_device.
  intros (A1 & A2 & A3 & A4 & A5 & A6 & A7 & A8)
         (B1 & B2 & B3 & B4 & B5 & B6 & B7 & B8).
  repeat split; congruence.
Qed.

Lemma steady_refl (w : World) : steady w w.
Proof. unfold steady. repeat split; apply keeps_device_refl. Qed.

Lemma steady_trans (a b c : World) : steady a b -> steady b c -> steady a c.
Proof.
  unfold steady. intros (A & A1 & A2 & A3) (B & B1 & B2 & B3).
  split; [eapply keeps_device_trans; eassumption|].
  repeat split; congruence.
Qed.

Lemma unpolled_refl (w : World) : unpolled w w.
Proof. split; reflexivity. Qed.

Lemma unpolled_trans (a b c : World) :
  unpolled a b -> unpolled b c -> unpolled a c.
Proof. unfold unpolled. intros [A1 A2] [B1 B2]. split; congruence. Qed.

Lemma uncounted_refl (w : World) : uncounted w w.
Proof. split; reflexivity. Qed.

Lemma uncounted_trans (a b c : World) :
  uncounted a b -> uncounted b c -> uncounted a c.
Proof. unfold uncounted. intros [A1 A2] [B1 B2]. split; congruence. Qed.

Section Both.

Variables R1 R2 : World -> World -> Prop.
Hypothesis R1_refl : forall w, R1 w w.
Hypothesis R2_refl : forall w, R2 w w.
Hypothesis R1_trans : forall a b c, R1 a b -> R1 b c -> R1 a c.
Hypothesis R2_trans : forall a b c, R2 a b -> R2 b c -> R2 a c.

Lemma both_refl (w : World) : both R1 R2 w w.
Proof. split; [apply R1_refl|apply R2_refl]. Qed.

Lemma both_trans (a b c : World) :
  both R1 R2 a b -> both R1 R2 b c -> both R1 R2 a c.
Proof.
  intros [A1 A2] [B1 B2].
  split; [eapply R1_trans|eapply R2_trans]; eassumption.
Qed.

End Both.

Lemma R_timing_refl (w : World) : R_timing w w.
Proof.
  apply both_refl; [exact steady_refl|].
  apply both_refl; [exact unpolled_refl|apply effects_satisfy_refl].
Qed.

Lemma R_timing_trans (a b c : World) :
  R_timing a b -> R_timing b c -> R_timing a c.
Proof.
  apply both_trans; [exact steady_trans|].
  apply both_trans; [exact unpolled_trans|apply effects_satisfy_trans].
Qed.

Lemma R_idle_refl (w : World) : R_idle w w.
Proof.
  apply both_refl; [exact steady_refl|].
  apply both_refl; [exact unpolled_refl|apply effects_satisfy_refl].
Qed.

Lemma R_idle_trans (a b c : World) : R_idle a b -> R_idle b c -> R_idle a c.
Proof.
  apply both_trans; [exact steady_trans|].
  apply both_trans; [exact unpolled_trans|apply effects_satisfy_trans].
Qed.

Lemma R_cfg_refl (w : World) : R_cfg w w.
Proof.
  apply both_refl; [exact uncounted_refl|].
  apply both_refl; [exact unpolled_refl|apply effects_satisfy_refl].
Qed.

Lemma R_cfg_trans (a b c : World) : R_cfg a b -> R_cfg b c -> R_cfg a c.
Proof.
  apply both_trans; [exact uncounted_trans|].
  apply both_trans; [exact unpolled_trans|apply effects_satisfy_trans].
Qed.

Lemma R_write_refl (chunk : list byte) (w : World) : R_write chunk w w.
Proof. apply both_refl; [exact steady_refl|apply effects_satisfy_refl]. Qed.

Lemma R_write_trans (chunk : list byte) (a b c : World) :
  R_write chunk a b -> R_write chunk b c -> R_write chunk a c.
Proof. apply both_trans; [exact steady_trans|apply effects_satisfy_trans]. Qed.

Lemma pymax_at_least (a b : Q) : (a <= pymax a b)%Q.
Proof.
  unfold pymax. destruct (Qltb a b) eqn:E.
  - apply Qltb_lt in E. lra.
  - lra.
Qed.

Lemma one_msec_le_1 : (one_msec <= 1)%Q.
Proof. vm_compute. discriminate. Qed.

Lemma writes_app (l1 l2 : list Effect) :
  writes (l1 ++ l2) = writes l1 ++ writes l2.
Proof.
  induction l1 as [|e l1 IH]; [reflexivity|].
  destruct e; simpl; rewrite ?IH; reflexivity.
Qed.

Lemma quiet_no_writes (l : list Effect) : Forall quiet l -> writes l = [].
Proof.
  induction 1 as [|e l He _ IH]; [reflexivity|].
  destruct e; simpl; try exact IH. discriminate He.
Qed.

Lemma paced_quiet_no_writes (l : list Effect) :
  Forall paced_quiet l -> writes l = [].
Proof.
  induction 1 as [|e l He _ IH]; [reflexivity|].
  destruct e; simpl; try exact IH. contradiction.
Qed.

Lemma paced_quiet_paced (chunk : list byte) (l : list Effect) :
  Forall paced_quiet l -> Forall (paced chunk) l.
Proof.
  apply Forall_impl. intros [ ] H; simpl in *; try exact H. contradiction.
Qed.

(** Settle one relation between a world and an update of it. *)
Ltac steady_tac :=
  unfold steady, keeps_device, suspend, _close_stream, emit, with_self,
    with_queue, with_locals, with_cursor;
  rewrite ?clear_state_self, ?clear_state_locals; simpl;
  rewrite ?clear_state_self, ?clear_state_locals; simpl;
  repeat split; reflexivity.

Ltac unpolled_tac :=
  unfold unpolled, suspend, _close_stream, emit, with_self,
    with_queue, with_locals, with_cursor;
  rewrite ?clear_state_self, ?clear_state_cursor; simpl;
  rewrite ?clear_state_self, ?clear_state_cursor; simpl;
  split; reflexivity.

Ltac uncounted_tac :=
  unfold uncounted, suspend, _close_stream, emit, with_self,
    with_queue, with_locals, with_cursor;
  rewrite ?clear_state_self, ?clear_state_locals; simpl;
  rewrite ?clear_state_self, ?clear_state_locals; simpl;
  split; reflexivity.

Ltac effect_ok :=
  first [ exact I | reflexivity | apply pymax_at_least | exact one_msec_le_1 ].

Ltac effects_tac :=
  unfold effects_satisfy, suspend, _close_stream, emit, with_self,
    with_queue, with_locals, with_cursor;
  rewrite ?clear_state_trace; simpl; rewrite <- ?app_assoc;
  first [ exists []; split; [symmetry; apply app_nil_r|constructor]
        | eexists; split; [reflexivity|]; simpl;
          repeat (constructor; [effect_ok|]); constructor ].

Ltac exn_tac :=
  first [ exact I | reflexivity | left; reflexivity | right; reflexivity ].

(** The oracles and the divisions. *)
Ltac always_prim tac :=
  lazymatch goal with
  | |- always _ _ (time_now _) => intro; unfold time_now; tac
  | |- always _ _ (utcnow_timestamp _) => intro; unfold utcnow_timestamp; tac
  | |- always _ _ (random_random _) => intro; unfold random_random; tac
  | |- always _ _ (get_write_available _) =>
      intro; unfold get_write_available; tac
  | |- always _ _ (pyaudio_open _ _) =>
      let w := fresh "w" in
      intro w; unfold pyaudio_open;
      destruct (env_open_ok _ (n_open (cursor w))); [tac|split; tac]
  | |- always _ _ (truediv _ _) => unfold truediv; destruct (Qeq_bool _ _)
  end.

Ltac always_walk refl trans tac :=
  repeat first [ always_prim tac | always_step refl trans tac ].

Ltac timing_tac :=
  first [ exn_tac
        | split; [steady_tac|split; [unpolled_tac|effects_tac]] ].

Ltac cfg_tac :=
  first [ exn_tac
        | split; [uncounted_tac|split; [unpolled_tac|effects_tac]] ].

Ltac write_tac :=
  first [ exn_tac | split; [steady_tac|effects_tac] ].

Section Posts.

Variable env : Env.

Lemma timing_post delay : always R_timing zero_division (timing env delay).
Proof.
  unfold timing. always_walk R_timing_refl R_timing_trans timing_tac.
Qed.

Lemma status_line_post chunk bs :
  always R_timing any_exn (status_line env chunk bs).
Proof.
  unfold status_line. always_walk R_timing_refl R_timing_trans timing_tac.
Qed.

Lemma queue_empty_post : always R_idle never (queue_empty env).
Proof.
  unfold queue_empty. always_walk R_idle_refl R_idle_trans timing_tac.
Qed.

Lemma on_drops_post item : always R_idle never (on_drops item).
Proof.
  unfold on_drops. always_walk R_idle_refl R_idle_trans timing_tac.
Qed.

Lemma open_stream_post : always R_cfg any_exn (_open_stream env).
Proof.
  unfold _open_stream. always_walk R_cfg_refl R_cfg_trans cfg_tac.
Qed.

Lemma on_cfg_post item : always R_cfg any_exn (on_cfg env item).
Proof.
  unfold on_cfg.
  repeat first [ apply open_stream_post | always_prim cfg_tac
               | always_step R_cfg_refl R_cfg_trans cfg_tac ].
Qed.

Lemma timing_write chunk delay :
  always (R_write chunk) any_exn (timing env delay).
Proof.
  unfold timing.
  always_walk (R_write_refl chunk) (R_write_trans chunk) write_tac.
Qed.

Lemma status_line_write chunk bs :
  always (R_write chunk) any_exn (status_line env chunk bs).
Proof.
  unfold status_line.
  always_walk (R_write_refl chunk) (R_write_trans chunk) write_tac.
Qed.

Lemma write_loop_write fuel times chunk delay :
  always (R_write chunk) any_exn (write_loop env fuel times chunk delay).
Proof.
  revert times. induction fuel as [|fuel IH]; intro times; simpl.
  - always_walk (R_write_refl chunk) (R_write_trans chunk) write_tac.
  - repeat first [ apply IH | always_prim write_tac
                 | always_step (R_write_refl chunk) (R_write_trans chunk)
                               write_tac ].
Qed.

Lemma audio_tail_write chunk delay :
  always (R_write chunk) any_exn (audio_tail env chunk delay).
Proof.
  unfold audio_tail, write_and_report.
  repeat first [ apply timing_write | apply write_loop_write
               | apply status_line_write
               | always_step (R_write_refl chunk) (R_write_trans chunk)
                             write_tac ].
Qed.

(** A pass that pops a chunk while the device is open accounts for it
    and goes on with the timing decision. *)
Lemma iteration_audio
  (w : World) (mark : Q) (chunk : list byte) (rest : list Command)
  (s : Stream) :
  chunk_list (chunk_queue w) = CMD_AUDIO mark chunk :: rest ->
  stream (self w) = Some s ->
  iteration env w =
    audio_tail env chunk (chunk_delay env mark w) (account env mark rest w).
Proof.
  intros Hq Hs. open_world w. subst.
  unfold iteration, on_audio, audio_tail, account. run_world. reflexivity.
Qed.

End Posts.

(** ** What handling a chunk can do *)

Lemma final_bind {A B} (m : M A) (k : A -> M B) (w : World) :
  final (bind m k w) =
  match m w with
  | Return a w1 => final (k a w1)
  | Raise _ w1 => w1
  end.
Proof. unfold bind. destruct (m w); reflexivity. Qed.

Lemma bind_Return {A B} (m : M A) (k : A -> M B) (w : World) a w1 :
  m w = Return a w1 -> bind m k w = k a w1.
Proof. intro H. unfold bind. rewrite H. reflexivity. Qed.

Lemma bind_Raise {A B} (m : M A) (k : A -> M B) (w : World) e w1 :
  m w = Raise e w1 -> bind m k w = Raise e w1.
Proof. intro H. unfold bind. rewrite H. reflexivity. Qed.

Section Outcomes.

Variable env : Env.

(** The inner loop writes the chunk once or not at all. *)
Lemma write_loop_log (chunk : list byte) (delay : Q) (fuel : nat) :
  forall (times : Z) (w : World),
  exists l,
    trace (final (write_loop env fuel times chunk delay w)) = trace w ++ l /\
    (writes l = [] \/ writes l = [chunk]).
Proof.
  induction fuel as [|fuel IH]; intros times w.
  - exists []. split; [symmetry; apply app_nil_r|left; reflexivity].
  - rewrite write_loop_unfold.
    pose proof
      (IH (times + 1)
          (suspend env
             (emit (Sleep (pymax one_msec delay))
                (with_self
                   (fun p => set_stat_output_delays
                               (stat_output_delays p + 1) p)
                   (emit (GetWriteAvailable
                            (env_write_available env (n_poll (cursor w))))
                      (with_cursor tick_poll w)))))) as (l & Hl & Hw).
    open_world w.
    destruct cfr as [cf|].
    + destruct (Qltb (inject_Z (env_write_available env np)) cf).
      * destruct (times + 1 >? 100).
        -- eexists. rewrite <- !app_assoc. split; [reflexivity|].
           left. reflexivity.
        -- rewrite Hl. rewrite <- !app_assoc. eexists.
           split; [reflexivity|]. exact Hw.
      * eexists. rewrite <- !app_assoc. split; [reflexivity|].
        right. reflexivity.
    + eexists. split; [reflexivity|]. left. reflexivity.
Qed.

(** With [chunk_frames] set the inner loop returns; it polls at most
    [101 - times] times, and every poll either counts an output delay or
    is followed by the write. *)
Lemma write_loop_returns (chunk : list byte) (delay : Q) (fuel : nat) :
  forall (times : Z) (w : World) (cf : Q),
    chunk_frames (self w) = Some cf ->
    times <= 100 -> 101 - times <= Z.of_nat fuel ->
    exists bs w' l,
      write_loop env fuel times chunk delay w = Return bs w' /\
      trace w' = trace w ++ l /\
      Z.of_nat (n_poll (cursor w')) <=
        Z.of_nat (n_poll (cursor w)) + (101 - times) /\
      Z.of_nat (n_poll (cursor w')) - Z.of_nat (n_poll (cursor w)) =
        stat_output_delays (self w') - stat_output_delays (self w)
        + Z.of_nat (length (writes l)).
Proof.
  induction fuel as [|fuel IH]; intros times w cf Hcf Ht Hf; [lia|].
  rewrite write_loop_unfold.
  pose proof
    (IH (times + 1)
        (suspend env
           (emit (Sleep (pymax one_msec delay))
              (with_self
                 (fun p => set_stat_output_delays
                             (stat_output_delays p + 1) p)
                 (emit (GetWriteAvailable
                          (env_write_available env (n_poll (cursor w))))
                    (with_cursor tick_poll w))))) cf) as IHw.
  open_world w. subst cfr.
  destruct (Qltb (inject_Z (env_write_available env np)) cf).
  - destruct (times + 1 >? 100) eqn:E.
    + eexists. eexists. eexists. split; [reflexivity|]. run_world.
      rewrite <- !app_assoc. split; [reflexivity|].
      cbn [writes length app]. lia.
    + destruct (IHw eq_refl ltac:(lia) ltac:(lia))
        as (bs & w' & l & Hrun & Htr & Hb & He).
      rewrite Hrun. exists bs, w'. eexists. split; [reflexivity|].
      rewrite Htr, <- !app_assoc. split; [reflexivity|].
      cbn [writes length app]. lia.
  - eexists. eexists. eexists. split; [reflexivity|]. run_world.
    rewrite <- !app_assoc. split; [reflexivity|].
      cbn [writes length app]. lia.
Qed.

(** With [frame_size] set, the only exception of the status line is a
    division by zero. *)
Lemma status_line_exn (w : World) (chunk : list byte) (bs fs : Z) :
  frame_size (self w) = Some fs ->
  forall e w', status_line env chunk bs w = Raise e w' ->
               e = ZeroDivisionError.
Proof.
  intro Hfs. open_world w. subst fsz. unfold status_line. run_world.
  destruct (rc >? 200); [|discriminate].
  repeat match goal with
         | |- context [if Qeq_bool ?x ?y then _ else _] =>
             destruct (Qeq_bool x y)
         end;
    try (intros e w' H; injection H as <- _; reflexivity).
  destruct rcv as [x|];
    [destruct (Qltb 4 (stat_network_latency x));
     [|destruct (Qltb (stat_network_latency x) 0)]|];
    discriminate.
Qed.


(** Handling a popped chunk writes it once or not at all. *)
Lemma audio_tail_log (w0 : World) (chunk : list byte) (delay : Q) :
  exists l,
    trace (final (audio_tail env chunk delay w0)) = trace w0 ++ l /\
    (writes l = [] \/ writes l = [chunk]).
Proof.
  unfold audio_tail. rewrite final_bind.
  pose proof (timing_post env delay w0) as HT.
  destruct (timing env delay w0) as [go w1|e w1].
  - destruct HT as (_ & _ & l1 & Htr1 & F1).
    apply paced_quiet_no_writes in F1.
    destruct go.
    + unfold write_and_report. rewrite final_bind.
      destruct (write_loop_log chunk delay 101 0 w1) as (l2 & Htr2 & Hw2).
      destruct (write_loop env 101 0 chunk delay w1) as [bs w2|e w2];
        simpl in Htr2.
      * pose proof (status_line_post env chunk bs w2) as HS.
        assert (H3 : R_timing w2 (final (status_line env chunk bs w2))).
        { destruct (status_line env chunk bs w2); simpl; tauto. }
        destruct H3 as (_ & _ & l3 & Htr3 & F3).
        apply paced_quiet_no_writes in F3.
        exists (l1 ++ l2 ++ l3). split.
        -- rewrite Htr3, Htr2, Htr1, <- !app_assoc. reflexivity.
        -- rewrite !writes_app, F1, F3, app_nil_r. exact Hw2.
      * exists (l1 ++ l2). split.
        -- rewrite Htr2, Htr1, <- app_assoc. reflexivity.
        -- rewrite writes_app, F1. exact Hw2.
    + exists l1. split; [exact Htr1|left; exact F1].
  - destruct HT as ((_ & _ & l1 & Htr1 & F1) & _).
    exists l1. split; [exact Htr1|left].
    apply paced_quiet_no_writes. exact F1.
Qed.

(** With the derived sizes in place, handling a popped chunk can only
    fail by a division by zero; it polls at most 101 times, and every
    poll either counts an output delay or is followed by the write. *)
Lemma audio_tail_polls
  (w0 : World) (chunk : list byte) (delay : Q) (cf : Q) (fs : Z) :
  chunk_frames (self w0) = Some cf ->
  frame_size (self w0) = Some fs ->
  (forall e w', audio_tail env chunk delay w0 = Raise e w' ->
                e = ZeroDivisionError) /\
  exists l,
    trace (final (audio_tail env chunk delay w0)) = trace w0 ++ l /\
    Z.of_nat (n_poll (cursor (final (audio_tail env chunk delay w0)))) <=
      Z.of_nat (n_poll (cursor w0)) + 101 /\
    Z.of_nat (n_poll (cursor (final (audio_tail env chunk delay w0))))
    - Z.of_nat (n_poll (cursor w0)) =
      stat_output_delays (self (final (audio_tail env chunk delay w0)))
      - stat_output_delays (self w0)
      + Z.of_nat (length (writes l)).
Proof.
  intros Hcf Hfs. unfold audio_tail.
  pose proof (timing_post env delay w0) as HT.
  destruct (timing env delay w0) as [go w1|e w1] eqn:Et.
  - rewrite (bind_Return _ _ _ _ _ Et).
    destruct HT as (Hst1 & (Hnp1 & Hod1) & l1 & Htr1 & F1).
    apply paced_quiet_no_writes in F1.
    destruct Hst1 as ((_ & _ & Hfs1 & Hcf1 & _) & _).
    destruct go.
    + unfold write_and_report.
      destruct (write_loop_returns chunk delay 101 0 w1 cf)
        as (bs & w2 & l2 & Hrun & Htr2 & Hb2 & He2);
        [rewrite Hcf1; exact Hcf|lia|lia|].
      pose proof (write_loop_write env 101 0 chunk delay w1) as HW.
      rewrite Hrun in HW.
      destruct HW as (((_ & _ & Hfs2 & _) & _) & _).
      rewrite (bind_Return _ _ _ _ _ Hrun).
      pose proof (status_line_post env chunk bs w2) as HS.
      pose proof (status_line_exn w2 chunk bs fs
                    ltac:(rewrite Hfs2, Hfs1; exact Hfs)) as HX.
      assert (H3 : R_timing w2 (final (status_line env chunk bs w2))).
      { destruct (status_line env chunk bs w2); simpl; tauto. }
      destruct H3 as (_ & (Hnp3 & Hod3) & l3 & Htr3 & F3).
      apply paced_quiet_no_writes in F3.
      split; [exact HX|].
      exists (l1 ++ l2 ++ l3).
      rewrite Htr3, Htr2, Htr1, Hnp3, Hod3, <- !app_assoc.
      rewrite !writes_app, F1, F3, app_nil_r.
      split; [reflexivity|].
      rewrite Hnp1 in Hb2, He2. rewrite Hod1 in He2. simpl app. lia.
    + split; [discriminate|]. exists l1. simpl.
      rewrite Htr1, Hnp1, Hod1, F1. split; [reflexivity|]. simpl. lia.
  - rewrite (bind_Raise _ _ _ _ _ Et).
    destruct HT as ((_ & (Hnp1 & Hod1) & l1 & Htr1 & F1) & HE).
    apply paced_quiet_no_writes in F1.
    split.
    + intros e' w' H. injection H as <- _. exact HE.
    + exists l1. simpl. rewrite Htr1, Hnp1, Hod1, F1.
      split; [reflexivity|]. simpl. lia.
Qed.

End Outcomes.

(** ** What a pass through the loop does and does not do *)

Lemma keeps_consistent (w w' : World) :
  keeps_device w w' -> device_consistent w -> device_consistent w'.
Proof.
  unfold keeps_device, device_consistent.
  intros (H1 & H2 & H3 & H4 & H5 & H6 & H7 & H8).
  rewrite H1, H2, H3, H4, H5, H6, H7, H8. exact (fun x => x).
Qed.

Lemma Qeq_bool_inject_Z_false (z : Z) :
  Qeq_bool (inject_Z z) 0 = false -> z <> 0.
Proof. intros H ->. discriminate H. Qed.

Section Passes.

Variable env : Env.

Lemma iteration_empty (w : World) :
  chunk_list (chunk_queue w) = [] -> iteration env w = queue_empty env w.
Proof. intro H. unfold iteration, bind, gets. rewrite H. reflexivity. Qed.

Lemma iteration_drops (w : World) (n : Z) (rest : list Command) :
  chunk_list (chunk_queue w) = CMD_DROPS n :: rest ->
  iteration env w = on_drops n (with_queue (set_chunk_list rest) w).
Proof. intro H. unfold iteration, bind, gets. rewrite H. reflexivity. Qed.

Lemma iteration_cfg_unfold (w : World) (item : AudioCfg) (rest : list Command) :
  chunk_list (chunk_queue w) = CMD_CFG item :: rest ->
  iteration env w = on_cfg env item (with_queue (set_chunk_list rest) w).
Proof. intro H. unfold iteration, bind, gets. rewrite H. reflexivity. Qed.

Lemma iteration_no_device (w : World) mark chunk rest :
  chunk_list (chunk_queue w) = CMD_AUDIO mark chunk :: rest ->
  stream (self w) = None ->
  iteration env w = Return tt (with_queue (set_chunk_list rest) w).
Proof.
  intros H Hs. unfold iteration, on_audio, bind, gets, modify. rewrite H.
  simpl. rewrite Hs. reflexivity.
Qed.

Lemma iteration_cfg_outcome (w : World) (item : AudioCfg) (rest : list Command) :
  chunk_list (chunk_queue w) = CMD_CFG item :: rest ->
  match iteration env w with
  | Return _ w' => device_consistent w'
  | Raise e w' => stream (self w') = None /\ loop_exn e
  end.
Proof.
  intro Hq. open_world w. subst.
  unfold iteration, on_cfg, _open_stream, device_consistent, loop_exn.
  run_world.
  destruct strm; run_world;
    (destruct (env_open_ok env no); run_world;
     [destruct (Qeq_bool (inject_Z (frame_size_of item)) 0) eqn:E; run_world
     |]);
    try (split; [reflexivity|tauto]).
  all: exists item; apply Qeq_bool_inject_Z_false in E;
    repeat (split; [reflexivity || exact E|]); reflexivity.
Qed.

Lemma account_keeps_device (w : World) mark rest :
  keeps_device w (account env mark rest w).
Proof. unfold keeps_device, account. simpl. repeat split; reflexivity. Qed.

Lemma pop_keeps_device (w : World) rest :
  keeps_device w (with_queue (set_chunk_list rest) w).
Proof. unfold keeps_device. simpl. repeat split; reflexivity. Qed.

(** One pass keeps the device consistent and can only end with a
    division by zero or a refusal of the device. *)
Lemma iteration_outcome (w : World) :
  device_consistent w ->
  match iteration env w with
  | Return _ w' => device_consistent w'
  | Raise e w' => device_consistent w' /\ loop_exn e
  end.
Proof.
  intro Hc.
  destruct (chunk_list (chunk_queue w)) as [|[item|n|mark chunk] rest] eqn:Hq.
  - rewrite (iteration_empty w Hq).
    pose proof (queue_empty_post env w) as H.
    destruct (queue_empty env w) as [u w'|e w'].
    + destruct H as ((Hk & _) & _). exact (keeps_consistent _ _ Hk Hc).
    + destruct H as [_ []].
  - pose proof (iteration_cfg_outcome w item rest Hq) as H.
    destruct (iteration env w) as [u w'|e w']; [exact H|].
    destruct H as [Hs He]. split; [|exact He].
    unfold device_consistent. rewrite Hs. exact I.
  - rewrite (iteration_drops w n rest Hq).
    pose proof (on_drops_post n (with_queue (set_chunk_list rest) w)) as H.
    destruct (on_drops n (with_queue (set_chunk_list rest) w))
      as [u w'|e w'].
    + destruct H as ((Hk & _) & _).
      apply (keeps_consistent _ _ Hk).
      exact (keeps_consistent _ _ (pop_keeps_device w rest) Hc).
    + destruct H as [_ []].
  - destruct (stream (self w)) as [s|] eqn:Hs.
    + rewrite (iteration_audio env w mark chunk rest s Hq Hs).
      pose proof (keeps_consistent _ _ (account_keeps_device w mark rest) Hc)
        as Hc0.
      assert (exists cf fs,
                 chunk_frames (self (account env mark rest w)) = Some cf /\
                 frame_size (self (account env mark rest w)) = Some fs)
        as (cf & fs & Hcf & Hfs).
      { unfold device_consistent in Hc. rewrite Hs in Hc.
        destruct Hc as (cfg & _ & _ & Hf & _ & Hcf & _).
        eexists. eexists. split; [exact Hcf|exact Hf]. }
      destruct (audio_tail_polls env _ chunk (chunk_delay env mark w) cf fs
                  Hcf Hfs) as (HX & _).
      pose proof (audio_tail_write env chunk (chunk_delay env mark w)
                    (account env mark rest w)) as HW.
      destruct (audio_tail env chunk (chunk_delay env mark w)
                  (account env mark rest w)) as [u w'|e w'].
      * destruct HW as ((Hk & _) & _). exact (keeps_consistent _ _ Hk Hc0).
      * destruct HW as (((Hk & _) & _) & _).
        split; [exact (keeps_consistent _ _ Hk Hc0)|].
        left. eapply HX. reflexivity.
    + rewrite (iteration_no_device w mark chunk rest Hq Hs).
      exact (keeps_consistent _ _ (pop_keeps_device w rest) Hc).
Qed.

Lemma loop_outcome (n : nat) :
  forall w,
    device_consistent w ->
    match chunk_player_loop env n w with
    | Return _ w' => device_consistent w'
    | Raise e w' => device_consistent w' /\ loop_exn e
    end.
Proof.
  induction n as [|n IH]; intros w Hc; simpl.
  - exact Hc.
  - pose proof (iteration_outcome w Hc) as H. unfold bind.
    destruct (iteration env w) as [u w1|e w1]; [|exact H].
    apply IH. exact H.
Qed.

(** X7.  An open stream always goes with the configuration it was opened
    for: whatever the queue and the environment do, after any number of
    passes the frame size, the chunk size in frames and [max_delay] are
    the ones derived from the configuration in force. *)
Theorem device_stays_consistent (n : nat) (w : World) :
  device_consistent w ->
  device_consistent (final (chunk_player_loop env n w)).
Proof.
  intro Hc. pose proof (loop_outcome n w Hc) as H.
  destruct (chunk_player_loop env n w); simpl; tauto.
Qed.

(** X8.  A player started from a newly constructed object can only end with
    [ZeroDivisionError] or with the device's [IOError]: the assertion in
    [_open_stream] never fails, no attribute is used while still [None],
    and the inner loop always leaves on its own. *)
Theorem player_only_fails_by_division_or_device
  (n : nat) (receiver : option Receiver) (tolerance sink_latency latency : Q)
  (buffer_size : Z) (device_index : option Z) (q : list Command) :
  forall e w',
    chunk_player env n
      (world_start (__init__ receiver tolerance sink_latency latency
                             buffer_size device_index) q) = Raise e w' ->
    e = ZeroDivisionError \/ e = IOError.
Proof.
  intros e w' H. unfold chunk_player, bind, time_now, modify in H.
  simpl in H.
  match type of H with
  | chunk_player_loop env n ?w0 = _ =>
      pose proof (loop_outcome n w0 I) as P
  end.
  rewrite H in P. exact (proj2 P).
Qed.

(** X9.  [cnt] and [stat_total_delay] account for exactly the chunks popped
    while the device is open: such a pass adds 1 and the chunk's delay,
    whether the chunk is then dropped, triggers recovery, is written or
    the pass fails; every other pass leaves both alone. *)
Theorem chunks_seen_counts_played (w : World) :
  cnt (locals (final (iteration env w))) =
    cnt (locals w) + (if plays w then 1 else 0) /\
  stat_total_delay (self (final (iteration env w))) =
    (if plays w
     then (stat_total_delay (self w) + head_delay env w)%Q
     else stat_total_delay (self w)).
Proof.
  unfold plays, head_delay.
  destruct (chunk_list (chunk_queue w)) as [|[item|n|mark chunk] rest] eqn:Hq.
  - rewrite (iteration_empty w Hq).
    destruct (always_final _ _ _ w (queue_empty_post env))
      as ((_ & Hc & Ht & _) & _).
    rewrite Hc, Ht. split; [lia|reflexivity].
  - rewrite (iteration_cfg_unfold w item rest Hq).
    destruct (always_final _ _ _ (with_queue (set_chunk_list rest) w)
                (on_cfg_post env item)) as ((Hc & Ht) & _).
    rewrite Hc, Ht. simpl. split; [lia|reflexivity].
  - rewrite (iteration_drops w n rest Hq).
    destruct (always_final _ _ _ (with_queue (set_chunk_list rest) w)
                (on_drops_post n)) as ((_ & Hc & Ht & _) & _).
    rewrite Hc, Ht. simpl. split; [lia|reflexivity].
  - destruct (stream (self w)) as [s|] eqn:Hs.
    + rewrite (iteration_audio env w mark chunk rest s Hq Hs).
      destruct (always_final _ _ _ (account env mark rest w)
                  (audio_tail_write env chunk (chunk_delay env mark w)))
        as ((_ & Hc & Ht & _) & _).
      rewrite Hc, Ht. split; reflexivity.
    + rewrite (iteration_no_device w mark chunk rest Hq Hs). simpl.
      split; [lia|reflexivity].
Qed.

(** X10.  A pass writes to the device at most once, and only the payload it
    has just popped from the head of the queue. *)
Theorem at_most_one_write_per_pass (w : World) :
  exists l,
    trace (final (iteration env w)) = trace w ++ l /\
    (writes l = [] \/ (plays w = true /\ writes l = head_payload w)).
Proof.
  unfold plays, head_payload.
  destruct (chunk_list (chunk_queue w)) as [|[item|n|mark chunk] rest] eqn:Hq.
  - rewrite (iteration_empty w Hq).
    destruct (always_final _ _ _ w (queue_empty_post env))
      as (_ & _ & l & Htr & F).
    exists l. split; [exact Htr|left; apply quiet_no_writes; exact F].
  - rewrite (iteration_cfg_unfold w item rest Hq).
    destruct (always_final _ _ _ (with_queue (set_chunk_list rest) w)
                (on_cfg_post env item)) as (_ & _ & l & Htr & F).
    exists l. split; [exact Htr|left; apply quiet_no_writes; exact F].
  - rewrite (iteration_drops w n rest Hq).
    destruct (always_final _ _ _ (with_queue (set_chunk_list rest) w)
                (on_drops_post n)) as (_ & _ & l & Htr & F).
    exists l. split; [exact Htr|left; apply quiet_no_writes; exact F].
  - destruct (stream (self w)) as [s|] eqn:Hs.
    + rewrite (iteration_audio env w mark chunk rest s Hq Hs).
      destruct (audio_tail_log env (account env mark rest w) chunk
                  (chunk_delay env mark w)) as (l & Htr & Hw).
      exists l. split; [exact Htr|].
      destruct Hw as [Hw|Hw]; [left; exact Hw|right; split;
                                               [reflexivity|exact Hw]].
    + rewrite (iteration_no_device w mark chunk rest Hq Hs).
      exists []. split; [symmetry; apply app_nil_r|left; reflexivity].
Qed.

(** X11.  While a chunk is handled, every sleep lasts at least one
    millisecond: the wait for the play time, the pause between two polls
    and the pause after a stuck output. *)
Theorem chunk_sleeps_at_least_one_msec
  (w : World) (mark : Q) (chunk : list byte) (rest : list Command)
  (s : Stream) :
  chunk_list (chunk_queue w) = CMD_AUDIO mark chunk :: rest ->
  stream (self w) = Some s ->
  exists l,
    trace (final (iteration env w)) = trace w ++ l /\
    Forall (fun e => forall d, e = Sleep d -> (one_msec <= d)%Q) l.
Proof.
  intros Hq Hs. rewrite (iteration_audio env w mark chunk rest s Hq Hs).
  destruct (always_final _ _ _ (account env mark rest w)
              (audio_tail_write env chunk (chunk_delay env mark w)))
    as (_ & l & Htr & F).
  exists l. split; [exact Htr|].
  revert F. apply Forall_impl. intros e He d ->. exact He.
Qed.

(** X12.  In a pass the device is polled at most 101 times, and each poll is
    either counted in [stat_output_delays] or followed by the write. *)
Theorem polls_are_delays_or_writes (w : World) :
  device_consistent w ->
  exists l,
    trace (final (iteration env w)) = trace w ++ l /\
    Z.of_nat (n_poll (cursor (final (iteration env w)))) <=
      Z.of_nat (n_poll (cursor w)) + 101 /\
    Z.of_nat (n_poll (cursor (final (iteration env w))))
    - Z.of_nat (n_poll (cursor w)) =
      stat_output_delays (self (final (iteration env w)))
      - stat_output_delays (self w)
      + Z.of_nat (length (writes l)).
Proof.
  intro Hc.
  destruct (chunk_list (chunk_queue w)) as [|[item|n|mark chunk] rest] eqn:Hq.
  - rewrite (iteration_empty w Hq).
    destruct (always_final _ _ _ w (queue_empty_post env))
      as (_ & (Hp & Ho) & l & Htr & F).
    exists l. rewrite Hp, Ho, (quiet_no_writes _ F).
    split; [exact Htr|]. simpl. lia.
  - rewrite (iteration_cfg_unfold w item rest Hq).
    destruct (always_final _ _ _ (with_queue (set_chunk_list rest) w)
                (on_cfg_post env item)) as (_ & (Hp & Ho) & l & Htr & F).
    exists l. rewrite Hp, Ho, (quiet_no_writes _ F).
    split; [exact Htr|]. simpl. lia.
  - rewrite (iteration_drops w n rest Hq).
    destruct (always_final _ _ _ (with_queue (set_chunk_list rest) w)
                (on_drops_post n)) as (_ & (Hp & Ho) & l & Htr & F).
    exists l. rewrite Hp, Ho, (quiet_no_writes _ F).
    split; [exact Htr|]. simpl. lia.
  - destruct (stream (self w)) as [s|] eqn:Hs.
    + rewrite (iteration_audio env w mark chunk rest s Hq Hs).
      assert (exists cf fs,
                 chunk_frames (self (account env mark rest w)) = Some cf /\
                 frame_size (self (account env mark rest w)) = Some fs)
        as (cf & fs & Hcf & Hfs).
      { unfold device_consistent in Hc. rewrite Hs in Hc.
        destruct Hc as (cfg & _ & _ & Hf & _ & Hcf & _).
        eexists. eexists. split; [exact Hcf|exact Hf]. }
      destruct (audio_tail_polls env _ chunk (chunk_delay env mark w) cf fs
                  Hcf Hfs) as (_ & l & Htr & Hb & He).
      exists l. split; [exact Htr|]. split; [exact Hb|exact He].
    + rewrite (iteration_no_device w mark chunk rest Hq Hs).
      exists []. split; [symmetry; apply app_nil_r|]. simpl. lia.
Qed.
End Passes.

(** ** A write that succeeds after retries *)

Lemma writes_none (l : list Effect) :
  existsb is_write l = false -> writes l = [].
Proof.
  induction l as [|e l IH]; [reflexivity|].
  destruct e; simpl; try exact IH. discriminate.
Qed.

Section Retry.

Variable env : Env.

(** [k] polls that find no room, then one that does. *)
Lemma write_loop_retries (k : nat) :
  forall (fuel : nat) (times : Z) (w : World) (cf : Q)
         (chunk : list byte) (delay : Q),
    chunk_frames (self w) = Some cf ->
    (forall i, (i < k)%nat ->
       (inject_Z (env_write_available env (n_poll (cursor w) + i)) < cf)%Q) ->
    (cf <= inject_Z (env_write_available env (n_poll (cursor w) + k)))%Q ->
    times + Z.of_nat k <= 100 -> (k < fuel)%nat ->
    exists w',
      write_loop env fuel times chunk delay w =
        Return (env_write_available env (n_poll (cursor w) + k)) w' /\
      stat_output_delays (self w') = stat_output_delays (self w) + Z.of_nat k /\
      trace w' =
        trace w ++ stuck_polls env delay (n_poll (cursor w)) k
                ++ [GetWriteAvailable
                      (env_write_available env (n_poll (cursor w) + k));
                    StreamWrite chunk] /\
      n_poll (cursor w') = S (n_poll (cursor w) + k) /\
      locals w' = locals w /\
      frame_size (self w') = frame_size (self w) /\
      n_time (cursor w') = n_time (cursor w).
Proof.
  induction k as [|k IH]; intros fuel times w cf chunk delay Hcf Hfail Hok
                                 Ht Hfuel.
  - destruct fuel as [|fuel]; [lia|].
    rewrite write_loop_unfold. rewrite Nat.add_0_r in *.
    open_world w. subst.
    rewrite (Qltb_false_intro _ _ Hok).
    eexists. split; [reflexivity|]. run_world.
    rewrite <- !app_assoc. simpl.
    repeat (split; [first [reflexivity | lia | f_equal; lia]|]).
    reflexivity.
  - destruct fuel as [|fuel]; [lia|].
    rewrite write_loop_unfold.
    pose proof (Hfail 0%nat ltac:(lia)) as H0. rewrite Nat.add_0_r in H0.
    assert (E : (times + 1 >? 100) = false) by lia.
    set (w1 := suspend env
                 (emit (Sleep (pymax one_msec delay))
                    (with_self
                       (fun p => set_stat_output_delays
                                   (stat_output_delays p + 1) p)
                       (emit (GetWriteAvailable
                                (env_write_available env (n_poll (cursor w))))
                          (with_cursor tick_poll w))))).
    destruct (IH fuel (times + 1) w1 cf chunk delay) as
      (w' & Hrun & Hod & Htr & Hnp & Hloc & Hfs & Hnt).
    + subst w1. open_world w. exact Hcf.
    + intros i Hi. specialize (Hfail (S i) ltac:(lia)).
      subst w1. open_world w.
      rewrite Nat.add_succ_r in Hfail. exact Hfail.
    + subst w1. open_world w. rewrite Nat.add_succ_r in Hok. exact Hok.
    + lia.
    + lia.
    + exists w'. split.
      * subst w1. open_world w. subst.
        rewrite (Qltb_true_intro _ _ H0). rewrite E.
        rewrite Hrun, Nat.add_succ_r. reflexivity.
      * rewrite Hod, Htr, Hnp, Hloc, Hfs, Hnt. subst w1.
        clear Hrun Hod Htr Hnp Hloc Hfs Hnt IH.
        open_world w.
        rewrite <- !app_assoc. simpl. rewrite !Nat.add_succ_r.
        repeat (split; [first [reflexivity | lia | f_equal; lia]|]).
        reflexivity.
Qed.

(** X13.  When the device has room at the latest on the 101st poll, the chunk
    is written exactly once, right after the poll that found room;
    [stat_output_delays] has grown by the number of polls that found
    none, and the pass returns. *)
Theorem retried_write_happens_once
  (w : World) (mark : Q) (chunk : list byte) (rest : list Command)
  (s : Stream) (cf : Q) (k : nat) :
  chunk_list (chunk_queue w) = CMD_AUDIO mark chunk :: rest ->
  stream (self w) = Some s ->
  chunk_frames (self w) = Some cf ->
  (0 < tolerance (self w))%Q ->
  let delay := chunk_delay env mark w in
  let draw := env_random env (n_random (cursor w)) in
  ((delay < - mid_tolerance w)%Q ->
   ((- delay - mid_tolerance w) / mid_tolerance w <= draw)%Q) ->
  (delay <= max_delay (locals w))%Q ->
  (k <= 100)%nat ->
  (forall i, (i < k)%nat ->
     (inject_Z (env_write_available env (n_poll (cursor w) + i)) < cf)%Q) ->
  (cf <= inject_Z (env_write_available env (n_poll (cursor w) + k)))%Q ->
  (recent (locals w) < 200 \/
   exists fs,
     frame_size (self w) = Some fs /\ fs <> 0 /\ chunk <> [] /\
     ~ (env_time env (n_time (cursor w)) == recent_start (locals w))%Q /\
     cnt (locals w) + 1 <> 0) ->
  let effects :=
    (if Qltb one_msec delay
     then [Sleep (pymax one_msec (delay - one_msec))] else [])
    ++ stuck_polls env delay (n_poll (cursor w)) k
    ++ [GetWriteAvailable (env_write_available env (n_poll (cursor w) + k));
        StreamWrite chunk] in
  exists w' report,
    iteration env w = Return tt w' /\
    stat_output_delays (self w') = stat_output_delays (self w) + Z.of_nat k /\
    trace w' = trace w ++ effects ++ report /\
    writes (effects ++ report) = [chunk].
Proof.
  intros Hq Hs Hcf Htol delay draw Hdrop Hlate Hk Hfail Hok Hstatus effects.
  destruct (audio_reaches_writer env w mark chunk rest s Hq Hs Htol Hdrop
              Hlate)
    as (w1 & Hrun & Htr & Hnp & Hnt & Hcf1 & Hfs1 & Hod & _ & _ & Hrec
        & Hcnt & Hrs).
  fold delay in Hrun, Htr.
  destruct (write_loop_retries k 101 0 w1 cf chunk delay) as
    (w2 & Hloop & Hod2 & Htr2 & Hnp2 & Hloc2 & Hfs2 & Hnt2).
  - rewrite Hcf1. exact Hcf.
  - rewrite Hnp. exact Hfail.
  - rewrite Hnp. exact Hok.
  - lia.
  - lia.
  - destruct (status_line_returns env w2 chunk
                (env_write_available env (n_poll (cursor w1) + k))) as
      (w' & report & Hst & Htr3 & Hnw & Hod3 & Hnp3).
    + rewrite Hloc2, Hrec, Hfs2, Hfs1, Hnt2, Hnt, Hcnt, Hrs.
      destruct Hstatus as [H|H]; [left; lia|right; exact H].
    + exists w', report. split; [|split; [|split]].
      * rewrite Hrun. unfold write_and_report, bind. rewrite Hloop.
        exact Hst.
      * rewrite Hod3, Hod2, Hod. reflexivity.
      * rewrite Htr3, Htr2, Htr, Hnp. subst effects.
        rewrite <- !app_assoc. reflexivity.
      * subst effects.
        rewrite !writes_app, (writes_none _ Hnw),
          (writes_none _ (stuck_polls_no_write env delay _ k)).
        destruct (Qltb one_msec delay); reflexivity.
Qed.

End Retry.

(** ** Lateness and the drop decision *)

Section Lateness.

Variable env : Env.

(** X14.  The later a chunk, the likelier its drop: with the same random draw,
    a chunk at least as late as one that is dropped is dropped too. *)
Theorem later_chunk_dropped_too (w : World) (d1 d2 : Q) (w2 : World) :
  (0 < tolerance (self w))%Q ->
  (d1 <= d2)%Q ->
  timing env d2 w = Return false w2 ->
  stat_time_drops (self w2) = stat_time_drops (self w) + 1 ->
  exists w1,
    timing env d1 w = Return false w1 /\
    stat_time_drops (self w1) = stat_time_drops (self w) + 1.
Proof.
  intros Htol Hle. open_world w. unfold timing. run_world.
  pose proof (half_pos _ Htol) as Hm.
  remember (tol / 2)%Q as m eqn:Em. clear Em.
  destruct (Qltb d2 (- m)) eqn:E2; run_world.
  - apply Qltb_lt in E2.
    rewrite (Qeq_bool_nonzero m) by lra.
    destruct (Qltb (env_random env nr) ((- d2 - m) / m)) eqn:Er;
      [|discriminate].
    intros _ _. apply Qltb_lt in Er.
    rewrite Qltb_true_intro by lra. run_world.
    rewrite Qltb_true_intro.
    + eexists. split; reflexivity.
    + eapply Qlt_le_trans; [exact Er|].
      unfold Qdiv. apply Qmult_le_compat_r; [lra|].
      apply Qlt_le_weak. apply Qinv_lt_0_compat. exact Hm.
  - destruct (Qltb md d2).
    + intros H Hd. injection H as <-. simpl in Hd. lia.
    + destruct (Qltb one_msec d2); discriminate.
Qed.

End Lateness.

(** ** Before the first configuration, and when the queue is empty *)

Lemma scan_cfg_app (a b : list Command) :
  scan_cfg (a ++ b) =
  match scan_cfg a with Some c => Some c | None => scan_cfg b end.
Proof.
  induction a as [|[c|n|m ch] a IH]; simpl; try reflexivity; exact IH.
Qed.

Section Idle.

Variable env : Env.

(** No configuration is ever delivered. *)
Hypothesis no_cfg_delivered : forall k, scan_cfg (env_producer env k) = None.

Lemma iteration_without_cfg (w : World) :
  stream (self w) = None ->
  scan_cfg (chunk_list (chunk_queue w)) = None ->
  exists w' l,
    iteration env w = Return tt w' /\
    trace w' = trace w ++ l /\
    existsb is_device l = false /\
    stream (self w') = None /\
    scan_cfg (chunk_list (chunk_queue w')) = None /\
    cnt (locals w') = cnt (locals w) /\
    stat_total_delay (self w') = stat_total_delay (self w) /\
    n_utcnow (cursor w') = n_utcnow (cursor w).
Proof.
  intros Hs Hq. open_world w. subst strm.
  destruct q as [|[item|n|mark chunk] rest].
  - unfold iteration, queue_empty. run_world.
    destruct acfg as [cfg|]; run_world;
      eexists; eexists; (split; [reflexivity|]); run_world;
      rewrite <- ?app_assoc;
      (split; [reflexivity|]); (split; [reflexivity|]);
      (split; [reflexivity|]);
      (split; [simpl; rewrite ?scan_cfg_app, !no_cfg_delivered; reflexivity|]);
      repeat (split; [reflexivity|]); reflexivity.
  - discriminate Hq.
  - unfold iteration, on_drops. run_world. simpl in Hq.
    destruct (n >? 200); run_world;
      eexists; eexists; (split; [reflexivity|]); run_world;
      rewrite <- ?app_assoc.
    + split; [reflexivity|]. split; [reflexivity|]. split; [reflexivity|].
      split; [rewrite Hq; reflexivity|].
      repeat (split; [reflexivity|]). reflexivity.
    + split; [symmetry; apply app_nil_r|]. split; [reflexivity|].
      split; [reflexivity|]. split; [exact Hq|].
      repeat (split; [reflexivity|]). reflexivity.
  - unfold iteration, on_audio. run_world. simpl in Hq.
    eexists; eexists; (split; [reflexivity|]); run_world.
    split; [symmetry; apply app_nil_r|]. split; [reflexivity|].
    split; [reflexivity|]. split; [exact Hq|].
    repeat (split; [reflexivity|]). reflexivity.
Qed.

(** X15.  Until a configuration arrives nothing is played: with no stream open
    and no configuration queued or delivered, any number of passes
    return without touching the device, reading the UTC clock or
    counting a chunk; audio chunks and loss notices are just consumed. *)
Theorem nothing_played_before_configuration (n : nat) :
  forall w,
    stream (self w) = None ->
    scan_cfg (chunk_list (chunk_queue w)) = None ->
    exists w' l,
      chunk_player_loop env n w = Return tt w' /\
      trace w' = trace w ++ l /\
      existsb is_device l = false /\
      stream (self w') = None /\
      cnt (locals w') = cnt (locals w) /\
      stat_total_delay (self w') = stat_total_delay (self w) /\
      n_utcnow (cursor w') = n_utcnow (cursor w).
Proof.
  induction n as [|n IH]; intros w Hs Hq.
  - exists w, []. split; [reflexivity|].
    split; [symmetry; apply app_nil_r|].
    split; [reflexivity|]. split; [exact Hs|].
    repeat (split; [reflexivity|]). reflexivity.
  - destruct (iteration_without_cfg w Hs Hq)
      as (w1 & l1 & Hrun & Htr & Hd & Hs1 & Hq1 & Hc & Ht & Hu).
    destruct (IH w1 Hs1 Hq1) as (w' & l & Hrun' & Htr' & Hd' & Hs' & Hc'
                                 & Ht' & Hu').
    exists w', (l1 ++ l). split.
    + simpl. unfold bind. rewrite Hrun. exact Hrun'.
    + rewrite Htr', Htr, <- app_assoc. split; [reflexivity|].
      rewrite existsb_app, Hd, Hd'. split; [reflexivity|].
      split; [exact Hs'|]. split; [congruence|]. split; congruence.
Qed.

End Idle.

Section EmptyQueue.

Variable env : Env.

(** X16.  Found empty, the queue is waited for exactly once; nothing is
    consumed: what the producer appends during the wait, and during the
    sleep of a quarter of the configured latency that follows when a
    configuration is in force, is all queued afterwards, in order. *)
Theorem empty_queue_waits_once (w : World) :
  chunk_list (chunk_queue w) = [] ->
  let k := n_yield (cursor w) in
  exists w',
    iteration env w = Return tt w' /\
    chunk_list (chunk_queue w') =
      env_producer env k
      ++ match audio_cfg (self w) with
         | Some _ => env_producer env (S k)
         | None => []
         end /\
    trace w' =
      trace w
      ++ match audio_cfg (self w) with
         | Some _ => [Print MsgQueueEmpty]
         | None => []
         end
      ++ [EventClear; EventWait]
      ++ match audio_cfg (self w) with
         | Some cfg =>
             [Sleep (inject_Z (latency_msec cfg) / 1000 / 4)%Q;
              Print (MsgStreamFlowing
                       (Z.of_nat (length (env_producer env k
                                          ++ env_producer env (S k)))))]
         | None => []
         end /\
    n_yield (cursor w') =
      match audio_cfg (self w) with Some _ => S (S k) | None => S k end /\
    chunk_available (chunk_queue w') = true.
Proof.
  intro Hq. open_world w. subst q.
  unfold iteration, queue_empty. run_world.
  destruct acfg as [cfg|]; run_world;
    (eexists; split; [reflexivity|]); run_world;
    rewrite <- ?app_assoc; simpl; rewrite ?app_nil_r;
    repeat (split; [reflexivity|]); reflexivity.
Qed.

End EmptyQueue.
(** * Attributes the loop never uses *)

Lemma blank_idem (w : World) : blank (blank w) = blank w.
Proof. reflexivity. Qed.

Lemma blind_ret {A} (a : A) : blind (ret a).
Proof. intro w. reflexivity. Qed.

Lemma blind_raise {A} (e : Exn) : blind (@raise A e).
Proof. intro w. reflexivity. Qed.

Lemma blind_gets {A} (f : World -> A) :
  (forall w, f (blank w) = f w) -> blind (gets f).
Proof. intros H w. unfold gets. simpl. rewrite H. reflexivity. Qed.

Lemma blind_modify (f : World -> World) :
  (forall w, blank (f (blank w)) = blank (f w)) -> blind (modify f).
Proof. intros H w. unfold modify. simpl. rewrite H. reflexivity. Qed.

Lemma blind_bind {A B} (m : M A) (k : A -> M B) :
  blind m -> (forall a, blind (k a)) -> blind (bind m k).
Proof.
  intros Hm Hk w. unfold bind. specialize (Hm w).
  destruct (m (blank w)) as [a w1|e w1], (m w) as [a' w1'|e' w1'];
    cbn [blank_outcome] in Hm; try discriminate.
  - assert (Ha : a = a') by congruence.
    assert (Hw : blank w1 = blank w1') by congruence.
    subst a'.
    transitivity (blank_outcome (k a (blank w1))).
    + symmetry. apply Hk.
    + rewrite Hw. apply Hk.
  - cbn [blank_outcome]. congruence.
Qed.

Ltac blank_tac :=
  let w := fresh "w" in
  intro w;
  destruct w as [[? ? ? ? ? ? ? ? ? ? ? ? ? ? ? ?] [? ? ?] [? ? ? ?] ?
                   [? ? ? ? ? ?]];
  reflexivity.

Ltac blind_step :=
  lazymatch goal with
  | |- blind (bind _ _) => apply blind_bind; [|intro]
  | |- blind (ret _) => apply blind_ret
  | |- blind (raise _) => apply blind_raise
  | |- blind (gets _) => apply blind_gets; blank_tac
  | |- blind (modify _) => apply blind_modify; blank_tac
  | |- blind (print _) => apply blind_modify; blank_tac
  | |- blind (sleep _ _) => apply blind_modify; blank_tac
  | |- blind (time_now _) => blank_tac
  | |- blind (utcnow_timestamp _) => blank_tac
  | |- blind (random_random _) => blank_tac
  | |- blind (get_write_available _) => blank_tac
  | |- blind (truediv _ _) => unfold truediv; destruct (Qeq_bool _ _)
  | |- blind (match ?x with _ => _ end) => destruct x
  end.

Section Unused.
Variable env : Env.

Lemma blind_open (s : Stream) : blind (pyaudio_open env s).
Proof.
  intro w. unfold pyaudio_open.
  destruct w as [[? ? ? ? ? ? ? ? ? ? ? ? ? ? ? ?] [? ? ?] [? ? ? ?] ?
                   [? ? ? ? no ?]].
  simpl. destruct (env_open_ok env no); reflexivity.
Qed.

Lemma blind_open_stream : blind (_open_stream env).
Proof.
  unfold _open_stream. repeat first [ apply blind_open | blind_step ].
Qed.

Lemma blind_timing delay : blind (timing env delay).
Proof. unfold timing. repeat blind_step. Qed.

Lemma blind_status_line chunk bs : blind (status_line env chunk bs).
Proof. unfold status_line. repeat blind_step. Qed.

Lemma blind_write_loop fuel times chunk delay :
  blind (write_loop env fuel times chunk delay).
Proof.
  revert times. induction fuel as [|fuel IH]; intro times; simpl.
  - blind_step.
  - repeat first [ apply IH | blind_step ].
Qed.

Lemma blind_iteration : blind (iteration env).
Proof.
  unfold iteration, queue_empty, on_cfg, on_drops, on_audio,
    write_and_report.
  repeat first [ apply blind_open_stream | apply blind_timing
               | apply blind_write_loop | apply blind_status_line
               | blind_step ].
Qed.

Lemma blind_loop (n : nat) : blind (chunk_player_loop env n).
Proof.
  induction n as [|n IH]; simpl.
  - blind_step.
  - apply blind_bind; [exact blind_iteration|intros _; exact IH].
Qed.

(** X17.  The player loop never uses [latency], [silence_cache] or
    [silence_to_insert]: started with any other values for them, a run
    of any number of passes gives the same result or exception, the same
    effects, queue, locals and every other attribute.  In particular the
    silence counted for loss notices is never turned into output. *)
Theorem unused_attributes_change_nothing
  (n : nat) (w : World) (latency' : Q) (cache' : option (list byte))
  (silence' : Z) :
  let w' := with_self
              (fun p =>
                 mkChunkPlayer (receiver p) (tolerance p) (sink_latency p)
                   latency' (audio_cfg p) (buffer_size p) (device_index p)
                   (stream p) cache' silence' (stat_time_drops p)
                   (stat_output_delays p) (stat_total_delay p) (pyaudio p)
                   (frame_size p) (chunk_frames p)) w in
  blank_outcome (chunk_player_loop env n w') =
  blank_outcome (chunk_player_loop env n w).
Proof.
  intro w'. rewrite <- (blind_loop n w'), <- (blind_loop n w).
  reflexivity.
Qed.
End Unused.

(** * Chunks are played in the order they were queued *)

Lemma subseq_refl {A} (l : list A) : subseq l l.
Proof. induction l; constructor; assumption. Qed.

Lemma subseq_nil_l {A} (l : list A) : subseq [] l.
Proof. induction l; constructor; assumption. Qed.

Lemma subseq_trans {A} (l1 l2 l3 : list A) :
  subseq l1 l2 -> subseq l2 l3 -> subseq l1 l3.
Proof.
  intros H12 H23. revert l1 H12.
  induction H23 as [|x l2 l3 _ IH|x l2 l3 _ IH]; intros l1 H12.
  - exact H12.
  - apply subseq_skip. apply IH. exact H12.
  - inversion H12; subst.
    + apply subseq_skip. apply IH. assumption.
    + apply subseq_take. apply IH. assumption.
Qed.

Lemma subseq_app {A} (l1 l2 k1 k2 : list A) :
  subseq l1 l2 -> subseq k1 k2 -> subseq (l1 ++ k1) (l2 ++ k2).
Proof.
  intros H K.
  induction H; simpl;
    [exact K|apply subseq_skip; assumption|apply subseq_take; assumption].
Qed.

Lemma audio_payloads_app (l1 l2 : list Command) :
  audio_payloads (l1 ++ l2) = audio_payloads l1 ++ audio_payloads l2.
Proof.
  induction l1 as [|[item|n|mark chunk] l1 IH]; simpl; rewrite ?IH;
    reflexivity.
Qed.

Lemma delivered_app (env : Env) (k n m : nat) :
  delivered env k (n + m) = delivered env k n ++ delivered env (k + n) m.
Proof.
  unfold delivered. rewrite seq_app, map_app, concat_app. reflexivity.
Qed.

Lemma clear_state_audio (w : World) :
  audio_payloads (chunk_list (chunk_queue (clear_state w))) = [].
Proof.
  unfold clear_state. simpl.
  destruct (scan_cfg (chunk_list (chunk_queue w))); reflexivity.
Qed.

Section Order.

Variable env : Env.

Lemma queue_in_order_refl (w : World) : queue_in_order env w w.
Proof.
  split; [lia|]. rewrite Nat.sub_diag. unfold delivered. simpl.
  rewrite app_nil_r. apply subseq_refl.
Qed.

Lemma queue_in_order_trans (a b c : World) :
  queue_in_order env a b -> queue_in_order env b c -> queue_in_order env a c.
Proof.
  intros [Hab Sab] [Hbc Sbc]. split; [lia|].
  replace (n_yield (cursor c) - n_yield (cursor a))%nat
    with ((n_yield (cursor b) - n_yield (cursor a))
          + (n_yield (cursor c) - n_yield (cursor b)))%nat by lia.
  rewrite delivered_app.
  replace (n_yield (cursor a)
           + (n_yield (cursor b) - n_yield (cursor a)))%nat
    with (n_yield (cursor b)) by lia.
  eapply subseq_trans; [exact Sbc|].
  rewrite app_assoc, !audio_payloads_app.
  apply subseq_app; [|apply subseq_refl].
  rewrite <- audio_payloads_app. exact Sab.
Qed.

Lemma queue_in_order_same (w w' : World) :
  n_yield (cursor w') = n_yield (cursor w) ->
  chunk_list (chunk_queue w') = chunk_list (chunk_queue w) ->
  queue_in_order env w w'.
Proof.
  intros Hy Hq. unfold queue_in_order. rewrite Hy, Hq.
  apply queue_in_order_refl.
Qed.

Lemma queue_in_order_yield (w w' : World) :
  n_yield (cursor w') = S (n_yield (cursor w)) ->
  chunk_list (chunk_queue w') =
    chunk_list (chunk_queue w) ++ env_producer env (n_yield (cursor w)) ->
  queue_in_order env w w'.
Proof.
  intros Hy Hq. unfold queue_in_order. rewrite Hy, Hq. split; [lia|].
  replace (S (n_yield (cursor w)) - n_yield (cursor w))%nat with 1%nat
    by lia.
  unfold delivered. simpl. rewrite app_nil_r. apply subseq_refl.
Qed.

Lemma queue_in_order_clear (w w' : World) :
  n_yield (cursor w') = n_yield (cursor w) ->
  audio_payloads (chunk_list (chunk_queue w')) = [] ->
  queue_in_order env w w'.
Proof.
  intros Hy Hq. unfold queue_in_order. rewrite Hy, Hq. split; [lia|].
  apply subseq_nil_l.
Qed.

Ltac order_tac :=
  first [ exact I
        | apply queue_in_order_same; reflexivity
        | apply queue_in_order_yield; reflexivity
        | apply queue_in_order_clear;
          [reflexivity|apply clear_state_audio] ].

Ltac order_walk :=
  repeat first [ always_prim order_tac
               | always_step queue_in_order_refl queue_in_order_trans
                             order_tac ].

Lemma timing_order delay :
  always (queue_in_order env) any_exn (timing env delay).
Proof. unfold timing. order_walk. Qed.

Lemma status_line_order chunk bs :
  always (queue_in_order env) any_exn (status_line env chunk bs).
Proof. unfold status_line. order_walk. Qed.

Lemma queue_empty_order :
  always (queue_in_order env) any_exn (queue_empty env).
Proof. unfold queue_empty. order_walk. Qed.

Lemma on_drops_order item :
  always (queue_in_order env) any_exn (on_drops item).
Proof. unfold on_drops. order_walk. Qed.

Lemma on_cfg_order item :
  always (queue_in_order env) any_exn (on_cfg env item).
Proof. unfold on_cfg, _open_stream. order_walk. Qed.

Lemma write_loop_order fuel times chunk delay :
  always (queue_in_order env) any_exn
         (write_loop env fuel times chunk delay).
Proof.
  revert times. induction fuel as [|fuel IH]; intro times; simpl.
  - order_walk.
  - repeat first [ apply IH | always_prim order_tac
                 | always_step queue_in_order_refl queue_in_order_trans
                               order_tac ].
Qed.

Lemma audio_tail_order chunk delay :
  always (queue_in_order env) any_exn (audio_tail env chunk delay).
Proof.
  unfold audio_tail, write_and_report.
  repeat first [ apply timing_order | apply write_loop_order
               | apply status_line_order
               | always_step queue_in_order_refl queue_in_order_trans
                             order_tac ].
Qed.

Lemma played_in_order_refl (w : World) : played_in_order env w w.
Proof.
  exists []. split; [symmetry; apply app_nil_r|]. apply queue_in_order_refl.
Qed.

Lemma played_in_order_trans (a b c : World) :
  played_in_order env a b -> played_in_order env b c ->
  played_in_order env a c.
Proof.
  intros (l1 & T1 & Hab & Sab) (l2 & T2 & Hbc & Sbc).
  exists (l1 ++ l2). split; [rewrite T2, T1; symmetry; apply app_assoc|].
  split; [lia|].
  replace (n_yield (cursor c) - n_yield (cursor a))%nat
    with ((n_yield (cursor b) - n_yield (cursor a))
          + (n_yield (cursor c) - n_yield (cursor b)))%nat by lia.
  rewrite delivered_app.
  replace (n_yield (cursor a)
           + (n_yield (cursor b) - n_yield (cursor a)))%nat
    with (n_yield (cursor b)) by lia.
  rewrite writes_app, <- app_assoc.
  eapply subseq_trans.
  - apply subseq_app; [apply subseq_refl|exact Sbc].
  - rewrite audio_payloads_app, app_assoc, (app_assoc (chunk_list _)),
      (audio_payloads_app (_ ++ _)).
    apply subseq_app; [exact Sab|apply subseq_refl].
Qed.

(** A step that writes nothing and keeps the queue in order after a
    command was popped. *)
Lemma popped_in_order
  (w w' : World) (c : Command) (rest : list Command) (l : list Effect) :
  chunk_list (chunk_queue w) = c :: rest ->
  queue_in_order env (with_queue (set_chunk_list rest) w) w' ->
  trace w' = trace w ++ l ->
  writes l = [] \/ writes l = audio_payloads [c] ->
  played_in_order env w w'.
Proof.
  intros Hq [Hy S] Htr Hw. exists l. split; [exact Htr|].
  simpl in Hy, S. split; [exact Hy|]. rewrite Hq.
  change (c :: rest) with ([c] ++ rest).
  rewrite <- app_assoc, (audio_payloads_app [c]).
  destruct Hw as [-> | ->].
  - eapply subseq_trans; [exact S|].
    apply (subseq_app [] (audio_payloads [c])); [apply subseq_nil_l|].
    apply subseq_refl.
  - apply subseq_app; [apply subseq_refl|exact S].
Qed.

Lemma iteration_in_order (w : World) :
  played_in_order env w (final (iteration env w)).
Proof.
  destruct (chunk_list (chunk_queue w)) as [|[item|n|mark chunk] rest] eqn:Hq.
  - rewrite (iteration_empty env w Hq).
    destruct (always_final _ _ _ w (queue_empty_post env))
      as (_ & _ & l & Htr & F).
    destruct (always_final _ _ _ w queue_empty_order) as [Hy S].
    exists l. split; [exact Htr|]. split; [exact Hy|].
    rewrite (quiet_no_writes l F). exact S.
  - rewrite (iteration_cfg_unfold env w item rest Hq).
    destruct (always_final _ _ _ (with_queue (set_chunk_list rest) w)
                (on_cfg_post env item)) as (_ & _ & l & Htr & F).
    apply (popped_in_order w _ _ rest l Hq);
      [apply (always_final _ _ _ _ (on_cfg_order item))|exact Htr|].
    left. apply quiet_no_writes. exact F.
  - rewrite (iteration_drops env w n rest Hq).
    destruct (always_final _ _ _ (with_queue (set_chunk_list rest) w)
                (on_drops_post n)) as (_ & _ & l & Htr & F).
    apply (popped_in_order w _ _ rest l Hq);
      [apply (always_final _ _ _ _ (on_drops_order n))|exact Htr|].
    left. apply quiet_no_writes. exact F.
  - destruct (stream (self w)) as [s|] eqn:Hs.
    + rewrite (iteration_audio env w mark chunk rest s Hq Hs).
      destruct (audio_tail_log env (account env mark rest w) chunk
                  (chunk_delay env mark w)) as (l & Htr & Hw).
      pose proof (always_final _ _ _ (account env mark rest w)
                    (audio_tail_order chunk (chunk_delay env mark w)))
        as Ho.
      apply (popped_in_order w _ _ rest l Hq); [exact Ho|exact Htr|exact Hw].
    + rewrite (iteration_no_device env w mark chunk rest Hq Hs).
      apply (popped_in_order w _ _ rest [] Hq);
        [apply queue_in_order_refl|symmetry; apply app_nil_r|].
      left. reflexivity.
Qed.

Lemma loop_in_order (n : nat) :
  forall w, played_in_order env w (final (chunk_player_loop env n w)).
Proof.
  induction n as [|n IH]; intro w.
  - apply played_in_order_refl.
  - simpl. rewrite final_bind.
    pose proof (iteration_in_order w) as H1.
    destruct (iteration env w) as [[] w1|e w1]; simpl in H1.
    + eapply played_in_order_trans; [exact H1|apply IH].
    + exact H1.
Qed.

(** X18.  Over any number of passes, the payloads written to the device
    are, in the order written, a subsequence of the audio payloads that
    were queued at the start followed by those the receiver delivered
    during the run: chunks are never reordered, repeated or invented,
    only left out. *)
Theorem chunks_played_in_queue_order (n : nat) (w : World) :
  let w' := final (chunk_player_loop env n w) in
  exists l,
    trace w' = trace w ++ l /\
    subseq (writes l)
           (audio_payloads
              (chunk_list (chunk_queue w)
               ++ delivered env (n_yield (cursor w))
                            (n_yield (cursor w') - n_yield (cursor w)))).
Proof.
  intro w'. destruct (loop_in_order n w) as (l & Htr & _ & S).
  exists l. split; [exact Htr|].
  eapply subseq_trans; [|exact S].
  rewrite <- (app_nil_r (writes l)) at 1.
  apply subseq_app; [apply subseq_refl|apply subseq_nil_l].
Qed.

End Order.

(** * A negative tolerance *)

(** C6, as the spec words it, fails.  A new player with tolerance -2 and
    sink latency 0.1 processes [cfg_cd] (100 ms), so [max_delay] is 0.4;
    the chunk that then arrives has delay 0.5.  Half the tolerance being
    -1, the chunk enters the branch of the lagging chunks, is not
    dropped (the probability is negative), and the test against
    [max_delay] is skipped: the chunk is written and no recovery is
    requested. *)
Lemma recovery_needs_tolerance_counterexample :
  let env := env_one_chunk 0.6 in
  let w := final (chunk_player env 2 (world_new (- 2))) in
  (sink_latency (self w) == 0.1)%Q /\
  audio_cfg (self w) = Some cfg_cd /\
  latency_msec cfg_cd = 100 /\
  (max_delay (locals w) == 0.4)%Q /\
  chunk_list (chunk_queue w) = [CMD_AUDIO 0.6 chunk4] /\
  stream (self w) <> None /\
  (chunk_delay env 0.6 w == 0.5)%Q /\
  exists w',
    iteration env w = Return tt w' /\
    recovery_requests (chunk_queue w') = recovery_requests (chunk_queue w) /\
    trace w' = trace w ++ [GetWriteAvailable 2048; StreamWrite chunk4].
Proof.
  cbv zeta.
  split; [vm_compute; reflexivity|]. split; [vm_compute; reflexivity|].
  split; [reflexivity|]. split; [vm_compute; reflexivity|].
  split; [vm_compute; reflexivity|]. split; [vm_compute; discriminate|].
  split; [vm_compute; reflexivity|].
  exists (final (iteration (env_one_chunk 0.6)
                   (final (chunk_player (env_one_chunk 0.6) 2
                             (world_new (- 2)))))).
  split; [vm_compute; reflexivity|]. split; vm_compute; reflexivity.
Qed.

(** C9, as the spec words it, fails.  For the same player, a chunk with
    delay 0.3 is neither dropped nor beyond [max_delay], and its delay
    exceeds 1 ms; yet no sleep precedes the write: the chunk went
    through the branch of the lagging chunks, which skips the wait. *)
Lemma prewrite_sleep_needs_tolerance_counterexample :
  let env := env_one_chunk 0.4 in
  let w := final (chunk_player env 2 (world_new (- 2))) in
  chunk_list (chunk_queue w) = [CMD_AUDIO 0.4 chunk4] /\
  stream (self w) <> None /\
  (chunk_delay env 0.4 w == 0.3)%Q /\
  (one_msec < chunk_delay env 0.4 w)%Q /\
  (chunk_delay env 0.4 w <= max_delay (locals w))%Q /\
  exists w',
    iteration env w = Return tt w' /\
    stat_time_drops (self w') = stat_time_drops (self w) /\
    recovery_requests (chunk_queue w') = recovery_requests (chunk_queue w) /\
    trace w' = trace w ++ [GetWriteAvailable 2048; StreamWrite chunk4].
Proof.
  cbv zeta.
  split; [vm_compute; reflexivity|]. split; [vm_compute; discriminate|].
  split; [vm_compute; reflexivity|]. split; [vm_compute; reflexivity|].
  split; [vm_compute; discriminate|].
  exists (final (iteration (env_one_chunk 0.4)
                   (final (chunk_player (env_one_chunk 0.4) 2
                             (world_new (- 2)))))).
  split; [vm_compute; reflexivity|].
  split; [vm_compute; reflexivity|]. split; vm_compute; reflexivity.
Qed.

(** * The silence cache over the loop *)





Section Cache.

Variable env : Env.






End Cache.

(** * The theorems at concrete inputs *)

(** Decide a closed comparison of rationals or integers by evaluation. *)
Ltac by_eval :=
  vm_compute;
  first [ reflexivity | discriminate
        | let H := fresh in intro H; discriminate H
        | let H := fresh in intro H; inversion H ].

(** Scenario B and its neighbours: tolerance 0.1, so half of it is 0.05.
    On time, nothing is drawn; 0.2 late, the chunk is dropped; 0.09 late
    the probability is 0.8 and the draw 0.5 drops it.  With a tolerance
    of 0.3, half of it is 0.15: 0.2 late the probability is 1/3 and the
    draw 0.5 keeps the chunk; 0.4 late it is dropped. *)
Lemma drop_policy_witness :
  let w := world_playing cfg_cd [] 0 0 in
  let v := world_tolerance 0.3 cfg_cd [] in
  (tolerance (self w) / 2 == 0.05)%Q /\
  (- (tolerance (self w) / 2) <= 0)%Q /\
  (exists go w', timing env_ready 0 w = Return go w' /\
                 stat_time_drops (self w') = stat_time_drops (self w)) /\
  (tolerance (self w) / 2 < - (- 0.2) - tolerance (self w) / 2)%Q /\
  (exists w', timing env_ready (- 0.2) w = Return false w' /\
              stat_time_drops (self w') = 1) /\
  ((- (- 0.09) - tolerance (self w) / 2) / (tolerance (self w) / 2)
   == 0.8)%Q /\
  (exists w', timing env_ready (- 0.09) w = Return false w' /\
              stat_time_drops (self w') = 1) /\
  (exists w', timing (env_const 5 0 0.9 2048) (- 0.09) w = Return true w' /\
              stat_time_drops (self w') = 0) /\
  (tolerance (self v) / 2 == 0.15)%Q /\
  ((- (- 0.2) - tolerance (self v) / 2) / (tolerance (self v) / 2)
   == 1 # 3)%Q /\
  (exists w', timing env_ready (- 0.2) v = Return true w' /\
              stat_time_drops (self w') = 0) /\
  (tolerance (self v) / 2 < - (- 0.4) - tolerance (self v) / 2)%Q /\
  (exists w', timing env_ready (- 0.4) v = Return false w' /\
              stat_time_drops (self w') = 1).
Proof.
  cbv zeta.
  split; [by_eval|]. split; [by_eval|]. split.
  { destruct (drop_policy env_ready (world_playing cfg_cd [] 0 0) 0)
      as (H & _).
    destruct (H ltac:(by_eval)) as (go & w' & H1 & H2 & _).
    exists go, w'. split; assumption. }
  split; [by_eval|]. split.
  { destruct (drop_policy env_ready (world_playing cfg_cd [] 0 0) (- 0.2))
      as (_ & H & _).
    eexists. split.
    - apply H; by_eval.
    - reflexivity. }
  split; [by_eval|]. split.
  { destruct (drop_policy env_ready (world_playing cfg_cd [] 0 0) (- 0.09))
      as (_ & _ & H & _).
    destruct (H ltac:(by_eval) ltac:(by_eval)) as (H1 & _).
    eexists. split.
    - apply H1. by_eval.
    - reflexivity. }
  split.
  { destruct (drop_policy (env_const 5 0 0.9 2048)
                (world_playing cfg_cd [] 0 0) (- 0.09))
      as (_ & _ & H & _).
    destruct (H ltac:(by_eval) ltac:(by_eval)) as (_ & H2).
    eexists. split.
    - apply H2. by_eval.
    - reflexivity. }
  split; [by_eval|]. split; [by_eval|]. split.
  { destruct (drop_policy env_ready (world_tolerance 0.3 cfg_cd [])
                (- 0.2)) as (_ & _ & H & _).
    destruct (H ltac:(by_eval) ltac:(by_eval)) as (_ & H2).
    eexists. split.
    - apply H2. by_eval.
    - reflexivity. }
  split; [by_eval|].
  { destruct (drop_policy env_ready (world_tolerance 0.3 cfg_cd [])
                (- 0.4)) as (_ & H & _).
    eexists. split.
    - apply H; by_eval.
    - reflexivity. }
Defined.

(** 201 lost packets trigger recovery, 200 do not. *)
Lemma loss_notice_threshold_witness :
  let w201 := with_self (set_silence_to_insert 7)
                (world_init [CMD_DROPS 201; CMD_AUDIO 1 chunk4]) in
  let w200 := with_self (set_silence_to_insert 7)
                (world_init [CMD_DROPS 200; CMD_AUDIO 1 chunk4]) in
  chunk_list (chunk_queue w201) = [CMD_DROPS 201; CMD_AUDIO 1 chunk4] /\
  chunk_list (chunk_queue w200) = [CMD_DROPS 200; CMD_AUDIO 1 chunk4] /\
  recovery_requests (chunk_queue (final (iteration env_ready w201))) = 1%nat /\
  silence_to_insert (self (final (iteration env_ready w201))) = 0 /\
  recovery_requests (chunk_queue (final (iteration env_ready w200))) = 0%nat /\
  silence_to_insert (self (final (iteration env_ready w200))) = 207.
Proof.
  cbv zeta. split; [reflexivity|]. split; [reflexivity|].
  destruct (loss_notice_threshold env_ready
              (with_self (set_silence_to_insert 7)
                 (world_init [CMD_DROPS 201; CMD_AUDIO 1 chunk4]))
              201 [CMD_AUDIO 1 chunk4] eq_refl) as (H201 & _).
  destruct (H201 ltac:(lia)) as (_ & Hr & Hs).
  destruct (loss_notice_threshold env_ready
              (with_self (set_silence_to_insert 7)
                 (world_init [CMD_DROPS 200; CMD_AUDIO 1 chunk4]))
              200 [CMD_AUDIO 1 chunk4] eq_refl) as (_ & H200).
  destruct (H200 ltac:(lia)) as (_ & Hr' & Hs' & _).
  split; [exact Hr|]. split; [exact Hs|]. split; [exact Hr'|exact Hs'].
Defined.

(** Scenario A. *)
Lemma frame_size_and_chunk_frames_witness :
  let w := world_init [CMD_CFG cfg_cd] in
  chunk_list (chunk_queue w) = [CMD_CFG cfg_cd] /\
  env_open_ok env_ready (n_open (cursor w)) = true /\
  channels cfg_cd <> 0 /\
  exists w' cf,
    iteration env_ready w = Return tt w' /\
    frame_size (self w') = Some 4 /\
    chunk_frames (self w') = Some cf /\ (cf == 1024)%Q.
Proof.
  cbv zeta. split; [reflexivity|]. split; [reflexivity|].
  split; [discriminate|].
  destruct (frame_size_and_chunk_frames env_ready
              (world_init [CMD_CFG cfg_cd]) cfg_cd [] eq_refl eq_refl
              ltac:(discriminate))
    as (w' & fs & cf & Hrun & Hfs & Hcf & _ & _ & _ & Hcd).
  destruct (Hcd eq_refl) as [H4 H1024].
  exists w', cf. split; [exact Hrun|]. split; [rewrite <- H4; exact Hfs|].
  split; [exact Hcf|exact H1024].
Defined.

(** Scenario C: the configuration is processed, then a chunk marked 0.6
    arrives at time 0 with a sink latency of 0.1. *)
Lemma max_delay_after_cfg_witness :
  let w := world_init [CMD_CFG cfg_cd; CMD_AUDIO 0.6 chunk4] in
  chunk_list (chunk_queue w) = [CMD_CFG cfg_cd; CMD_AUDIO 0.6 chunk4] /\
  env_open_ok env_ready (n_open (cursor w)) = true /\
  channels cfg_cd <> 0 /\
  (sink_latency (self w) == 0.1)%Q /\
  latency_msec cfg_cd = 100 /\
  exists w1 w2,
    iteration env_ready w = Return tt w1 /\
    (max_delay (locals w1) == 0.4)%Q /\
    chunk_list (chunk_queue w1) = [] /\
    (chunk_delay env_ready 0.6 (with_queue
                                  (set_chunk_list [CMD_AUDIO 0.6 chunk4]) w1)
     == 0.5)%Q /\
    iteration env_ready
      (with_queue (set_chunk_list [CMD_AUDIO 0.6 chunk4]) w1) =
      Return tt w2 /\
    recovery_requests (chunk_queue w2) =
      S (recovery_requests (chunk_queue w1)) /\
    existsb is_write (trace w2) = existsb is_write (trace w1).
Proof.
  cbv zeta.
  split; [reflexivity|]. split; [reflexivity|]. split; [discriminate|].
  split; [by_eval|]. split; [reflexivity|].
  destruct (max_delay_after_cfg env_ready
              (world_init [CMD_CFG cfg_cd; CMD_AUDIO 0.6 chunk4]) cfg_cd
              [CMD_AUDIO 0.6 chunk4] eq_refl eq_refl ltac:(discriminate))
    as (w1 & Hrun & _ & H).
  destruct (H ltac:(by_eval) eq_refl) as (H04 & Hlate).
  assert (E : w1 = final (iteration env_ready
                            (world_init [CMD_CFG cfg_cd;
                                         CMD_AUDIO 0.6 chunk4])))
    by (rewrite Hrun; reflexivity).
  assert (Hq1 : chunk_list (chunk_queue w1) = []) by (rewrite E; by_eval).
  assert (Hs1 : stream (self w1) = Some (mkStream 2 44100 paInt16 1024 None))
    by (rewrite E; by_eval).
  assert (Ht1 : (0 <= tolerance (self w1))%Q) by (rewrite E; by_eval).
  assert (Hd1 : (chunk_delay env_ready 0.6
                   (with_queue (set_chunk_list [CMD_AUDIO 0.6 chunk4]) w1)
                 == 0.5)%Q) by (rewrite E; by_eval).
  destruct (Hlate (with_queue (set_chunk_list [CMD_AUDIO 0.6 chunk4]) w1)
              0.6%Q chunk4 [] (mkStream 2 44100 paInt16 1024 None)
              eq_refl eq_refl Hs1 Ht1 Hd1)
    as (w2 & Hrun2 & Hrec & _ & Htr & _).
  exists w1, w2. split; [exact Hrun|]. split; [exact H04|].
  split; [exact Hq1|]. split; [exact Hd1|]. split; [exact Hrun2|].
  split; [exact Hrec|].
  rewrite Htr, existsb_app. simpl. apply orb_false_r.
Defined.

(** A chunk due in 100 ms is preceded by a sleep of 99 ms; a chunk due
    now is polled for at once. *)
Lemma prewrite_suspension_witness :
  let early := world_playing cfg_cd [CMD_AUDIO 0.2 chunk4] 0 0 in
  let due := world_playing cfg_cd [CMD_AUDIO 0.1 chunk4] 0 0 in
  (chunk_delay env_ready 0.2 early == 0.1)%Q /\
  (chunk_delay env_ready 0.1 due == 0)%Q /\
  (pymax one_msec (chunk_delay env_ready 0.2 early - one_msec) == 0.099)%Q /\
  (exists after,
     trace (final (iteration env_ready early)) =
       trace early
       ++ Sleep (pymax one_msec (chunk_delay env_ready 0.2 early - one_msec))
          :: GetWriteAvailable 2048 :: after) /\
  (exists after,
     trace (final (iteration env_ready due)) =
       trace due ++ GetWriteAvailable 2048 :: after).
Proof.
  cbv zeta.
  split; [by_eval|]. split; [by_eval|]. split; [by_eval|].
  split.
  - destruct (prewrite_suspension env_ready
                (world_playing cfg_cd [CMD_AUDIO 0.2 chunk4] 0 0)
                0.2 chunk4 [] (mkStream 2 44100 paInt16 1024 None)
                eq_refl eq_refl ltac:(by_eval) ltac:(by_eval) ltac:(by_eval))
      as (H & _).
    apply H. by_eval.
  - destruct (prewrite_suspension env_ready
                (world_playing cfg_cd [CMD_AUDIO 0.1 chunk4] 0 0)
                0.1 chunk4 [] (mkStream 2 44100 paInt16 1024 None)
                eq_refl eq_refl ltac:(by_eval) ltac:(by_eval) ltac:(by_eval))
      as (_ & H & _).
    apply H. by_eval.
Defined.

(** Scenario D, with a device that never has room. *)
Lemma stuck_output_abandons_write_witness :
  let w := world_playing cfg_cd [CMD_AUDIO 0.1 chunk4] 0 0 in
  chunk_frames (self w) = Some (inject_Z 4096 / inject_Z 4)%Q /\
  (forall i, (i < 101)%nat ->
     (inject_Z (env_write_available env_stuck (n_poll (cursor w) + i))
      < inject_Z 4096 / inject_Z 4)%Q) /\
  recent (locals w) < 200 /\
  exists w',
    iteration env_stuck w = Return tt w' /\
    stat_output_delays (self w') = 101 /\
    n_poll (cursor w') = 101%nat /\
    existsb is_write (trace w') = false.
Proof.
  cbv zeta. split; [reflexivity|].
  split; [intros i _; by_eval|]. split; [by_eval|].
  destruct (stuck_output_abandons_write env_stuck
              (world_playing cfg_cd [CMD_AUDIO 0.1 chunk4] 0 0)
              0.1 chunk4 [] (mkStream 2 44100 paInt16 1024 None)
              (inject_Z 4096 / inject_Z 4)%Q
              eq_refl eq_refl eq_refl ltac:(by_eval) ltac:(by_eval)
              ltac:(by_eval) ltac:(intros i _; by_eval)
              ltac:(left; by_eval))
    as (w' & report & Hrun & Hod & Htr & Hnw & Hnp).
  exists w'. split; [exact Hrun|]. split; [exact Hod|].
  split; [exact Hnp|]. rewrite Htr. exact Hnw.
Defined.

(** The 201st chunk of a window, no receiver attached. *)
Lemma status_snapshot_witness :
  let w := with_self (set_stat_total_delay 4.02)
             (world_playing cfg_cd [] 201 201) in
  recent (locals w) > 200 /\
  frame_size (self w) = Some 4 /\
  ~ (env_time env_ready (n_time (cursor w)) == recent_start (locals w))%Q /\
  exists snap w',
    status_line env_ready chunk4 2048 w = Return tt w' /\
    trace w' = trace w ++ [Print (MsgStat snap)] /\
    (snap_avg_delay snap == 20)%Q /\
    (snap_net_lat snap == 0)%Q /\ snap_net_drops snap = 0 /\
    recent (locals w') = 0.
Proof.
  cbv zeta. split; [reflexivity|]. split; [reflexivity|].
  split; [by_eval|].
  destruct (status_snapshot env_ready
              (with_self (set_stat_total_delay 4.02)
                 (world_playing cfg_cd [] 201 201)) chunk4 2048 4)
    as (_ & H).
  destruct (H ltac:(reflexivity) eq_refl ltac:(discriminate)
              ltac:(discriminate) ltac:(by_eval) ltac:(discriminate))
    as (snap & warnings & w' & Hrun & Htr & _ & _ & Havg & Hnone & _ & _
        & Hrec & _).
  destruct (Hnone eq_refl) as (Hlat & Hdrops & Hw).
  exists snap, w'. split; [exact Hrun|]. split; [rewrite Htr, Hw; reflexivity|].
  split; [rewrite Havg; by_eval|]. split; [exact Hlat|].
  split; [exact Hdrops|exact Hrec].
Defined.

(** * The further properties at concrete inputs *)

Lemma world_playing_consistent
  (cfg : AudioCfg) (q : list Command) (r c : Z) :
  frame_size_of cfg <> 0 -> device_consistent (world_playing cfg q r c).
Proof.
  intro H. unfold device_consistent. simpl.
  exists cfg. repeat (split; [reflexivity || exact H|]). reflexivity.
Qed.

(** A playing device is reconfigured, and the new device refuses to
    open. *)
Lemma open_failure_leaves_no_device_witness :
  let w := world_playing cfg_cd [CMD_CFG cfg_hd] 0 0 in
  chunk_list (chunk_queue w) = [CMD_CFG cfg_hd] /\
  env_open_ok env_refuse (n_open (cursor w)) = false /\
  exists w',
    iteration env_refuse w = Raise IOError w' /\ stream (self w') = None.
Proof.
  cbv zeta. split; [reflexivity|]. split; [reflexivity|].
  destruct (open_failure_leaves_no_device env_refuse
              (world_playing cfg_cd [CMD_CFG cfg_hd] 0 0) cfg_hd []
              eq_refl eq_refl) as (w' & H1 & H2 & _).
  exists w'. split; assumption.
Defined.

(** The first configuration of a new player has no channels. *)
Lemma zero_channels_divide_by_zero_witness :
  let w := world_init [CMD_CFG cfg_mute] in
  chunk_list (chunk_queue w) = [CMD_CFG cfg_mute] /\
  env_open_ok env_ready (n_open (cursor w)) = true /\
  channels cfg_mute = 0 /\
  exists w',
    iteration env_ready w = Raise ZeroDivisionError w' /\
    stream (self w') = None /\ frame_size (self w') = Some 0.
Proof.
  cbv zeta. split; [reflexivity|]. split; [reflexivity|].
  split; [reflexivity|].
  destruct (zero_channels_divide_by_zero env_ready
              (world_init [CMD_CFG cfg_mute]) cfg_mute []
              eq_refl eq_refl eq_refl) as (w' & H1 & _ & H2 & H3 & _).
  exists w'. repeat split; assumption.
Defined.

(** Tolerance 0 and a chunk that is 0.1 s late. *)
Lemma zero_tolerance_divides_by_zero_witness :
  let w := world_strict cfg_cd [CMD_AUDIO 0 chunk4] in
  chunk_list (chunk_queue w) = [CMD_AUDIO 0 chunk4] /\
  (tolerance (self w) == 0)%Q /\
  (chunk_delay env_ready 0 w < 0)%Q /\
  exists w',
    iteration env_ready w = Raise ZeroDivisionError w' /\
    cnt (locals w') = 1 /\ trace w' = [].
Proof.
  cbv zeta. split; [reflexivity|]. split; [by_eval|]. split; [by_eval|].
  destruct (zero_tolerance_divides_by_zero env_ready
              (world_strict cfg_cd [CMD_AUDIO 0 chunk4]) 0 chunk4 []
              _ eq_refl eq_refl ltac:(by_eval) ltac:(by_eval))
    as (w' & H1 & H2 & _ & _ & _ & _ & _ & H3).
  exists w'. repeat split; assumption.
Defined.

(** A reconfiguration with a chunk and two configurations queued behind
    it: only the first of the two is left. *)
Lemma cfg_reopens_device_and_flushes_queue_witness :
  let w := world_playing cfg_cd
             [CMD_CFG cfg_hd; CMD_AUDIO 1 chunk4; CMD_CFG cfg_small;
              CMD_CFG cfg_cd] 0 0 in
  env_open_ok env_ready (n_open (cursor w)) = true /\
  channels cfg_hd <> 0 /\
  exists w',
    iteration env_ready w = Return tt w' /\
    chunk_list (chunk_queue w') = [CMD_CFG cfg_small].
Proof.
  cbv zeta. split; [reflexivity|]. split; [by_eval|].
  destruct (cfg_reopens_device_and_flushes_queue env_ready
              (world_playing cfg_cd
                 [CMD_CFG cfg_hd; CMD_AUDIO 1 chunk4; CMD_CFG cfg_small;
                  CMD_CFG cfg_cd] 0 0)
              cfg_hd [CMD_AUDIO 1 chunk4; CMD_CFG cfg_small; CMD_CFG cfg_cd]
              eq_refl eq_refl ltac:(by_eval))
    as (w' & H1 & _ & H2 & _).
  exists w'. split; assumption.
Defined.

(** Eight bytes of silence for [cfg_small]. *)
Lemma silent_chunk_zero_filled_and_cached_witness :
  let w := world_playing cfg_small [] 0 0 in
  silence_cache (self w) = None /\
  exists c w1,
    get_silent_chunk w = Return c w1 /\ length c = 8%nat /\
    get_silent_chunk w1 = Return c w1.
Proof.
  cbv zeta. split; [reflexivity|].
  destruct (silent_chunk_zero_filled_and_cached
              (world_playing cfg_small [] 0 0) eq_refl) as (H & _).
  destruct (H cfg_small eq_refl) as (c & w1 & H1 & H2 & _ & _ & _ & _ & H3).
  exists c, w1. repeat split; assumption.
Defined.

(** Three passes over a chunk, a reconfiguration and another chunk. *)
Lemma device_stays_consistent_witness :
  let w := world_playing cfg_cd
             [CMD_AUDIO 1 chunk4; CMD_CFG cfg_hd; CMD_AUDIO 1 chunk4] 0 0 in
  device_consistent w /\
  device_consistent (final (chunk_player_loop env_ready 3 w)).
Proof.
  cbv zeta.
  assert (H : device_consistent
                (world_playing cfg_cd
                   [CMD_AUDIO 1 chunk4; CMD_CFG cfg_hd; CMD_AUDIO 1 chunk4]
                   0 0))
    by (apply world_playing_consistent; by_eval).
  split; [exact H|].
  apply (device_stays_consistent env_ready 3 _ H).
Defined.

(** A new player whose device refuses to open. *)
Lemma player_only_fails_by_division_or_device_witness :
  let r := chunk_player env_refuse 2
             (world_start (__init__ None 0.1 0.1 0 1024 None)
                          [CMD_CFG cfg_cd]) in
  r = Raise IOError (final r) /\
  (IOError = ZeroDivisionError \/ IOError = IOError).
Proof.
  cbv zeta.
  assert (H : chunk_player env_refuse 2
                (world_start (__init__ None 0.1 0.1 0 1024 None)
                             [CMD_CFG cfg_cd]) =
              Raise IOError
                (final (chunk_player env_refuse 2
                          (world_start (__init__ None 0.1 0.1 0 1024 None)
                                       [CMD_CFG cfg_cd]))))
    by (vm_compute; reflexivity).
  split; [exact H|].
  exact (player_only_fails_by_division_or_device env_refuse 2 None 0.1 0.1 0
           1024 None [CMD_CFG cfg_cd] _ _ H).
Defined.

(** A chunk due now in front of a device that never has room: 101
    pauses of one millisecond and the one-second sleep. *)
Lemma chunk_sleeps_at_least_one_msec_witness :
  let w := world_playing cfg_cd [CMD_AUDIO 0.1 chunk4] 0 0 in
  let t := trace (final (iteration env_stuck w)) in
  chunk_list (chunk_queue w) = [CMD_AUDIO 0.1 chunk4] /\
  length t = 204%nat /\
  nth 1 t DoRecovery = Sleep one_msec /\
  last t DoRecovery = Sleep 1 /\
  exists l,
    t = trace w ++ l /\
    Forall (fun e => forall d, e = Sleep d -> (one_msec <= d)%Q) l.
Proof.
  cbv zeta. split; [reflexivity|]. split; [by_eval|]. split; [by_eval|].
  split; [by_eval|].
  exact (chunk_sleeps_at_least_one_msec env_stuck
           (world_playing cfg_cd [CMD_AUDIO 0.1 chunk4] 0 0) 0.1 chunk4 [] _
           eq_refl eq_refl).
Defined.

(** The same pass: 101 polls, 101 output delays, no write. *)
Lemma polls_are_delays_or_writes_witness :
  let w := world_playing cfg_cd [CMD_AUDIO 0.1 chunk4] 0 0 in
  device_consistent w /\
  n_poll (cursor (final (iteration env_stuck w))) = 101%nat /\
  stat_output_delays (self (final (iteration env_stuck w))) = 101 /\
  exists l,
    trace (final (iteration env_stuck w)) = trace w ++ l /\
    Z.of_nat (n_poll (cursor (final (iteration env_stuck w)))) <=
      Z.of_nat (n_poll (cursor w)) + 101 /\
    Z.of_nat (n_poll (cursor (final (iteration env_stuck w))))
    - Z.of_nat (n_poll (cursor w)) =
      stat_output_delays (self (final (iteration env_stuck w)))
      - stat_output_delays (self w)
      + Z.of_nat (length (writes l)).
Proof.
  cbv zeta.
  assert (H : device_consistent
                (world_playing cfg_cd [CMD_AUDIO 0.1 chunk4] 0 0))
    by (apply world_playing_consistent; by_eval).
  split; [exact H|]. split; [by_eval|]. split; [by_eval|].
  exact (polls_are_delays_or_writes env_stuck _ H).
Defined.

(** Room at the fourth poll: three output delays, then the write. *)
Lemma retried_write_happens_once_witness :
  let w := world_playing cfg_cd [CMD_AUDIO 0.1 chunk4] 0 0 in
  (0 < tolerance (self w))%Q /\
  (chunk_delay (env_slow 3) 0.1 w <= max_delay (locals w))%Q /\
  (inject_Z (env_write_available (env_slow 3) 2) < 1024)%Q /\
  (1024 <= inject_Z (env_write_available (env_slow 3) 3))%Q /\
  exists w',
    iteration (env_slow 3) w = Return tt w' /\
    stat_output_delays (self w') = 3.
Proof.
  cbv zeta. split; [by_eval|]. split; [by_eval|]. split; [by_eval|].
  split; [by_eval|].
  destruct (retried_write_happens_once (env_slow 3)
              (world_playing cfg_cd [CMD_AUDIO 0.1 chunk4] 0 0)
              0.1 chunk4 [] _ _ 3 eq_refl eq_refl eq_refl
              ltac:(by_eval) ltac:(by_eval) ltac:(by_eval)
              ltac:(lia)
              ltac:(intros [|[|[|i]]] Hi; [by_eval|by_eval|by_eval|lia])
              ltac:(by_eval)
              ltac:(left; reflexivity))
    as (w' & report & H1 & H2 & _).
  exists w'. split; [exact H1|exact H2].
Defined.

(** Draw 0.5: a chunk 0.09 s late is dropped (probability 0.8), so one
    0.2 s late is dropped as well. *)
Lemma later_chunk_dropped_too_witness :
  let w := world_playing cfg_cd [] 0 0 in
  (0 < tolerance (self w))%Q /\
  (- 0.2 <= - 0.09)%Q /\
  timing env_ready (- 0.09) w =
    Return false (final (timing env_ready (- 0.09) w)) /\
  exists w1,
    timing env_ready (- 0.2) w = Return false w1 /\
    stat_time_drops (self w1) = 1.
Proof.
  cbv zeta. split; [by_eval|]. split; [by_eval|].
  assert (H : timing env_ready (- 0.09) (world_playing cfg_cd [] 0 0) =
              Return false
                (final (timing env_ready (- 0.09)
                          (world_playing cfg_cd [] 0 0))))
    by (vm_compute; reflexivity).
  split; [exact H|].
  exact (later_chunk_dropped_too env_ready (world_playing cfg_cd [] 0 0)
           (- 0.2) (- 0.09) _ ltac:(by_eval) ltac:(by_eval) H
           ltac:(by_eval)).
Defined.

(** A new player that is sent audio and a loss notice but never a
    configuration. *)
Lemma nothing_played_before_configuration_witness :
  let w := world_init [CMD_AUDIO 1 chunk4; CMD_DROPS 3] in
  (forall k, scan_cfg (env_producer env_feed k) = None) /\
  stream (self w) = None /\
  scan_cfg (chunk_list (chunk_queue w)) = None /\
  exists w' l,
    chunk_player_loop env_feed 5 w = Return tt w' /\
    trace w' = trace w ++ l /\
    existsb is_device l = false /\
    cnt (locals w') = cnt (locals w).
Proof.
  cbv zeta. split; [intro k; reflexivity|]. split; [reflexivity|].
  split; [reflexivity|].
  destruct (nothing_played_before_configuration env_feed
              (fun k => eq_refl) 5
              (world_init [CMD_AUDIO 1 chunk4; CMD_DROPS 3])
              eq_refl eq_refl)
    as (w' & l & H1 & H2 & H3 & _ & H4 & _).
  exists w', l. repeat split; assumption.
Defined.

(** An empty queue while a configuration is in force: the chunks that
    arrive during the wait and during the sleep are both queued. *)
Lemma empty_queue_waits_once_witness :
  let w := world_playing cfg_cd [] 0 0 in
  chunk_list (chunk_queue w) = [] /\
  exists w',
    iteration env_feed w = Return tt w' /\
    chunk_list (chunk_queue w') =
      [CMD_AUDIO (inject_Z 0) chunk4; CMD_AUDIO (inject_Z 1) chunk4].
Proof.
  cbv zeta. split; [reflexivity|].
  destruct (empty_queue_waits_once env_feed
              (world_playing cfg_cd [] 0 0) eq_refl)
    as (w' & H1 & H2 & _).
  exists w'. split; [exact H1|exact H2].
Defined.

